(** * SmartCity local recommendation engine: cache, refresh and query routing

    A shallow embedding of [mcp_server/server.py] and of the four context
    providers under [context_providers/], followed by the properties of the
    aggregation / cache / query-routing engine.

    Python values are embedded as a small dynamically typed universe
    ([PyVal]); dictionaries are association lists in insertion order;
    exceptions are an explicit error type threaded through a result monad.
    The clock, the random generator and the OpenWeatherMap service are inputs
    of each engine operation ([Env]). *)

From Stdlib Require Import ZArith List String Ascii Bool Lia Permutation Sorted.
From Stdlib Require Import DecimalString.
Import ListNotations.

Set Warnings "-register-all".

Open Scope string_scope.
Open Scope Z_scope.

(* ================================================================== *)
(** * Python values *)
(* ================================================================== *)

(** Exceptions that the modelled code can raise. *)
Inductive Exn : Type :=
| ValueError
| TypeError
| KeyError
| IndexError
| AttributeError
| HTTPError.

(** The result of a computation that may raise. *)
Inductive Res (A : Type) : Type :=
| Ok (a : A)
| Raise (e : Exn).

Arguments Ok {A} a.
Arguments Raise {A} e.

Definition bind {A B : Type} (m : Res A) (k : A -> Res B) : Res B :=
  match m with
  | Ok a => k a
  | Raise e => Raise e
  end.

Notation "x <- m ;; k" := (bind m (fun x => k))
  (at level 61, m at next level, right associativity).

Definition raised {A : Type} (m : Res A) : bool :=
  match m with Ok _ => false | Raise _ => true end.

Fixpoint mapM {A B : Type} (f : A -> Res B) (l : list A) : Res (list B) :=
  match l with
  | [] => Ok []
  | x :: xs => y <- f x ;; ys <- mapM f xs ;; Ok (y :: ys)
  end.

(** A Python float is modelled by the decimal number it is written as:
    [mant * 10 ^ (- expo)].  Comparison, subtraction, halving and rounding
    to one decimal are computed exactly on this representation; the
    rounding error of binary floating point is not modelled. *)
Record Dec : Type := mkDec { mant : Z; expo : nat }.

Inductive PyVal : Type :=
| PNone
| PBool (b : bool)
| PInt (z : Z)
| PFloat (d : Dec)
| PStr (s : string)
| PList (l : list PyVal)
| PDict (d : list (string * PyVal)).

(** A dictionary with string keys, in insertion order. *)
Definition dict : Type := list (string * PyVal).

Fixpoint lookup (k : string) (d : dict) : option PyVal :=
  match d with
  | [] => None
  | (k', v) :: d' => if String.eqb k k' then Some v else lookup k d'
  end.

Definition has_key (k : string) (d : dict) : bool :=
  match lookup k d with Some _ => true | None => false end.

(** [d.get(k, default)] on a dictionary. *)
Definition dict_get (d : dict) (k : string) (default : PyVal) : PyVal :=
  match lookup k d with Some v => v | None => default end.

(** [d.get(k, default)] on a dictionary literal of strings. *)
Fixpoint dict_get_str (d : list (string * string)) (k default : string)
  : string :=
  match d with
  | [] => default
  | (k', v) :: d' => if String.eqb k k' then v else dict_get_str d' k default
  end.

(** [v.get(k, default)] on an arbitrary value: only dictionaries have
    the method. *)
Definition py_get (v : PyVal) (k : string) (default : PyVal) : Res PyVal :=
  match v with
  | PDict d => Ok (dict_get d k default)
  | _ => Raise AttributeError
  end.

(** [v[k]] with a string key. *)
Definition py_getitem (v : PyVal) (k : string) : Res PyVal :=
  match v with
  | PDict d => match lookup k d with Some x => Ok x | None => Raise KeyError end
  | _ => Raise TypeError
  end.

(** [d[k] = v] on a dictionary: replaces in place or appends. *)
Fixpoint dict_set (d : dict) (k : string) (v : PyVal) : dict :=
  match d with
  | [] => [(k, v)]
  | (k', v') :: d' =>
      if String.eqb k k' then (k', v) :: d' else (k', v') :: dict_set d' k v
  end.

(** Truth value of an object, as tested by [if], [or] and [not]. *)
Definition dec_is_zero (d : Dec) : bool := mant d =? 0.

Definition truthy (v : PyVal) : bool :=
  match v with
  | PNone => false
  | PBool b => b
  | PInt z => negb (z =? 0)
  | PFloat d => negb (dec_is_zero d)
  | PStr s => negb (String.eqb s "")
  | PList l => match l with [] => false | _ => true end
  | PDict d => match d with [] => false | _ => true end
  end.

(** [a or b] on optional strings: an argument that is [None] or empty falls
    back to the second operand. *)
Definition str_or (a : option string) (b : string) : string :=
  match a with
  | Some s => if String.eqb s "" then b else s
  | None => b
  end.

Definition py_of_opt_str (a : option string) : PyVal :=
  match a with Some s => PStr s | None => PNone end.

(** [v != c] where [c] is a string: a string equals only an equal string. *)
Definition py_ne_str (v : PyVal) (c : string) : bool :=
  match v with
  | PStr s => negb (String.eqb s c)
  | _ => true
  end.

(* ================================================================== *)
(** * Strings *)
(* ================================================================== *)

(** Strings are byte strings.  [lower] folds the ASCII capitals, which is
    what [str.lower] does on ASCII text. *)
Definition lower_ascii (c : ascii) : ascii :=
  let n := nat_of_ascii c in
  if (Nat.leb 65 n && Nat.leb n 90)%bool then ascii_of_nat (n + 32) else c.

Fixpoint lower (s : string) : string :=
  match s with
  | EmptyString => EmptyString
  | String c s' => String (lower_ascii c) (lower s')
  end.

(** [k in s] on strings: [k] occurs as a contiguous substring of [s]. *)
Fixpoint str_in (k s : string) : bool :=
  if String.prefix k s then true
  else match s with
       | EmptyString => false
       | String _ s' => str_in k s'
       end.

(** [any(keyword in query_lower for keyword in keywords)]. *)
Definition any_keyword_in (keywords : list string) (query_lower : string) : bool :=
  existsb (fun keyword => str_in keyword query_lower) keywords.

(** [sep.join(parts)]. *)
Fixpoint join (sep : string) (parts : list string) : string :=
  match parts with
  | [] => ""
  | [p] => p
  | p :: ps => p ++ sep ++ join sep ps
  end.

(** [s.replace(old, new)]: every non-overlapping occurrence, left to right.
    [skip] counts the bytes of the current occurrence still to be dropped. *)
Fixpoint replace_from (old new s : string) (skip : nat) : string :=
  match s with
  | EmptyString => EmptyString
  | String c s' =>
      match skip with
      | S n => replace_from old new s' n
      | O =>
          if String.prefix old s
          then new ++ replace_from old new s' (Nat.pred (String.length old))
          else String c (replace_from old new s' 0)
      end
  end.

Fixpoint intersperse (new s : string) : string :=
  match s with
  | EmptyString => new
  | String c s' => new ++ String c (intersperse new s')
  end.

Definition replace (s old new : string) : string :=
  match old with
  | EmptyString => intersperse new s
  | _ => replace_from old new s 0
  end.

(** Decimal rendering of integers, as [str] and [f"{n}"] produce it. *)
Definition str_of_Z (z : Z) : string := NilZero.string_of_int (Z.to_int z).

Fixpoint zeros (n : nat) : string :=
  match n with
  | O => ""
  | S n' => String "0" (zeros n')
  end.

(** [f"{n:0{width}d}"] for a non-negative [n]. *)
Definition pad0 (width : nat) (n : Z) : string :=
  let digits := str_of_Z n in
  zeros (width - String.length digits) ++ digits.

Definition is_digit (c : ascii) : bool :=
  let n := nat_of_ascii c in (Nat.leb 48 n && Nat.leb n 57)%bool.

Fixpoint digits_value (acc : Z) (s : string) : option Z :=
  match s with
  | EmptyString => Some acc
  | String c s' =>
      if is_digit c
      then digits_value (10 * acc + Z.of_nat (nat_of_ascii c - 48)) s'
      else None
  end.

(** [float(s)] on the strings the shop-offers provider can build: a
    non-empty run of decimal digits gives that number.  Every other string
    is treated as malformed ([ValueError]); none arises from the offers the
    provider builds (lemma [offer_key_percent]). *)
Definition py_float (s : string) : Res Dec :=
  match s with
  | EmptyString => Raise ValueError
  | _ => match digits_value 0 s with
         | Some n => Ok (mkDec n 0)
         | None => Raise ValueError
         end
  end.

(* ================================================================== *)
(** * Numbers *)
(* ================================================================== *)

Definition dec_of_Z (z : Z) : Dec := mkDec z 0.

(** Both operands scaled to a common exponent. *)
Definition dec_align (a b : Dec) : Z * Z :=
  (mant a * 10 ^ Z.of_nat (expo b), mant b * 10 ^ Z.of_nat (expo a)).

Definition dec_leb (a b : Dec) : bool :=
  let (x, y) := dec_align a b in x <=? y.

Definition dec_ltb (a b : Dec) : bool :=
  let (x, y) := dec_align a b in x <? y.

Definition dec_sub (a b : Dec) : Dec :=
  let (x, y) := dec_align a b in mkDec (x - y) (expo a + expo b).

(** [a * 0.5]. *)
Definition dec_half (a : Dec) : Dec := mkDec (mant a * 5) (S (expo a)).

(** [round(a, 1)]: nearest multiple of one tenth, ties to the even one. *)
Definition dec_round1 (a : Dec) : Dec :=
  match expo a with
  | O => a
  | S e =>
      let unit := 10 ^ Z.of_nat e in
      let q := mant a / unit in
      let r := mant a mod unit in
      let up := if 2 * r <? unit then false
                else if unit <? 2 * r then true
                else Z.odd q in
      mkDec (if up then q + 1 else q) 1
  end.

(** Trailing zeros of the fraction are not printed. *)
Fixpoint dec_strip (m : Z) (e : nat) : Z * nat :=
  match e with
  | O => (m, O)
  | S e' => if m mod 10 =? 0 then dec_strip (m / 10) e' else (m, e)
  end.

(** [str] of a float: at least one fractional digit, no exponent form. *)
Definition str_of_dec (d : Dec) : string :=
  let (m, e) := dec_strip (mant d) (expo d) in
  let a := Z.abs m in
  let unit := 10 ^ Z.of_nat e in
  (if m <? 0 then "-" else "") ++ str_of_Z (a / unit) ++ "." ++
  match e with
  | O => "0"
  | _ => pad0 e (a mod unit)
  end.

(** The numeric value of an operand of [<], [<=], [-] and [*]; booleans are
    integers, everything else is not a number. *)
Definition py_num (v : PyVal) : Res Dec :=
  match v with
  | PInt z => Ok (dec_of_Z z)
  | PFloat d => Ok d
  | PBool b => Ok (dec_of_Z (if b then 1 else 0))
  | _ => Raise TypeError
  end.

(** [v < n], [v <= n], [n <= v] and [v > n] against an integer literal. *)
Definition py_lt_int (v : PyVal) (n : Z) : Res bool :=
  d <- py_num v ;; Ok (dec_ltb d (dec_of_Z n)).

Definition py_le_int (v : PyVal) (n : Z) : Res bool :=
  d <- py_num v ;; Ok (dec_leb d (dec_of_Z n)).

Definition py_int_le (n : Z) (v : PyVal) : Res bool :=
  d <- py_num v ;; Ok (dec_leb (dec_of_Z n) d).

Definition py_gt_int (v : PyVal) (n : Z) : Res bool :=
  d <- py_num v ;; Ok (dec_ltb (dec_of_Z n) d).

(* ================================================================== *)
(** * Rendering values: [repr] and [str] *)
(* ================================================================== *)

Definition hex_digit (n : nat) : ascii :=
  if Nat.ltb n 10 then ascii_of_nat (48 + n) else ascii_of_nat (87 + n).

Definition quote1 : ascii := ascii_of_nat 39.
Definition quote2 : ascii := ascii_of_nat 34.
Definition backslash : ascii := ascii_of_nat 92.

Fixpoint has_char (c : ascii) (s : string) : bool :=
  match s with
  | EmptyString => false
  | String c' s' => if Ascii.eqb c c' then true else has_char c s'
  end.

Fixpoint repr_chars (q : ascii) (s : string) : string :=
  match s with
  | EmptyString => EmptyString
  | String c s' =>
      let n := nat_of_ascii c in
      (if Ascii.eqb c backslash then String backslash (String backslash "")
       else if Ascii.eqb c q then String backslash (String q "")
       else if Nat.eqb n 9 then String backslash "t"
       else if Nat.eqb n 10 then String backslash "n"
       else if Nat.eqb n 13 then String backslash "r"
       else if (Nat.ltb n 32 || Nat.eqb n 127)%bool
            then String backslash
                   (String "x" (String (hex_digit (Nat.div n 16))
                                  (String (hex_digit (Nat.modulo n 16)) "")))
       else String c "") ++ repr_chars q s'
  end.

(** [repr] of a string: single quotes unless the text holds a single quote
    and no double quote. *)
Definition repr_str (s : string) : string :=
  let q := if (has_char quote1 s && negb (has_char quote2 s))%bool
           then quote2 else quote1 in
  String q (repr_chars q s ++ String q "").

Fixpoint py_repr (v : PyVal) : string :=
  match v with
  | PNone => "None"
  | PBool true => "True"
  | PBool false => "False"
  | PInt z => str_of_Z z
  | PFloat d => str_of_dec d
  | PStr s => repr_str s
  | PList l => "[" ++ join ", " (map py_repr l) ++ "]"
  | PDict d =>
      "{" ++ join ", " (map (fun kv : string * PyVal =>
                              let (k, x) := kv in
                              repr_str k ++ ": " ++ py_repr x) d) ++ "}"
  end.

(** [str(v)], which is what an f-string field [{v}] renders. *)
Definition py_str (v : PyVal) : string :=
  match v with
  | PStr s => s
  | _ => py_repr v
  end.

(* ================================================================== *)
(** * Calendar and clock *)
(* ================================================================== *)

(** A naive [datetime] value. *)
Record datetime : Type := mkDatetime {
  year : Z;
  month : Z;
  day : Z;
  hour : Z;
  minute : Z;
  second : Z;
  microsecond : Z
}.

Definition is_leap (y : Z) : bool :=
  ((y mod 4 =? 0) && (negb (y mod 100 =? 0) || (y mod 400 =? 0)))%bool.

Definition days_in_month (y m : Z) : Z :=
  if m =? 2 then (if is_leap y then 29 else 28)
  else if ((m =? 4) || (m =? 6) || (m =? 9) || (m =? 11))%bool then 30
  else 31.

Definition days_before_year (y : Z) : Z :=
  let p := y - 1 in p * 365 + p / 4 - p / 100 + p / 400.

Fixpoint days_before_month_from (y : Z) (m : nat) : Z :=
  match m with
  | O => 0
  | S m' => days_before_month_from y m' + days_in_month y (Z.of_nat m)
  end.

Definition days_before_month (y m : Z) : Z :=
  days_before_month_from y (Z.to_nat (m - 1)).

(** Proleptic Gregorian ordinal of a date (1 is 0001-01-01). *)
Definition ordinal (t : datetime) : Z :=
  days_before_year (year t) + days_before_month (year t) (month t) + day t.

(** The instant as a count of microseconds. *)
Definition micros (t : datetime) : Z :=
  (((ordinal t * 24 + hour t) * 60 + minute t) * 60 + second t) * 1000000
  + microsecond t.

(** [(a - b).total_seconds() < limit] for an integer [limit] of seconds.
    [total_seconds] divides the microsecond count by [10**6]; against an
    integer limit the comparison is decided by the microsecond counts. *)
Definition elapsed_lt (a b : datetime) (limit : Z) : bool :=
  micros a - micros b <? limit * 1000000.

(** [t.replace(day=d)]: the day must exist in the month of [t]. *)
Definition replace_day (t : datetime) (d : Z) : Res datetime :=
  if ((1 <=? d) && (d <=? days_in_month (year t) (month t)))%bool
  then Ok (mkDatetime (year t) (month t) d (hour t) (minute t) (second t)
                      (microsecond t))
  else Raise ValueError.

(** [t.strftime("%Y-%m-%d")]. *)
Definition strftime_ymd (t : datetime) : string :=
  pad0 4 (year t) ++ "-" ++ pad0 2 (month t) ++ "-" ++ pad0 2 (day t).

(** [t.isoformat()]. *)
Definition isoformat (t : datetime) : string :=
  strftime_ymd t ++ "T" ++ pad0 2 (hour t) ++ ":" ++ pad0 2 (minute t) ++ ":"
  ++ pad0 2 (second t)
  ++ (if microsecond t =? 0 then "" else "." ++ pad0 6 (microsecond t)).

(* ================================================================== *)
(** * The environment of an engine operation *)
(* ================================================================== *)

(** A JSON number. *)
Inductive Num : Type :=
| NInt (z : Z)
| NFloat (d : Dec).

Definition py_of_num (n : Num) : PyVal :=
  match n with NInt z => PInt z | NFloat d => PFloat d end.

(** [d.get(k)] for an optional field: a missing field reads as [None]. *)
Definition py_of_opt_num (n : option Num) : PyVal :=
  match n with Some x => py_of_num x | None => PNone end.

(** One element of the [weather] array of an OpenWeatherMap answer. *)
Record OWCondition : Type := mkOWCondition {
  ow_description : option string;
  ow_main_condition : option string
}.

(** The JSON body of an OpenWeatherMap current-weather answer, with the
    fields the weather provider reads.  Any field may be missing. *)
Record OWResponse : Type := mkOWResponse {
  ow_name : option string;
  ow_sys_country : option string;
  ow_temp : option Num;
  ow_feels_like : option Num;
  ow_humidity : option Num;
  ow_pressure : option Num;
  ow_weather : option (list OWCondition);
  ow_wind_speed : option Num;
  ow_wind_deg : option Num;
  ow_visibility : option Num;
  ow_clouds_all : option Num
}.

(** What an engine operation reads from the outside world: the clock
    ([datetime.now()], read once per operation), the draws of the [random]
    module in the order they are made, and the outcome of the HTTP exchange
    of the weather provider and of the weather provider nested in the
    temperature provider ([Raise] when the request, the status check or the
    JSON decoding fails). *)
Record Env : Type := mkEnv {
  now : datetime;
  rand : nat -> nat;
  http_weather : Res OWResponse;
  http_temperature : Res OWResponse
}.

(** [random.randint(a, b)] at draw number [i]. *)
Definition randint (env : Env) (i : nat) (a b : Z) : Z :=
  a + Z.of_nat (rand env i) mod (b - a + 1).

(** [random.choice(seq)] at draw number [i]. *)
Definition choice (env : Env) (i : nat) (seq : list string) : string :=
  nth (Nat.modulo (rand env i) (List.length seq)) seq "".

(** [round(random.uniform(0.5, 5.0), 1)] at draw number [i]: one of the
    tenths from 0.5 to 5.0. *)
Definition uniform_tenths (env : Env) (i : nat) : Dec :=
  mkDec (5 + Z.of_nat (rand env i) mod 46) 1.

(* ================================================================== *)
(** * context_providers/base_provider.py *)
(* ================================================================== *)

Module BaseProvider.

(** The attributes of a provider object: those set by
    [BaseProvider.__init__] and the [cached_data] every subclass adds. *)
Record t : Type := mk {
  api_key : option string;
  last_fetch_time : option datetime;
  cache_duration : Z;
  cached_data : option dict
}.

Definition init (api_key : option string) : t :=
  mk api_key None 300 None.

Definition is_cache_valid (self : t) (now : datetime) : bool :=
  match last_fetch_time self with
  | None => false
  | Some last => elapsed_lt now last (cache_duration self)
  end.

Definition format_response (provider : string) (now : datetime) (data : dict)
  : dict :=
  [ ("data", PDict data);
    ("timestamp", PStr (isoformat now));
    ("provider", PStr provider) ].

(** [self.is_cache_valid() and self.cached_data]: the cached dictionary when
    the test succeeds. *)
Definition cache_hit (self : t) (now : datetime) : option dict :=
  if is_cache_valid self now
  then match cached_data self with
       | Some (kv :: d) => Some (kv :: d)
       | _ => None
       end
  else None.

(** [self.cached_data = data; self.last_fetch_time = datetime.now()]. *)
Definition store (self : t) (now : datetime) (data : dict) : t :=
  mk (api_key self) (Some now) (cache_duration self) (Some data).

End BaseProvider.

(** [a or b] where both are optional strings. *)
Definition opt_or (a b : option string) : option string :=
  match a with
  | Some s => if String.eqb s "" then b else Some s
  | None => b
  end.

Definition opt_truthy (a : option string) : bool :=
  match a with
  | Some s => negb (String.eqb s "")
  | None => false
  end.

(* ================================================================== *)
(** * context_providers/weather_provider.py *)
(* ================================================================== *)

Module WeatherProvider.

Definition init (api_key getenv : option string) : BaseProvider.t :=
  BaseProvider.init (opt_or api_key getenv).

Definition _get_mock_data (now : datetime) (city country : string) : dict :=
  BaseProvider.format_response "WeatherProvider" now
    [ ("city", PStr city);
      ("country", PStr country);
      ("temperature", PFloat (mkDec 155 1));
      ("feels_like", PFloat (mkDec 142 1));
      ("humidity", PInt 65);
      ("pressure", PInt 1013);
      ("description", PStr "partly cloudy");
      ("main_condition", PStr "Clouds");
      ("wind_speed", PFloat (mkDec 35 1));
      ("wind_direction", PInt 180);
      ("visibility", PInt 10000);
      ("cloudiness", PInt 40);
      ("note", PStr "Mock data - API key not configured") ].

(** [data.get("weather", [{}])[0]]. *)
Definition first_condition (data : OWResponse) : Res OWCondition :=
  match ow_weather data with
  | None => Ok (mkOWCondition None None)
  | Some [] => Raise IndexError
  | Some (c :: _) => Ok c
  end.

Definition opt_str_default (a : option string) (default : string) : PyVal :=
  match a with Some s => PStr s | None => PStr default end.

(** The body of the [try] block once the answer has been decoded. *)
Definition format_data (data : OWResponse) (city country : string) : Res dict :=
  c1 <- first_condition data ;;
  c2 <- first_condition data ;;
  Ok [ ("city", opt_str_default (ow_name data) city);
       ("country", opt_str_default (ow_sys_country data) country);
       ("temperature", py_of_opt_num (ow_temp data));
       ("feels_like", py_of_opt_num (ow_feels_like data));
       ("humidity", py_of_opt_num (ow_humidity data));
       ("pressure", py_of_opt_num (ow_pressure data));
       ("description", opt_str_default (ow_description c1) "");
       ("main_condition", opt_str_default (ow_main_condition c2) "");
       ("wind_speed", py_of_opt_num (ow_wind_speed data));
       ("wind_direction", py_of_opt_num (ow_wind_deg data));
       ("visibility", py_of_opt_num (ow_visibility data));
       ("cloudiness", py_of_opt_num (ow_clouds_all data)) ].

(** Does [fetch_data] reach the network (and so suspend)? *)
Definition awaits (self : BaseProvider.t) (now : datetime) : bool :=
  match BaseProvider.cache_hit self now with
  | Some _ => false
  | None => opt_truthy (BaseProvider.api_key self)
  end.

Definition fetch_data (self : BaseProvider.t) (now : datetime)
    (http : Res OWResponse) (city country : string)
  : Res dict * BaseProvider.t :=
  match BaseProvider.cache_hit self now with
  | Some cached =>
      (Ok (BaseProvider.format_response "WeatherProvider" now cached), self)
  | None =>
      if negb (opt_truthy (BaseProvider.api_key self))
      then (Ok (_get_mock_data now city country), self)
      else
        match (data <- http ;; format_data data city country) with
        | Ok formatted_data =>
            (Ok (BaseProvider.format_response "WeatherProvider" now
                   formatted_data),
             BaseProvider.store self now formatted_data)
        | Raise _ => (Ok (_get_mock_data now city country), self)
        end
  end.

End WeatherProvider.

(* ================================================================== *)
(** * context_providers/temperature_provider.py *)
(* ================================================================== *)

Module TemperatureProvider.

(** The provider's own attributes and the weather provider it owns. *)
Record t : Type := mk {
  base : BaseProvider.t;
  weather_provider : BaseProvider.t
}.

Definition init (api_key getenv : option string) : t :=
  let self := BaseProvider.init (opt_or api_key getenv) in
  mk self (WeatherProvider.init (BaseProvider.api_key self) getenv).

Definition _get_temperature_recommendation (temp : PyVal) : Res string :=
  c0 <- py_lt_int temp 0 ;;
  if c0 then Ok "Very cold! Dress warmly with multiple layers." else
  c10 <- py_lt_int temp 10 ;;
  if c10 then Ok "Cold weather. Wear a warm jacket." else
  c18 <- py_lt_int temp 18 ;;
  if c18 then Ok "Cool weather. A light jacket would be comfortable." else
  c25 <- py_lt_int temp 25 ;;
  if c25 then Ok "Pleasant temperature. Light clothing is recommended." else
  c30 <- py_lt_int temp 30 ;;
  if c30 then Ok "Warm weather. Light and breathable clothing."
  else Ok "Hot weather! Stay hydrated and wear light, loose clothing.".

Definition _calculate_wind_chill (temp wind_speed : PyVal) : Res PyVal :=
  calm <- py_lt_int wind_speed 5 ;;
  if calm then Ok temp else
  w <- py_num wind_speed ;;
  t <- py_num temp ;;
  Ok (PFloat (dec_round1 (dec_sub t (dec_half w)))).

(** [18 <= temp <= 25]. *)
Definition comfortable (temp : PyVal) : Res bool :=
  lo <- py_int_le 18 temp ;;
  if lo then py_le_int temp 25 else Ok false.

(** The dictionary built from the weather payload. *)
Definition format_data (weather_info : PyVal) (city country : string)
  : Res dict :=
  temp <- py_get weather_info "temperature" (PInt 0) ;;
  feels_like <- py_get weather_info "feels_like" temp ;;
  city' <- py_get weather_info "city" (PStr city) ;;
  country' <- py_get weather_info "country" (PStr country) ;;
  is_comfortable <- comfortable temp ;;
  too_cold <- py_lt_int temp 10 ;;
  too_hot <- py_gt_int temp 30 ;;
  recommendation <- _get_temperature_recommendation temp ;;
  humidity <- py_get weather_info "humidity" PNone ;;
  wind_speed <- py_get weather_info "wind_speed" (PInt 0) ;;
  wind_chill <- _calculate_wind_chill temp wind_speed ;;
  Ok [ ("city", city');
       ("country", country');
       ("current_temperature", temp);
       ("feels_like_temperature", feels_like);
       ("temperature_unit", PStr "celsius");
       ("temperature_range",
        PDict [ ("comfortable", PBool is_comfortable);
                ("too_cold", PBool too_cold);
                ("too_hot", PBool too_hot) ]);
       ("recommendation", PStr recommendation);
       ("humidity", humidity);
       ("wind_chill_factor", wind_chill) ].

(** Does [fetch_data] reach the network (and so suspend)? *)
Definition awaits (self : t) (now : datetime) : bool :=
  match BaseProvider.cache_hit (base self) now with
  | Some _ => false
  | None => WeatherProvider.awaits (weather_provider self) now
  end.

Definition fetch_data (self : t) (now : datetime) (http : Res OWResponse)
    (city country : string) : Res dict * t :=
  match BaseProvider.cache_hit (base self) now with
  | Some cached =>
      (Ok (BaseProvider.format_response "TemperatureProvider" now cached),
       self)
  | None =>
      let (answer, inner) :=
        WeatherProvider.fetch_data (weather_provider self) now http
          city country in
      match
        weather_data <- answer ;;
        format_data (dict_get weather_data "data" (PDict [])) city country
      with
      | Ok formatted_data =>
          (Ok (BaseProvider.format_response "TemperatureProvider" now
                 formatted_data),
           mk (BaseProvider.store (base self) now formatted_data) inner)
      | Raise e => (Raise e, mk (base self) inner)
      end
  end.

End TemperatureProvider.

(* ================================================================== *)
(** * context_providers/traffic_provider.py *)
(* ================================================================== *)

Module TrafficProvider.

Definition init (api_key : option string) : BaseProvider.t :=
  BaseProvider.init api_key.

Definition conditions : list string := ["low"; "moderate"; "heavy"; "severe"].

Definition _get_traffic_recommendation (condition : string) : string :=
  dict_get_str
    [ ("low", "Traffic is light. Good time to travel.");
      ("moderate", "Moderate traffic expected. Allow some extra time.");
      ("heavy",
       "Heavy traffic detected. Consider alternative routes or public transport.");
      ("severe",
       "Severe traffic congestion. Strongly recommend public transport or delay travel.") ]
    condition "Traffic conditions unknown.".

Definition route (name status : string) (delay_minutes : Z) : PyVal :=
  PDict [ ("name", PStr name);
          ("status", PStr status);
          ("delay_minutes", PInt delay_minutes) ].

(** Ten draws, starting at draw number [i]. *)
Definition _get_mock_traffic_data (env : Env) (i : nat) (city country : string)
  : dict :=
  let current_condition := choice env i conditions in
  let d1 := randint env (i + 1) 5 30 in
  let s2 := choice env (i + 2) conditions in
  let d2 := randint env (i + 3) 0 20 in
  let s3 := choice env (i + 4) conditions in
  let d3 := randint env (i + 5) 0 25 in
  let s4 := choice env (i + 6) conditions in
  let d4 := randint env (i + 7) 0 15 in
  let s5 := choice env (i + 8) conditions in
  let d5 := randint env (i + 9) 0 20 in
  let routes :=
    [ route "City Center - Airport" current_condition d1;
      route "City Center - North District" s2 d2;
      route "City Center - South District" s3 d3;
      route "City Center - East District" s4 d4;
      route "City Center - West District" s5 d5 ] in
  [ ("city", PStr city);
    ("country", PStr country);
    ("overall_traffic_level", PStr current_condition);
    ("average_delay_minutes",
     PInt ((d1 + d2 + d3 + d4 + d5) / Z.of_nat (List.length routes)));
    ("routes", PList routes);
    ("recommendation", PStr (_get_traffic_recommendation current_condition));
    ("peak_hours",
     PDict [ ("morning", PStr "07:00 - 09:00");
             ("evening", PStr "17:00 - 19:00") ]);
    ("note",
     PStr "Mock traffic data - integrate with real API for production use") ].

Definition draws : nat := 10.

(** Returns the answer, the provider afterwards and the next draw number. *)
Definition fetch_data (self : BaseProvider.t) (env : Env) (i : nat)
    (city country : string) : Res dict * BaseProvider.t * nat :=
  match BaseProvider.cache_hit self (now env) with
  | Some cached =>
      (Ok (BaseProvider.format_response "TrafficProvider" (now env) cached),
       self, i)
  | None =>
      let formatted_data := _get_mock_traffic_data env i city country in
      (Ok (BaseProvider.format_response "TrafficProvider" (now env)
             formatted_data),
       BaseProvider.store self (now env) formatted_data,
       (i + draws)%nat)
  end.

End TrafficProvider.

(* ================================================================== *)
(** * [sorted(..., key=..., reverse=True)] *)
(* ================================================================== *)

(** [sorted] is stable, also with [reverse=True]: among equal keys the
    original order is kept.  The keys are computed first, one call per
    element, and the elements are then ordered by decreasing key. *)
Fixpoint insert_desc {A : Type} (x : Dec * A) (l : list (Dec * A))
  : list (Dec * A) :=
  match l with
  | [] => [x]
  | y :: l' =>
      if dec_leb (fst y) (fst x) then x :: l else y :: insert_desc x l'
  end.

Fixpoint sort_desc {A : Type} (l : list (Dec * A)) : list (Dec * A) :=
  match l with
  | [] => []
  | x :: l' => insert_desc x (sort_desc l')
  end.

Definition sorted_reverse (key : PyVal -> Res Dec) (l : list PyVal)
  : Res (list PyVal) :=
  keys <- mapM key l ;;
  Ok (map snd (sort_desc (combine keys l))).

(* ================================================================== *)
(** * context_providers/shop_offers_provider.py *)
(* ================================================================== *)

Module ShopOffersProvider.

Definition init (api_key : option string) : BaseProvider.t :=
  BaseProvider.init api_key.

Definition categories : list string :=
  ["Groceries"; "Electronics"; "Fashion"; "Restaurants"; "Entertainment"].

(** [(datetime.now().replace(day=datetime.now().day + k)).strftime("%Y-%m-%d")]. *)
Definition valid_until (now : datetime) (k : Z) : Res string :=
  t <- replace_day now (day now + k) ;;
  Ok (strftime_ymd t).

Definition offer_dict (category store offer description valid location : string)
    (distance_km : Dec) : PyVal :=
  PDict [ ("category", PStr category);
          ("store", PStr store);
          ("offer", PStr offer);
          ("description", PStr description);
          ("valid_until", PStr valid);
          ("location", PStr location);
          ("distance_km", PFloat distance_km) ].

(** The loop over the categories: four draws per category, from draw
    number [i] on. *)
Fixpoint category_offers (env : Env) (i : nat) (city : string)
    (cats : list string) : Res (list PyVal) :=
  match cats with
  | [] => Ok []
  | category :: rest =>
      let discount := randint env i 10 50 in
      let store := category ++ " Store " ++ str_of_Z (randint env (i + 1) 1 5) in
      valid <- valid_until (now env) (randint env (i + 2) 1 7) ;;
      let distance_km := uniform_tenths env (i + 3) in
      offers <- category_offers env (i + 4) city rest ;;
      Ok (offer_dict category store
            (str_of_Z discount ++ "% OFF")
            ("Special " ++ str_of_Z discount ++ "% discount on selected items")
            valid
            (city ++ " City Center")
            distance_km :: offers)
  end.

Definition featured_offers (env : Env) (city : string) : Res (list PyVal) :=
  valid1 <- valid_until (now env) 3 ;;
  valid2 <- valid_until (now env) 2 ;;
  Ok [ offer_dict "Restaurants" "City Bistro" "Buy 1 Get 1 Free"
         "Lunch special - Buy one main course, get one free"
         valid1 (city ++ " Downtown") (mkDec 12 1);
       offer_dict "Groceries" "SuperMart" "20% OFF"
         "Weekly grocery special - 20% off on all fresh produce"
         valid2 (city ++ " Shopping District") (mkDec 25 1) ].

(** The sort key of [best_deals]:
    [float(x["offer"].replace("% OFF", "").replace("Buy 1 Get 1 Free", "50"))]. *)
Definition offer_key (x : PyVal) : Res Dec :=
  offer <- py_getitem x "offer" ;;
  match offer with
  | PStr s => py_float (replace (replace s "% OFF" "") "Buy 1 Get 1 Free" "50")
  | _ => Raise AttributeError
  end.

Definition _get_mock_shop_offers (env : Env) (i : nat) (city country : string)
  : Res dict :=
  offers <- category_offers env i city categories ;;
  featured <- featured_offers env city ;;
  best <- sorted_reverse offer_key (featured ++ offers) ;;
  Ok [ ("city", PStr city);
       ("country", PStr country);
       ("total_offers",
        PInt (Z.of_nat (List.length offers) + Z.of_nat (List.length featured)));
       ("featured_offers", PList featured);
       ("category_offers", PList offers);
       ("all_offers", PList (featured ++ offers));
       ("best_deals", PList (firstn 3 best));
       ("note",
        PStr "Mock shop offers data - integrate with real APIs for production use") ].

Definition fetch_data (self : BaseProvider.t) (env : Env) (i : nat)
    (city country : string) : Res dict * BaseProvider.t :=
  match BaseProvider.cache_hit self (now env) with
  | Some cached =>
      (Ok (BaseProvider.format_response "ShopOffersProvider" (now env) cached),
       self)
  | None =>
      match _get_mock_shop_offers env i city country with
      | Ok formatted_data =>
          (Ok (BaseProvider.format_response "ShopOffersProvider" (now env)
                 formatted_data),
           BaseProvider.store self (now env) formatted_data)
      | Raise e => (Raise e, self)
      end
  end.

End ShopOffersProvider.

(* ================================================================== *)
(** * mcp_server/server.py *)
(* ================================================================== *)

(** The providers, for the record of which [fetch_data] was called. *)
Inductive Source : Type := Weather | Traffic | Temperature | ShopOffers.

(** One call [provider.fetch_data(city, country)]. *)
Record Call : Type := mkCall {
  call_source : Source;
  call_city : string;
  call_country : string
}.

Module SmartCityMCPServer.

Record t : Type := mk {
  weather_provider : BaseProvider.t;
  traffic_provider : BaseProvider.t;
  temperature_provider : TemperatureProvider.t;
  shop_offers_provider : BaseProvider.t;
  data_cache : dict;
  cache_timestamp : option datetime;
  cache_duration : Z;
  current_city : string;
  current_country : string
}.

(** [__init__]; [getenv] is the value of [OPENWEATHER_API_KEY]. *)
Definition init (getenv : option string) : t :=
  mk (WeatherProvider.init None getenv)
     (TrafficProvider.init None)
     (TemperatureProvider.init None getenv)
     (ShopOffersProvider.init None)
     [] None 300 "London" "GB".

(** What an operation leaves behind: its value or the exception it raises,
    the server afterwards, and the provider calls it made, in order. *)
Record Outcome (A : Type) : Type := mkOutcome {
  result : Res A;
  final : t;
  calls : list Call
}.

Arguments mkOutcome {A} result final calls.
Arguments result {A} o.
Arguments final {A} o.
Arguments calls {A} o.

(** The exception [asyncio.gather] hands to the awaiting caller is the one
    of the task that fails first.  The four tasks start in the order given;
    a task that never reaches the network finishes in that first round, a
    task that does finishes later.  [results] pairs each task's answer with
    whether it reached the network. *)
Definition first_failure (results : list (Res dict * bool)) : option Exn :=
  let failure (r : Res dict * bool) : option Exn :=
    match fst r with Raise e => Some e | Ok _ => None end in
  let early := filter (fun r => negb (snd r)) results in
  let late := filter (fun r => snd r) results in
  match flat_map (fun r => match failure r with Some e => [e] | None => [] end)
          (early ++ late) with
  | e :: _ => Some e
  | [] => None
  end.

Definition fetch_all_data (self : t) (env : Env) (city country : option string)
  : Outcome dict :=
  let city := str_or city (current_city self) in
  let country := str_or country (current_country self) in
  (* the four tasks; none is cancelled when another one fails *)
  let w_late := WeatherProvider.awaits (weather_provider self) (now env) in
  let (weather_data, wp) :=
    WeatherProvider.fetch_data (weather_provider self) (now env)
      (http_weather env) city country in
  let '(traffic_data, tp, i) :=
    TrafficProvider.fetch_data (traffic_provider self) env 0 city country in
  let t_late := TemperatureProvider.awaits (temperature_provider self) (now env) in
  let (temperature_data, mp) :=
    TemperatureProvider.fetch_data (temperature_provider self) (now env)
      (http_temperature env) city country in
  let (shop_offers_data, sp) :=
    ShopOffersProvider.fetch_data (shop_offers_provider self) env i
      city country in
  let made :=
    [ mkCall Weather city country; mkCall Traffic city country;
      mkCall Temperature city country; mkCall ShopOffers city country ] in
  match weather_data, traffic_data, temperature_data, shop_offers_data with
  | Ok weather_data, Ok traffic_data, Ok temperature_data, Ok shop_offers_data =>
      let cache :=
        [ ("weather", dict_get weather_data "data" (PDict []));
          ("traffic", dict_get traffic_data "data" (PDict []));
          ("temperature", dict_get temperature_data "data" (PDict []));
          ("shop_offers", dict_get shop_offers_data "data" (PDict []));
          ("metadata",
           PDict [ ("city", PStr city);
                   ("country", PStr country);
                   ("fetched_at", PStr (isoformat (now env))) ]) ] in
      mkOutcome (Ok cache)
        (mk wp tp mp sp cache (Some (now env)) (cache_duration self)
            city country)
        made
  | _, _, _, _ =>
      let e :=
        match first_failure [ (weather_data, w_late); (traffic_data, false);
                              (temperature_data, t_late);
                              (shop_offers_data, false) ] with
        | Some e => e
        | None => ValueError
        end in
      mkOutcome (Raise e)
        (mk wp tp mp sp (data_cache self) (cache_timestamp self)
            (cache_duration self) city country)
        made
  end.

Definition is_cache_valid (self : t) (now : datetime) : bool :=
  match cache_timestamp self with
  | None => false
  | Some stamp =>
      (elapsed_lt now stamp (cache_duration self)
       && Nat.ltb 0 (List.length (data_cache self)))%bool
  end.

(** The test of [get_city_data]:
    [force_refresh or not self.is_cache_valid() or
     self.data_cache.get("metadata", {}).get("city") != city]. *)
Definition must_fetch (self : t) (now : datetime) (city : string)
    (force_refresh : bool) : Res bool :=
  if force_refresh then Ok true
  else if negb (is_cache_valid self now) then Ok true
  else
    cached_city <-
      py_get (dict_get (data_cache self) "metadata" (PDict [])) "city" PNone ;;
    Ok (py_ne_str cached_city city).

Definition get_city_data (self : t) (env : Env) (city country : option string)
    (force_refresh : bool) : Outcome dict :=
  let city := str_or city (current_city self) in
  let country := str_or country (current_country self) in
  match must_fetch self (now env) city force_refresh with
  | Raise e => mkOutcome (Raise e) self []
  | Ok true =>
      let o := fetch_all_data self env (Some city) (Some country) in
      match result o with
      | Ok _ => mkOutcome (Ok (data_cache (final o))) (final o) (calls o)
      | Raise e => mkOutcome (Raise e) (final o) (calls o)
      end
  | Ok false => mkOutcome (Ok (data_cache self)) self []
  end.

Definition weather_keywords : list string :=
  ["weather"; "rain"; "sunny"; "cloudy"; "wind"; "humidity"; "pressure"].

Definition temp_keywords : list string :=
  ["temperature"; "temp"; "hot"; "cold"; "warm"; "cool"].

Definition traffic_keywords : list string :=
  ["traffic"; "road"; "route"; "congestion"; "delay"; "commute"].

Definition shop_keywords : list string :=
  ["shop"; "store"; "offer"; "deal"; "discount"; "sale"; "buy"; "shopping"].

(** The two accumulators of [answer_query]. *)
Record Parts : Type := mkParts {
  relevant_data : dict;
  answer_parts : list string
}.

Definition weather_part (city_data : dict) (city : PyVal) (acc : Parts)
  : Res Parts :=
  let weather := dict_get city_data "weather" (PDict []) in
  let relevant := dict_set (relevant_data acc) "weather" weather in
  name <- py_get weather "city" city ;;
  description <- py_get weather "description" (PStr "N/A") ;;
  temperature <- py_get weather "temperature" (PStr "N/A") ;;
  humidity <- py_get weather "humidity" (PStr "N/A") ;;
  Ok (mkParts relevant
        (answer_parts acc ++
         [ "Weather in " ++ py_str name ++ ": " ++ py_str description ++ ", "
           ++ "Temperature: " ++ py_str temperature ++ "°C, "
           ++ "Humidity: " ++ py_str humidity ++ "%" ])).

Definition temperature_part (city_data : dict) (acc : Parts) : Res Parts :=
  let temp := dict_get city_data "temperature" (PDict []) in
  let relevant := dict_set (relevant_data acc) "temperature" temp in
  current <- py_get temp "current_temperature" (PStr "N/A") ;;
  recommendation <- py_get temp "recommendation" (PStr "") ;;
  Ok (mkParts relevant
        (answer_parts acc ++
         [ "Current temperature: " ++ py_str current ++ "°C. "
           ++ py_str recommendation ])).

Definition traffic_part (city_data : dict) (acc : Parts) : Res Parts :=
  let traffic := dict_get city_data "traffic" (PDict []) in
  let relevant := dict_set (relevant_data acc) "traffic" traffic in
  level <- py_get traffic "overall_traffic_level" (PStr "N/A") ;;
  recommendation <- py_get traffic "recommendation" (PStr "") ;;
  Ok (mkParts relevant
        (answer_parts acc ++
         [ "Traffic level: " ++ py_str level ++ ". "
           ++ py_str recommendation ])).

(** [best_deals[:3]], as the sequence the comprehension iterates over. *)
Definition first_three (best_deals : PyVal) : Res (list PyVal) :=
  match best_deals with
  | PList l => Ok (firstn 3 l)
  | PStr s => Ok (map (fun c => PStr (String c "")) (firstn 3 (list_ascii_of_string s)))
  | _ => Raise TypeError
  end.

(** [f"{deal['store']} - {deal['offer']}"]. *)
Definition deal_string (deal : PyVal) : Res string :=
  store <- py_getitem deal "store" ;;
  offer <- py_getitem deal "offer" ;;
  Ok (py_str store ++ " - " ++ py_str offer).

Definition shop_part (city_data : dict) (acc : Parts) : Res Parts :=
  let offers := dict_get city_data "shop_offers" (PDict []) in
  let relevant := dict_set (relevant_data acc) "shop_offers" offers in
  best_deals <- py_get offers "best_deals" (PList []) ;;
  if truthy best_deals then
    deals <- first_three best_deals ;;
    deal_strings <- mapM deal_string deals ;;
    Ok (mkParts relevant
          (answer_parts acc ++
           [ "Best deals available: " ++ join ", " deal_strings ]))
  else
    total <- py_get offers "total_offers" (PInt 0) ;;
    Ok (mkParts relevant
          (answer_parts acc ++
           [ "Found " ++ py_str total ++ " offers available in the city." ])).

Definition general_part (city_data : dict) (city : PyVal) : Res Parts :=
  let weather := dict_get city_data "weather" (PDict []) in
  let traffic := dict_get city_data "traffic" (PDict []) in
  let temp := dict_get city_data "temperature" (PDict []) in
  let offers := dict_get city_data "shop_offers" (PDict []) in
  name <- py_get (dict_get city_data "metadata" (PDict [])) "city" city ;;
  description <- py_get weather "description" (PStr "N/A") ;;
  current <- py_get temp "current_temperature" (PStr "N/A") ;;
  level <- py_get traffic "overall_traffic_level" (PStr "N/A") ;;
  total <- py_get offers "total_offers" (PInt 0) ;;
  Ok (mkParts city_data
        [ "City conditions for " ++ py_str name ++ ": "
          ++ "Weather: " ++ py_str description ++ ", "
          ++ "Temperature: " ++ py_str current ++ "°C, "
          ++ "Traffic: " ++ py_str level ++ ", "
          ++ "Available offers: " ++ py_str total ]).

(** One keyword-gated block of [answer_query]. *)
Definition when_matched (keywords : list string) (query_lower : string)
    (part : Parts -> Res Parts) (acc : Parts) : Res Parts :=
  if any_keyword_in keywords query_lower then part acc else Ok acc.

(** Lines 129 to 195 of [answer_query]: the relevant data and the answer
    parts built from the city data. *)
Definition collect_parts (city_data : dict) (query : string) (city : PyVal)
  : Res Parts :=
  let query_lower := lower query in
  acc <- when_matched weather_keywords query_lower
           (weather_part city_data city) (mkParts [] []) ;;
  acc <- when_matched temp_keywords query_lower
           (temperature_part city_data) acc ;;
  acc <- when_matched traffic_keywords query_lower
           (traffic_part city_data) acc ;;
  acc <- when_matched shop_keywords query_lower
           (shop_part city_data) acc ;;
  match answer_parts acc with
  | [] => general_part city_data city
  | _ => Ok acc
  end.

(** The rest of [answer_query] once the city data are at hand. *)
Definition answer_from (city_data : dict) (now : datetime) (query : string)
    (city country : option string) : Res dict :=
  acc <- collect_parts city_data query (py_of_opt_str city) ;;
  let answer :=
    match answer_parts acc with
    | [] => "I couldn't find specific information for your query."
    | parts => join " " parts
    end in
  let metadata := dict_get city_data "metadata" (PDict []) in
  city' <- py_get metadata "city" (py_of_opt_str city) ;;
  country' <- py_get metadata "country" (py_of_opt_str country) ;;
  Ok [ ("query", PStr query);
       ("answer", PStr answer);
       ("relevant_data", PDict (relevant_data acc));
       ("timestamp", PStr (isoformat now));
       ("city", city');
       ("country", country') ].

Definition answer_query (self : t) (env : Env) (query : string)
    (city country : option string) : Outcome dict :=
  let o := get_city_data self env city country false in
  match result o with
  | Ok city_data =>
      mkOutcome (answer_from city_data (now env) query city country)
        (final o) (calls o)
  | Raise e => mkOutcome (Raise e) (final o) (calls o)
  end.

End SmartCityMCPServer.

(* ================================================================== *)
(** * Vocabulary of the properties *)
(* ================================================================== *)

Import SmartCityMCPServer.

(** The server states that the public operations can produce. *)
Inductive reachable : SmartCityMCPServer.t -> Prop :=
| reach_init : forall getenv, reachable (init getenv)
| reach_fetch_all_data : forall s env city country,
    reachable s -> reachable (final (fetch_all_data s env city country))
| reach_get_city_data : forall s env city country force_refresh,
    reachable s ->
    reachable (final (get_city_data s env city country force_refresh))
| reach_answer_query : forall s env query city country,
    reachable s -> reachable (final (answer_query s env query city country)).

(** The calls of one full refresh for [(city, country)]. *)
Definition refresh_calls (city country : string) : list Call :=
  [ mkCall Weather city country; mkCall Traffic city country;
    mkCall Temperature city country; mkCall ShopOffers city country ].

(** A field of the [metadata] of the cached snapshot. *)
Definition cached_meta (d : dict) (k : string) : option PyVal :=
  match lookup "metadata" d with
  | Some (PDict m) => lookup k m
  | _ => None
  end.

(** A field of one fragment of a snapshot. *)
Definition fragment_field (d : dict) (fragment k : string) : option PyVal :=
  match lookup fragment d with
  | Some (PDict f) => lookup k f
  | _ => None
  end.

(** Age of the cached snapshot at [now], in microseconds. *)
Definition age_us (now stamp : datetime) : Z := micros now - micros stamp.

Definition ttl_us : Z := 300 * 1000000.

(** The snapshot is younger than the TTL. *)
Definition fresh (s : SmartCityMCPServer.t) (now : datetime) : Prop :=
  exists stamp, cache_timestamp s = Some stamp /\ age_us now stamp < ttl_us.

(** The freshness predicate in the words of the specification: a snapshot
    exists, its age is below the TTL, and the cached city and the cached
    country are the requested ones. *)
Definition spec_valid (s : SmartCityMCPServer.t) (now : datetime)
    (city country : string) : Prop :=
  data_cache s <> [] /\ fresh s now /\
  cached_meta (data_cache s) "city" = Some (PStr city) /\
  cached_meta (data_cache s) "country" = Some (PStr country).

(** The freshness predicate the code applies: the same without the
    country. *)
Definition city_valid (s : SmartCityMCPServer.t) (now : datetime)
    (city : string) : Prop :=
  data_cache s <> [] /\ fresh s now /\
  cached_meta (data_cache s) "city" = Some (PStr city).

(** The shape of what [fetch_all_data] stores. *)
Definition snapshot (weather traffic temperature shop_offers : PyVal)
    (city country fetched_at : string) : dict :=
  [ ("weather", weather);
    ("traffic", traffic);
    ("temperature", temperature);
    ("shop_offers", shop_offers);
    ("metadata",
     PDict [ ("city", PStr city);
             ("country", PStr country);
             ("fetched_at", PStr fetched_at) ]) ].

(** The topical categories of the specification. *)
Inductive Category : Type :=
| CWeather | CTemperature | CTraffic | CShopping | CGeneral.

(** The keyword sets as the specification lists them. *)
Definition spec_keywords (c : Category) : list string :=
  match c with
  | CWeather =>
      ["weather"; "rain"; "sunny"; "cloudy"; "wind"; "humidity"; "pressure"]
  | CTemperature => ["temperature"; "temp"; "hot"; "cold"; "warm"; "cool"]
  | CTraffic => ["traffic"; "road"; "route"; "congestion"; "delay"; "commute"]
  | CShopping =>
      ["shop"; "store"; "offer"; "deal"; "discount"; "sale"; "buy"; "shopping"]
  | CGeneral => []
  end.

(** Some keyword of the category occurs in the lower-cased query. *)
Definition spec_matches (query : string) (c : Category) : bool :=
  existsb (fun k => str_in k (lower query)) (spec_keywords c).

(** The classifier in the words of the specification: every matching
    category in the fixed order, or the single general category. *)
Definition spec_classify (query : string) : list Category :=
  match filter (spec_matches query)
          [CWeather; CTemperature; CTraffic; CShopping] with
  | [] => [CGeneral]
  | matched => matched
  end.

(** The key under which a category's fragment is stored. *)
Definition fragment_key (c : Category) : string :=
  match c with
  | CWeather => "weather"
  | CTemperature => "temperature"
  | CTraffic => "traffic"
  | CShopping => "shop_offers"
  | CGeneral => ""
  end.

(** The two components of an answer that composition determines. *)
Definition answer_and_data (r : Res dict) : Res (PyVal * PyVal) :=
  d <- r ;;
  Ok (dict_get d "answer" PNone, dict_get d "relevant_data" PNone).

(** Decreasing keys along a list. *)
Fixpoint descending (keys : list Dec) : Prop :=
  match keys with
  | [] => True
  | k :: rest =>
      (match rest with [] => True | k' :: _ => dec_leb k' k = true end)
      /\ descending rest
  end.

(** No provider would answer from its own cache at [now]. *)
Definition providers_stale (s : SmartCityMCPServer.t) (now : datetime) : Prop :=
  BaseProvider.cache_hit (weather_provider s) now = None /\
  BaseProvider.cache_hit (traffic_provider s) now = None /\
  BaseProvider.cache_hit
    (TemperatureProvider.base (temperature_provider s)) now = None /\
  BaseProvider.cache_hit
    (TemperatureProvider.weather_provider (temperature_provider s)) now = None /\
  BaseProvider.cache_hit (shop_offers_provider s) now = None.

(** A provider object that has never fetched, with the same API key. *)
Definition unused (p : BaseProvider.t) : BaseProvider.t :=
  BaseProvider.init (BaseProvider.api_key p).

(* ------------------------------------------------------------------ *)
(** ** Concrete scenarios *)
(* ------------------------------------------------------------------ *)

Definition draws_a (n : nat) : nat := (7 * n + 3)%nat.
Definition draws_b (n : nat) : nat := (5 * n + 1)%nat.

(** 10 January 2026, noon; no API key is configured. *)
Definition noon : datetime := mkDatetime 2026 1 10 12 0 0 0.
Definition noon_10s : datetime := mkDatetime 2026 1 10 12 0 10 0.
Definition noon_300s : datetime := mkDatetime 2026 1 10 12 5 0 0.

Definition env_noon : Env :=
  mkEnv noon draws_a (Raise HTTPError) (Raise HTTPError).
Definition env_noon_10s : Env :=
  mkEnv noon_10s draws_b (Raise HTTPError) (Raise HTTPError).
Definition env_noon_300s : Env :=
  mkEnv noon_300s draws_b (Raise HTTPError) (Raise HTTPError).

(** 30 January 2026, noon. *)
Definition month_end : datetime := mkDatetime 2026 1 30 12 0 0 0.
Definition env_month_end : Env :=
  mkEnv month_end draws_a (Raise HTTPError) (Raise HTTPError).

(** A server that has refreshed once, for London, at noon. *)
Definition server_london : SmartCityMCPServer.t :=
  final (fetch_all_data (init None) env_noon (Some "London") (Some "GB")).

(** The answers of the four tasks of one refresh of [s] for
    [(city, country)], as [fetch_all_data] obtains them. *)
Definition weather_answer (s : SmartCityMCPServer.t) (env : Env)
    (city country : string) : Res dict :=
  fst (WeatherProvider.fetch_data (weather_provider s) (now env)
         (http_weather env) city country).

Definition traffic_answer (s : SmartCityMCPServer.t) (env : Env)
    (city country : string) : Res dict :=
  fst (fst (TrafficProvider.fetch_data (traffic_provider s) env 0
              city country)).

Definition temperature_answer (s : SmartCityMCPServer.t) (env : Env)
    (city country : string) : Res dict :=
  fst (TemperatureProvider.fetch_data (temperature_provider s) (now env)
         (http_temperature env) city country).

Definition shop_offers_answer (s : SmartCityMCPServer.t) (env : Env)
    (city country : string) : Res dict :=
  fst (ShopOffersProvider.fetch_data (shop_offers_provider s) env
         (snd (TrafficProvider.fetch_data (traffic_provider s) env 0
                 city country))
         city country).

Definition source_answers (s : SmartCityMCPServer.t) (env : Env)
    (city country : string) : list (Res dict) :=
  [ weather_answer s env city country;
    traffic_answer s env city country;
    temperature_answer s env city country;
    shop_offers_answer s env city country ].

(** The payload of a provider answer, as [fetch_all_data] extracts it. *)
Definition payload (answer : dict) : PyVal := dict_get answer "data" (PDict []).

(** A fragment that carries a [city] field. *)
Definition named (v : PyVal) : Prop :=
  exists d, v = PDict d /\ has_key "city" d = true.

(** The weather provider caches only payloads that carry a [city]. *)
Definition weather_cache_named (p : BaseProvider.t) : Prop :=
  forall d, BaseProvider.cached_data p = Some d -> has_key "city" d = true.


(** An answer of the weather service that carries no temperature. *)
Definition answer_without_temp : OWResponse :=
  mkOWResponse (Some "London") (Some "GB") None None (Some (NInt 70))
    (Some (NInt 1009)) (Some [mkOWCondition (Some "light rain") (Some "Rain")])
    (Some (NFloat (mkDec 41 1))) (Some (NInt 200)) (Some (NInt 9000))
    (Some (NInt 90)).

Definition env_no_temp : Env :=
  mkEnv noon draws_a (Ok answer_without_temp) (Ok answer_without_temp).

(** The relevant data the specification asks for: the fragment of every
    matched category, in order. *)
Definition routed (city_data : dict) (cats : list Category) : dict :=
  map (fun c => (fragment_key c,
                 dict_get city_data (fragment_key c) (PDict []))) cats.

(** The keys of the [relevant_data] of an answer. *)
Definition relevant_keys (r : Res dict) : option (list string) :=
  match r with
  | Ok d => match lookup "relevant_data" d with
            | Some (PDict rd) => Some (map fst rd)
            | _ => None
            end
  | Raise _ => None
  end.

Definition four_categories : list Category :=
  [CWeather; CTemperature; CTraffic; CShopping].

(** The order of the sort: the key of [y] is at most the key of [x]. *)
Definition key_ge {A : Type} (x y : Dec * A) : Prop :=
  dec_leb (fst y) (fst x) = true.

(** An offer as the shop-offers provider builds them: a dictionary of the
    seven offer fields whose offer text is the two-for-one text or a
    percentage between 10 and 50. *)
Definition generated_offer (x : PyVal) : Prop :=
  exists category store offer description valid location distance_km,
    x = ShopOffersProvider.offer_dict category store offer description valid
          location distance_km /\
    (offer = "Buy 1 Get 1 Free" \/
     exists n, 10 <= n <= 50 /\ offer = str_of_Z n ++ "% OFF").

(** The sentence part of one deal, read off its fields. *)
Definition store_dash_offer (deal : PyVal) (sentence : string) : Prop :=
  exists store offer,
    py_getitem deal "store" = Ok (PStr store) /\
    py_getitem deal "offer" = Ok (PStr offer) /\
    sentence = store ++ " - " ++ offer.

(** The shop-offers fragment generated for London at noon, after the ten
    draws of the traffic provider. *)
Definition london_offers : dict :=
  match ShopOffersProvider._get_mock_shop_offers env_noon TrafficProvider.draws
          "London" "GB" with
  | Ok d => d
  | Raise _ => []
  end.

Definition is_dict (v : PyVal) : Prop := exists d, v = PDict d.

(** The best deals of a shop-offers payload are offers built by the
    provider. *)
Definition deals_ok (d : dict) : Prop :=
  exists deals,
    dict_get d "best_deals" (PList []) = PList deals /\
    Forall generated_offer deals.

(** The shop-offers provider caches only payloads it has built. *)
Definition shop_cache_ok (p : BaseProvider.t) : Prop :=
  forall d, BaseProvider.cached_data p = Some d -> deals_ok d.

(** What holds of the cache in every reachable server. *)
Definition cache_wf (s : SmartCityMCPServer.t) : Prop :=
  cache_duration s = 300 /\
  ((data_cache s = [] /\ cache_timestamp s = None) \/
   (exists w tr te sh c k f stamp,
      data_cache s = snapshot w tr te sh c k f /\
      cache_timestamp s = Some stamp /\ named w /\
      is_dict tr /\ is_dict te /\ (exists d, sh = PDict d /\ deals_ok d))) /\
  weather_cache_named (weather_provider s) /\
  shop_cache_ok (shop_offers_provider s).

(* ================================================================== *)
(** * mcp_server/server.py: the context summary *)
(* ================================================================== *)

(** [key in d] on a dictionary. *)
Definition dict_in (k : string) (d : dict) : bool := has_key k d.

(** [SmartCityMCPServer.get_context_summary]; [now] is the clock reading
    of its [is_cache_valid] call. *)
Definition get_context_summary (self : SmartCityMCPServer.t) (now : datetime)
  : Res dict :=
  match data_cache self with
  | [] =>
      Ok [ ("status", PStr "no_data");
           ("message", PStr "No city data has been fetched yet.") ]
  | _ =>
      let metadata := dict_get (data_cache self) "metadata" (PDict []) in
      city <- py_get metadata "city" PNone ;;
      country <- py_get metadata "country" PNone ;;
      fetched_at <- py_get metadata "fetched_at" PNone ;;
      Ok [ ("status", PStr "data_available");
           ("city", city);
           ("country", country);
           ("fetched_at", fetched_at);
           ("cache_valid", PBool (is_cache_valid self now));
           ("available_data",
            PDict [ ("weather", PBool (dict_in "weather" (data_cache self)));
                    ("traffic", PBool (dict_in "traffic" (data_cache self)));
                    ("temperature",
                     PBool (dict_in "temperature" (data_cache self)));
                    ("shop_offers",
                     PBool (dict_in "shop_offers" (data_cache self))) ]) ]
  end.

(* ------------------------------------------------------------------ *)
(** ** Further vocabulary *)
(* ------------------------------------------------------------------ *)

(** The summary of a server that holds a snapshot. *)
Definition summary_of (city country fetched_at : string) (valid : bool) : dict :=
  [ ("status", PStr "data_available");
    ("city", PStr city);
    ("country", PStr country);
    ("fetched_at", PStr fetched_at);
    ("cache_valid", PBool valid);
    ("available_data",
     PDict [ ("weather", PBool true); ("traffic", PBool true);
             ("temperature", PBool true); ("shop_offers", PBool true) ]) ].

(** A provider without a usable API key that holds no cached payload. *)
Definition keyless (p : BaseProvider.t) : Prop :=
  opt_truthy (BaseProvider.api_key p) = false /\
  BaseProvider.cached_data p = None.

(** The server runs on mock weather: neither weather provider has a key or
    a cached payload. *)
Definition mock_mode (s : SmartCityMCPServer.t) : Prop :=
  keyless (weather_provider s) /\
  keyless (TemperatureProvider.weather_provider (temperature_provider s)).

(** A provider call names a city and a country. *)
Definition call_named (c : Call) : Prop :=
  call_city c <> "" /\ call_country c <> "".

(** The fixed sentence [answer_query] falls back to when no answer part was
    built. *)
Definition fallback_answer : string :=
  "I couldn't find specific information for your query.".

(** The canonical field names of a weather payload built from a service
    answer. *)
Definition weather_fields : list string :=
  [ "city"; "country"; "temperature"; "feels_like"; "humidity"; "pressure";
    "description"; "main_condition"; "wind_speed"; "wind_direction";
    "visibility"; "cloudiness" ].

(** The sentences of [_get_temperature_recommendation]. *)
Definition rec_very_cold : string :=
  "Very cold! Dress warmly with multiple layers.".
Definition rec_cold : string := "Cold weather. Wear a warm jacket.".
Definition rec_cool : string :=
  "Cool weather. A light jacket would be comfortable.".
Definition rec_pleasant : string :=
  "Pleasant temperature. Light clothing is recommended.".
Definition rec_warm : string := "Warm weather. Light and breathable clothing.".
Definition rec_hot : string :=
  "Hot weather! Stay hydrated and wear light, loose clothing.".

(** 28 January 2026, one minute to midnight, and two minutes later. *)
Definition late_28 : datetime := mkDatetime 2026 1 28 23 59 0 0.
Definition early_29 : datetime := mkDatetime 2026 1 29 0 1 0 0.
Definition env_late_28 : Env :=
  mkEnv late_28 (fun _ => O) (Raise HTTPError) (Raise HTTPError).
Definition env_early_29 : Env :=
  mkEnv early_29 draws_b (Raise HTTPError) (Raise HTTPError).

(** A complete answer of the weather service. *)
Definition answer_paris : OWResponse :=
  mkOWResponse (Some "Paris") (Some "FR") (Some (NFloat (mkDec 213 1)))
    (Some (NFloat (mkDec 207 1))) (Some (NInt 55)) (Some (NInt 1015))
    (Some [mkOWCondition (Some "clear sky") (Some "Clear")])
    (Some (NFloat (mkDec 62 1))) (Some (NInt 90)) (Some (NInt 10000))
    (Some (NInt 5)).

(** A sentence that does not begin like the fallback answer. *)
Definition not_fallback_start (s : string) : Prop :=
  exists c rest, s = String c rest /\ c <> "I"%char.

(** The keyword lists without the two keywords that contain another
    keyword of their list. *)
Definition temp_keywords_short : list string :=
  ["temp"; "hot"; "cold"; "warm"; "cool"].
Definition shop_keywords_short : list string :=
  ["shop"; "store"; "offer"; "deal"; "discount"; "sale"; "buy"].

(* ------------------------------------------------------------------ *)
(** ** Matching without regard to case, in the words of the specification *)
(* ------------------------------------------------------------------ *)

(** The capital letters, each with its small letter. *)
Definition letter_pairs : list (ascii * ascii) :=
  combine (list_ascii_of_string "ABCDEFGHIJKLMNOPQRSTUVWXYZ")
          (list_ascii_of_string "abcdefghijklmnopqrstuvwxyz").

Definition is_capital (c : ascii) : bool :=
  existsb (fun p => Ascii.eqb c (fst p)) letter_pairs.

(** The small letter of a capital; any other character is left as it is. *)
Definition small_letter (c : ascii) : ascii :=
  match find (fun p => Ascii.eqb c (fst p)) letter_pairs with
  | Some p => snd p
  | None => c
  end.

(** The same character up to the case of a letter. *)
Definition same_letter (a b : ascii) : bool :=
  (Ascii.eqb a b
   || existsb (fun p => (Ascii.eqb a (fst p) && Ascii.eqb b (snd p))
                        || (Ascii.eqb a (snd p) && Ascii.eqb b (fst p)))
        letter_pairs)%bool.

(** The same text up to the case of its letters. *)
Fixpoint same_text (s t : string) : bool :=
  match s, t with
  | EmptyString, EmptyString => true
  | String a s', String b t' => (same_letter a b && same_text s' t')%bool
  | _, _ => false
  end.

Definition has_capital (s : string) : bool :=
  existsb is_capital (list_ascii_of_string s).

(** [k] starts [s], up to case. *)
Fixpoint prefix_ignoring_case (k s : string) : bool :=
  match k, s with
  | EmptyString, _ => true
  | String a k', String b s' =>
      (same_letter a b && prefix_ignoring_case k' s')%bool
  | String _ _, EmptyString => false
  end.

(** [k] occurs in [s] as a contiguous substring, up to case. *)
Fixpoint occurs_ignoring_case (k s : string) : bool :=
  if prefix_ignoring_case k s then true
  else match s with
       | EmptyString => false
       | String _ s' => occurs_ignoring_case k s'
       end.

(** Some keyword of the category occurs in the query, whatever the case of
    the query's letters. *)
Definition spec_matches_ignoring_case (query : string) (c : Category) : bool :=
  existsb (fun k => occurs_ignoring_case k query) (spec_keywords c).

(** The 256 characters. *)
Definition all_ascii : list ascii := map ascii_of_nat (seq 0 256).

(* ------------------------------------------------------------------ *)
(** ** The discount of an offer, in the words of the specification *)
(* ------------------------------------------------------------------ *)

(** The discount magnitude read off an offer text: [n] for "n% OFF" with a
    percentage [n] from 0 to 100, and 50 for the two-for-one offer. *)
Definition spec_discount (offer : string) : option Z :=
  if String.eqb offer "Buy 1 Get 1 Free" then Some 50
  else find (fun n => String.eqb offer (str_of_Z n ++ "% OFF"))
         (map Z.of_nat (seq 0 101)).

(** The discount magnitude of an offer dictionary. *)
Definition discount_of (x : PyVal) : option Z :=
  match py_getitem x "offer" with
  | Ok (PStr offer) => spec_discount offer
  | _ => None
  end.

(** Decreasing discounts along a list. *)
Fixpoint descending_discounts (l : list Z) : Prop :=
  match l with
  | [] => True
  | n :: rest =>
      (match rest with [] => True | n' :: _ => n' <= n end)
      /\ descending_discounts rest
  end.

(** The discounts of the offers listed under [field] of a shop-offers
    fragment. *)
Definition listed_discounts (d : dict) (field : string) : list (option Z) :=
  match lookup field d with
  | Some (PList offers) => map discount_of offers
  | _ => []
  end.

(* ================================================================== *)
(** * The refresh: [fetch_all_data] *)
(* ================================================================== *)

Ltac run_tasks :=
  unfold fetch_all_data;
  destruct (WeatherProvider.fetch_data _ _ _ _ _) as [rw wp];
  destruct (TrafficProvider.fetch_data _ _ _ _ _) as [[rt tp] i];
  destruct (TemperatureProvider.fetch_data _ _ _ _ _) as [rte mp];
  destruct (ShopOffersProvider.fetch_data _ _ _ _ _) as [rs sp].

Ltac outcome_fields :=
  cbn [result final calls data_cache cache_timestamp cache_duration
       current_city current_country weather_provider shop_offers_provider
       raised fst snd].

Lemma source_answers_cases s env c k :
  (exists w tr te sh, source_answers s env c k = [Ok w; Ok tr; Ok te; Ok sh])
  \/ existsb raised (source_answers s env c k) = true.
Proof.
  unfold source_answers.
  destruct (weather_answer s env c k); [|right; reflexivity].
  destruct (traffic_answer s env c k); [|right; reflexivity].
  destruct (temperature_answer s env c k); [|right; reflexivity].
  destruct (shop_offers_answer s env c k); [|right; reflexivity].
  left. eauto.
Qed.

Lemma fetch_all_data_success s env city country w tr te sh :
  let c := str_or city (current_city s) in
  let k := str_or country (current_country s) in
  source_answers s env c k = [Ok w; Ok tr; Ok te; Ok sh] ->
  let o := fetch_all_data s env city country in
  let snap := snapshot (payload w) (payload tr) (payload te) (payload sh)
                c k (isoformat (now env)) in
  result o = Ok snap /\
  data_cache (final o) = snap /\
  cache_timestamp (final o) = Some (now env).
Proof.
  intros c k H o snap. subst o snap c k.
  unfold source_answers, weather_answer, traffic_answer, temperature_answer,
    shop_offers_answer in H.
  run_tasks. simpl in H. injection H as -> -> -> ->.
  outcome_fields. repeat split; reflexivity.
Qed.

Lemma fetch_all_data_failure s env city country :
  let c := str_or city (current_city s) in
  let k := str_or country (current_country s) in
  existsb raised (source_answers s env c k) = true ->
  let o := fetch_all_data s env city country in
  raised (result o) = true /\
  data_cache (final o) = data_cache s /\
  cache_timestamp (final o) = cache_timestamp s.
Proof.
  intros c k H o. subst o c k.
  unfold source_answers, weather_answer, traffic_answer, temperature_answer,
    shop_offers_answer in H.
  run_tasks. simpl in H.
  destruct rw, rt, rte, rs; simpl in H; try discriminate H;
    outcome_fields; repeat split; reflexivity.
Qed.

(** Whatever the outcome, the refresh records the requested context,
    calls every provider once, keeps the TTL and leaves the weather
    provider as its own [fetch_data] left it. *)
Lemma fetch_all_data_frame s env city country :
  let c := str_or city (current_city s) in
  let k := str_or country (current_country s) in
  let o := fetch_all_data s env city country in
  current_city (final o) = c /\
  current_country (final o) = k /\
  calls o = refresh_calls c k /\
  cache_duration (final o) = cache_duration s /\
  weather_provider (final o) =
    snd (WeatherProvider.fetch_data (weather_provider s) (now env)
           (http_weather env) c k) /\
  shop_offers_provider (final o) =
    snd (ShopOffersProvider.fetch_data (shop_offers_provider s) env
           (snd (TrafficProvider.fetch_data (traffic_provider s) env 0 c k))
           c k).
Proof.
  intros c k o. subst o c k. run_tasks.
  destruct rw, rt, rte, rs; outcome_fields; repeat split; reflexivity.
Qed.

Lemma str_or_idem a b : str_or (Some (str_or a b)) b = str_or a b.
Proof.
  destruct a as [x|]; simpl.
  - destruct (String.eqb x "") eqn:E; simpl.
    + destruct (String.eqb b ""); reflexivity.
    + rewrite E. reflexivity.
  - destruct (String.eqb b ""); reflexivity.
Qed.

(* ================================================================== *)
(** * The weather provider never raises *)
(* ================================================================== *)

Lemma weather_fetch_ok p now http city country :
  exists w, fst (WeatherProvider.fetch_data p now http city country) = Ok w.
Proof.
  unfold WeatherProvider.fetch_data.
  destruct (BaseProvider.cache_hit p now); [simpl; eauto|].
  destruct (opt_truthy (BaseProvider.api_key p)); cbn [negb]; [|simpl; eauto].
  destruct (@bind OWResponse dict http _); simpl; eauto.
Qed.

Lemma weather_fetch_named p now http city country :
  weather_cache_named p ->
  (forall w, fst (WeatherProvider.fetch_data p now http city country) = Ok w ->
             named (payload w)) /\
  weather_cache_named
    (snd (WeatherProvider.fetch_data p now http city country)).
Proof.
  intros Hp. unfold WeatherProvider.fetch_data.
  destruct (BaseProvider.cache_hit p now) as [cached|] eqn:Hit.
  - split; [|exact Hp]. simpl. intros w [= <-].
    exists cached. split; [reflexivity|]. apply Hp.
    unfold BaseProvider.cache_hit in Hit.
    destruct (BaseProvider.is_cache_valid p now); [|discriminate].
    destruct (BaseProvider.cached_data p) as [[|kv d]|]; try discriminate.
    injection Hit as <-. reflexivity.
  - destruct (opt_truthy (BaseProvider.api_key p)); cbn [negb].
    2:{ split; [|exact Hp]. simpl. intros w [= <-]. eexists. split; reflexivity. }
    + destruct (@bind OWResponse dict http _) as [formatted|e] eqn:B.
      * assert (has_key "city" formatted = true) as Hc.
        { destruct http as [data|]; [|discriminate B]. simpl in B.
          unfold WeatherProvider.format_data in B.
          destruct (WeatherProvider.first_condition data); [|discriminate B].
          simpl in B. injection B as <-. reflexivity. }
        split.
        -- simpl. intros w [= <-]. exists formatted. split; [reflexivity|exact Hc].
        -- intros d. simpl. intros [= <-]. exact Hc.
      * split; [|exact Hp]. simpl. intros w [= <-].
        eexists. split; reflexivity.
Qed.

(* ================================================================== *)
(** * Provider answers carry a dictionary payload *)
(* ================================================================== *)

Lemma traffic_payload_dict p env i city country tr :
  fst (fst (TrafficProvider.fetch_data p env i city country)) = Ok tr ->
  is_dict (payload tr).
Proof.
  unfold TrafficProvider.fetch_data.
  destruct (BaseProvider.cache_hit p (now env)); cbn [fst];
    intros [= <-]; eexists; reflexivity.
Qed.

Lemma temperature_payload_dict p now http city country te :
  fst (TemperatureProvider.fetch_data p now http city country) = Ok te ->
  is_dict (payload te).
Proof.
  unfold TemperatureProvider.fetch_data.
  destruct (BaseProvider.cache_hit (TemperatureProvider.base p) now).
  - cbn [fst]. intros [= <-]. eexists. reflexivity.
  - destruct (WeatherProvider.fetch_data _ _ _ _ _) as [answer inner].
    destruct (bind answer _); cbn [fst]; [|discriminate].
    intros [= <-]. eexists. reflexivity.
Qed.

Lemma cache_hit_cached p now d :
  BaseProvider.cache_hit p now = Some d -> BaseProvider.cached_data p = Some d.
Proof.
  unfold BaseProvider.cache_hit.
  destruct (BaseProvider.is_cache_valid p now); [|discriminate].
  destruct (BaseProvider.cached_data p) as [[|kv d']|]; try discriminate.
  intros [= <-]. reflexivity.
Qed.

(* ================================================================== *)
(** * The descending stable sort *)
(* ================================================================== *)

Lemma pow10_pos (e : nat) : 0 < 10 ^ Z.of_nat e.
Proof. apply Z.pow_pos_nonneg; lia. Qed.

Lemma dec_leb_total a b : dec_leb a b = false -> dec_leb b a = true.
Proof.
  unfold dec_leb, dec_align. rewrite Z.leb_gt, Z.leb_le. lia.
Qed.

Lemma dec_leb_trans a b c :
  dec_leb a b = true -> dec_leb b c = true -> dec_leb a c = true.
Proof.
  unfold dec_leb, dec_align. rewrite !Z.leb_le.
  destruct a as [ma ea], b as [mb eb], c as [mc ec]. cbn [mant expo].
  pose proof (pow10_pos ea) as Pa. pose proof (pow10_pos eb) as Pb.
  pose proof (pow10_pos ec) as Pc.
  intros Hab Hbc.
  apply (Z.mul_le_mono_pos_r _ _ (10 ^ Z.of_nat eb)); [assumption|].
  apply Z.le_trans with (mb * 10 ^ Z.of_nat ea * 10 ^ Z.of_nat ec).
  - apply (Z.mul_le_mono_nonneg_r _ _ (10 ^ Z.of_nat ec)) in Hab; lia.
  - apply (Z.mul_le_mono_nonneg_r _ _ (10 ^ Z.of_nat ea)) in Hbc; lia.
Qed.

Lemma in_firstn {A : Type} (n : nat) (l : list A) (x : A) :
  In x (firstn n l) -> In x l.
Proof.
  intros H. rewrite <- (firstn_skipn n l). apply in_or_app. left. exact H.
Qed.

Lemma in_skipn {A : Type} (n : nat) (l : list A) (x : A) :
  In x (skipn n l) -> In x l.
Proof.
  intros H. rewrite <- (firstn_skipn n l). apply in_or_app. right. exact H.
Qed.

Section SortDesc.

Context {A : Type}.

Implicit Types (x y : Dec * A) (l : list (Dec * A)).

Lemma insert_desc_perm x l : Permutation (x :: l) (insert_desc x l).
Proof.
  induction l as [|y l IH]; simpl; [reflexivity|].
  destruct (dec_leb (fst y) (fst x)); [reflexivity|].
  rewrite perm_swap. apply perm_skip, IH.
Qed.

Lemma sort_desc_perm l : Permutation l (sort_desc l).
Proof.
  induction l as [|x l IH]; simpl; [reflexivity|].
  rewrite <- insert_desc_perm. apply perm_skip, IH.
Qed.

Lemma key_ge_trans x y z : key_ge x y -> key_ge y z -> key_ge x z.
Proof. unfold key_ge. intros H1 H2. exact (dec_leb_trans _ _ _ H2 H1). Qed.

Lemma insert_desc_sorted x l :
  StronglySorted key_ge l -> StronglySorted key_ge (insert_desc x l).
Proof.
  induction 1 as [|y l S IH F]; simpl.
  - constructor; constructor.
  - destruct (dec_leb (fst y) (fst x)) eqn:E.
    + constructor; [constructor; assumption|].
      constructor; [exact E|].
      eapply Forall_impl; [|exact F]. intros z Hz.
      exact (key_ge_trans x y z E Hz).
    + constructor; [exact IH|].
      apply (Permutation_Forall (insert_desc_perm x l)).
      constructor; [apply dec_leb_total, E | exact F].
Qed.

Lemma sort_desc_sorted l : StronglySorted key_ge (sort_desc l).
Proof.
  induction l as [|x l IH]; simpl; [constructor|].
  apply insert_desc_sorted, IH.
Qed.

(** In a sorted list, nothing after the first [n] elements has a larger key
    than one of them. *)
Lemma sorted_firstn_skipn n l :
  StronglySorted key_ge l ->
  forall x y, In x (firstn n l) -> In y (skipn n l) -> key_ge x y.
Proof.
  intros S. revert n. induction S as [|z l S IH F]; intros n x y Hx Hy.
  - destruct n; destruct Hx.
  - destruct n as [|n]; [destruct Hx|].
    simpl in Hx, Hy. destruct Hx as [<- | Hx].
    + rewrite Forall_forall in F. apply F.
      apply (in_skipn _ _ _ Hy).
    + exact (IH n x y Hx Hy).
Qed.

Lemma sorted_descending l :
  StronglySorted key_ge l -> descending (map fst l).
Proof.
  induction 1 as [|x l S IH F]; simpl; [exact I|].
  split; [|exact IH].
  destruct l as [|y l]; simpl; [exact I|].
  inversion F; assumption.
Qed.

Lemma sorted_firstn n l :
  StronglySorted key_ge l -> StronglySorted key_ge (firstn n l).
Proof.
  intros S. revert n. induction S as [|x l S IH F]; intros [|n]; simpl;
    try constructor.
  - apply IH.
  - rewrite Forall_forall in *. intros y Hy. apply F.
    apply (in_firstn _ _ _ Hy).
Qed.

End SortDesc.

(* ================================================================== *)
(** * Keys computed element by element *)
(* ================================================================== *)

Section Keys.

Context {A : Type} (key : A -> Res Dec).

Lemma mapM_length (l : list A) keys :
  mapM key l = Ok keys -> List.length keys = List.length l.
Proof.
  revert keys. induction l as [|x l IH]; simpl; intros keys H.
  - injection H as <-. reflexivity.
  - destruct (key x); [|discriminate H]. cbn [bind] in H.
    destruct (mapM key l); [|discriminate H]. cbn [bind] in H.
    injection H as <-. simpl. f_equal. apply IH. reflexivity.
Qed.

Lemma mapM_combine (l : list A) keys :
  mapM key l = Ok keys ->
  forall p, In p (combine keys l) -> key (snd p) = Ok (fst p).
Proof.
  revert keys. induction l as [|x l IH]; simpl; intros keys H p Hp.
  - injection H as <-. destruct Hp.
  - destruct (key x) eqn:K; [|discriminate H]. cbn [bind] in H.
    destruct (mapM key l); [|discriminate H]. cbn [bind] in H.
    injection H as <-. simpl in Hp. destruct Hp as [<- | Hp].
    + exact K.
    + exact (IH _ eq_refl p Hp).
Qed.

Lemma mapM_keyed (ps : list (Dec * A)) :
  (forall p, In p ps -> key (snd p) = Ok (fst p)) ->
  mapM key (map snd ps) = Ok (map fst ps).
Proof.
  induction ps as [|p ps IH]; simpl; intros H; [reflexivity|].
  rewrite (H p (or_introl eq_refl)). cbn [bind].
  rewrite IH; [reflexivity|]. intros q Hq. apply H. right. exact Hq.
Qed.

Lemma mapM_total (l : list A) :
  (forall x, In x l -> exists k, key x = Ok k) ->
  exists keys, mapM key l = Ok keys.
Proof.
  induction l as [|x l IH]; simpl; intros H; [eauto|].
  destruct (H x (or_introl eq_refl)) as [k ->]. cbn [bind].
  destruct IH as [keys ->]; [intros y Hy; apply H; right; exact Hy|].
  cbn [bind]. eauto.
Qed.

End Keys.

Lemma map_snd_combine {A B : Type} (ks : list A) (l : list B) :
  List.length ks = List.length l -> map snd (combine ks l) = l.
Proof.
  revert l. induction ks as [|k ks IH]; intros [|x l] H; simpl;
    try discriminate H; [reflexivity|].
  f_equal. apply IH. injection H as H. exact H.
Qed.

(** What [sorted(l, key=..., reverse=True)] returns when every key can be
    computed: a rearrangement of [l] by decreasing key. *)
Lemma sorted_reverse_spec key l best n :
  sorted_reverse key l = Ok best ->
  exists ps,
    best = map snd ps /\
    Permutation l best /\
    StronglySorted key_ge ps /\
    (forall p, In p ps -> key (snd p) = Ok (fst p)) /\
    mapM key (firstn n best) = Ok (map fst (firstn n ps)) /\
    descending (map fst (firstn n ps)).
Proof.
  unfold sorted_reverse. destruct (mapM key l) as [keys|] eqn:K;
    [|discriminate]. cbn [bind]. intros [= <-].
  pose proof (mapM_length key l keys K) as L.
  pose proof (mapM_combine key l keys K) as C.
  pose proof (sort_desc_perm (combine keys l)) as P.
  pose proof (sort_desc_sorted (combine keys l)) as S.
  assert (forall p, In p (sort_desc (combine keys l)) ->
                    key (snd p) = Ok (fst p)) as C'.
  { intros p Hp. apply C. apply (Permutation_in _ (Permutation_sym P) Hp). }
  exists (sort_desc (combine keys l)).
  split; [reflexivity|]. split.
  - rewrite <- (map_snd_combine keys l L) at 1.
    apply Permutation_map, P.
  - split; [exact S|]. split; [exact C'|]. split.
    + rewrite firstn_map. apply mapM_keyed.
      intros p Hp. apply C'. apply (in_firstn _ _ _ Hp).
    + apply sorted_descending, sorted_firstn, S.
Qed.

(* ================================================================== *)
(** * The offers the shop-offers provider builds *)
(* ================================================================== *)

Lemma offer_key_offer_dict category store offer description valid location
    distance_km :
  ShopOffersProvider.offer_key
    (ShopOffersProvider.offer_dict category store offer description valid
       location distance_km)
  = py_float (replace (replace offer "% OFF" "") "Buy 1 Get 1 Free" "50").
Proof. reflexivity. Qed.

Lemma percent_keys_checked :
  forallb
    (fun n =>
       match py_float (replace (replace (str_of_Z n ++ "% OFF") "% OFF" "")
                         "Buy 1 Get 1 Free" "50") with
       | Ok d => ((mant d =? n) && Nat.eqb (expo d) 0)%bool
       | Raise _ => false
       end)
    (map Z.of_nat (seq 10 41)) = true.
Proof. vm_compute. reflexivity. Qed.

(** The key of an offer of [n] percent is [n]. *)
Lemma offer_key_percent n :
  10 <= n <= 50 ->
  py_float (replace (replace (str_of_Z n ++ "% OFF") "% OFF" "")
              "Buy 1 Get 1 Free" "50") = Ok (mkDec n 0).
Proof.
  intros H. pose proof percent_keys_checked as C.
  rewrite forallb_forall in C. specialize (C n).
  assert (In n (map Z.of_nat (seq 10 41))) as I.
  { apply in_map_iff. exists (Z.to_nat n). split; [lia|].
    apply in_seq. lia. }
  specialize (C I).
  destruct (py_float _) as [[m e]|]; [|discriminate C].
  cbn [mant expo] in C. apply andb_true_iff in C as [Cm Ce].
  apply Z.eqb_eq in Cm. apply Nat.eqb_eq in Ce. subst. reflexivity.
Qed.

(** The two-for-one offer counts as 50. *)
Lemma offer_key_two_for_one x :
  py_getitem x "offer" = Ok (PStr "Buy 1 Get 1 Free") ->
  ShopOffersProvider.offer_key x = Ok (mkDec 50 0).
Proof.
  intros H. unfold ShopOffersProvider.offer_key. rewrite H. reflexivity.
Qed.

Lemma generated_offer_key x :
  generated_offer x -> exists k, ShopOffersProvider.offer_key x = Ok k.
Proof.
  intros (c & s & o & de & v & l & di & -> & [-> | (n & Hn & ->)]).
  - exists (mkDec 50 0). reflexivity.
  - exists (mkDec n 0). rewrite offer_key_offer_dict.
    apply offer_key_percent, Hn.
Qed.

Lemma percent_discounts_checked :
  forallb
    (fun n =>
       match spec_discount (str_of_Z n ++ "% OFF") with
       | Some m => m =? n
       | None => false
       end)
    (map Z.of_nat (seq 0 101)) = true.
Proof. vm_compute. reflexivity. Qed.

(** The discount of "n% OFF" is [n]. *)
Lemma spec_discount_percent n :
  0 <= n <= 100 -> spec_discount (str_of_Z n ++ "% OFF") = Some n.
Proof.
  intros H. pose proof percent_discounts_checked as C.
  rewrite forallb_forall in C. specialize (C n).
  assert (In n (map Z.of_nat (seq 0 101))) as I.
  { apply in_map_iff. exists (Z.to_nat n). split; [lia|].
    apply in_seq. lia. }
  specialize (C I).
  destruct (spec_discount _) as [m|]; [|discriminate C].
  apply Z.eqb_eq in C. subst. reflexivity.
Qed.

(** The sort key of an offer is its discount: [n] for "n% OFF". *)
Lemma offer_key_is_percent x n :
  10 <= n <= 50 ->
  py_getitem x "offer" = Ok (PStr (str_of_Z n ++ "% OFF")) ->
  ShopOffersProvider.offer_key x = Ok (mkDec n 0) /\ discount_of x = Some n.
Proof.
  intros Hn H. unfold ShopOffersProvider.offer_key, discount_of. rewrite H.
  cbn [bind]. split; [apply offer_key_percent, Hn|].
  apply spec_discount_percent. lia.
Qed.

(** The sort key of an offer built by the provider is its discount. *)
Lemma generated_offer_discount x :
  generated_offer x ->
  exists n, 10 <= n <= 50 /\ discount_of x = Some n /\
            ShopOffersProvider.offer_key x = Ok (mkDec n 0).
Proof.
  intros (c & s & o & de & v & l & di & -> & [-> | (n & Hn & ->)]).
  - exists 50. split; [lia|]. split; reflexivity.
  - exists n. split; [exact Hn|].
    destruct (offer_key_is_percent
                (ShopOffersProvider.offer_dict c s (str_of_Z n ++ "% OFF") de v
                   l di) n Hn eq_refl) as [K D].
    split; assumption.
Qed.

Lemma dec_leb_whole a b : dec_leb (mkDec a 0) (mkDec b 0) = (a <=? b).
Proof.
  unfold dec_leb, dec_align. cbn [mant expo Z.of_nat].
  rewrite Z.pow_0_r, !Z.mul_1_r. reflexivity.
Qed.

(** The keys of offers built by the provider are their discounts, and keys
    in descending order are discounts in descending order. *)
Lemma generated_keys_are_discounts l keys :
  Forall generated_offer l ->
  mapM ShopOffersProvider.offer_key l = Ok keys ->
  exists discounts,
    Forall2 (fun x n => discount_of x = Some n) l discounts /\
    keys = map (fun n => mkDec n 0) discounts /\
    (descending keys -> descending_discounts discounts).
Proof.
  intros F. revert keys. induction F as [|x l Hx F IH]; intros keys H.
  - injection H as <-. exists []. split; [constructor|].
    split; [reflexivity|]. intros _. exact I.
  - simpl in H.
    destruct (generated_offer_discount x Hx) as (n & _ & Dn & Kn).
    rewrite Kn in H. cbn [bind] in H.
    destruct (mapM ShopOffersProvider.offer_key l) as [ks|] eqn:E;
      [|discriminate H].
    cbn [bind] in H. injection H as <-.
    destruct (IH ks eq_refl) as (ds & F2 & -> & Hd).
    exists (n :: ds). split; [constructor; assumption|].
    split; [reflexivity|].
    intros [Hh Ht]. split; [|apply Hd, Ht].
    destruct ds as [|m ds]; [exact I|].
    cbn [map] in Hh. rewrite dec_leb_whole in Hh.
    apply Z.leb_le, Hh.
Qed.

Lemma generated_offer_deal_string x :
  generated_offer x ->
  exists sentence, deal_string x = Ok sentence /\ store_dash_offer x sentence.
Proof.
  intros (c & s & o & de & v & l & di & -> & _).
  exists (s ++ " - " ++ o). split; [reflexivity|].
  exists s, o. repeat split; reflexivity.
Qed.

Lemma randint_range env i a b : a <= b -> a <= randint env i a b <= b.
Proof.
  intros H. unfold randint.
  pose proof (Z.mod_pos_bound (Z.of_nat (rand env i)) (b - a + 1)). lia.
Qed.

Lemma category_offers_generated env i city cats l :
  ShopOffersProvider.category_offers env i city cats = Ok l ->
  Forall generated_offer l /\ List.length l = List.length cats.
Proof.
  revert i l. induction cats as [|cat rest IH]; intros i l H; simpl in H.
  - injection H as <-. split; [constructor|reflexivity].
  - destruct (ShopOffersProvider.valid_until _ _) as [valid|];
      [|discriminate H]. cbn [bind] in H.
    destruct (ShopOffersProvider.category_offers env (i + 4) city rest)
      as [offers|] eqn:E; [|discriminate H]. cbn [bind] in H.
    injection H as <-. destruct (IH _ _ E) as [F L].
    split; [|simpl; f_equal; exact L].
    constructor; [|exact F].
    do 7 eexists. split; [reflexivity|]. right.
    exists (randint env i 10 50). split; [apply randint_range; lia|reflexivity].
Qed.

Lemma featured_offers_generated env city l :
  ShopOffersProvider.featured_offers env city = Ok l ->
  Forall generated_offer l /\ List.length l = 2%nat.
Proof.
  unfold ShopOffersProvider.featured_offers. intros H.
  destruct (ShopOffersProvider.valid_until _ 3); [|discriminate H].
  destruct (ShopOffersProvider.valid_until _ 2); [|discriminate H].
  cbn [bind] in H. injection H as <-. split; [|reflexivity].
  constructor; [|constructor; [|constructor]].
  - do 7 eexists. split; [reflexivity|]. left. reflexivity.
  - do 7 eexists. split; [reflexivity|]. right.
    exists 20. split; [lia|reflexivity].
Qed.

(** The fragment built by [_get_mock_shop_offers]. *)
Lemma mock_shop_offers_shape env i city country d :
  ShopOffersProvider._get_mock_shop_offers env i city country = Ok d ->
  exists all sorted,
    Forall generated_offer all /\
    List.length all = 7%nat /\
    sorted_reverse ShopOffersProvider.offer_key all = Ok sorted /\
    lookup "all_offers" d = Some (PList all) /\
    lookup "best_deals" d = Some (PList (firstn 3 sorted)) /\
    lookup "total_offers" d = Some (PInt 7).
Proof.
  unfold ShopOffersProvider._get_mock_shop_offers. intros H.
  destruct (ShopOffersProvider.category_offers _ _ _ _) as [offers|] eqn:Eo;
    [|discriminate H]. cbn [bind] in H.
  destruct (ShopOffersProvider.featured_offers _ _) as [featured|] eqn:Ef;
    [|discriminate H]. cbn [bind] in H.
  destruct (sorted_reverse _ _) as [sorted|] eqn:Es; [|discriminate H].
  cbn [bind] in H. injection H as <-.
  destruct (category_offers_generated _ _ _ _ _ Eo) as [Fo Lo].
  destruct (featured_offers_generated _ _ _ Ef) as [Ff Lf].
  exists (featured ++ offers)%list, sorted.
  split; [apply Forall_app; split; assumption|].
  split; [rewrite length_app, Lo, Lf; reflexivity|].
  split; [exact Es|].
  split; [reflexivity|]. split; [reflexivity|].
  cbn [lookup String.eqb Ascii.eqb Bool.eqb]. rewrite Lo, Lf. reflexivity.
Qed.

Lemma mock_shop_offers_deals_ok env i city country d :
  ShopOffersProvider._get_mock_shop_offers env i city country = Ok d ->
  deals_ok d.
Proof.
  intros G.
  destruct (mock_shop_offers_shape env i city country d G)
    as (all & sorted & Fall & _ & Es & _ & Hbest & _).
  destruct (sorted_reverse_spec _ all sorted 3 Es) as (_ & _ & P & _).
  exists (firstn 3 sorted). split.
  - unfold dict_get. rewrite Hbest. reflexivity.
  - rewrite Forall_forall in *. intros x Hx. apply Fall.
    apply (Permutation_in _ (Permutation_sym P)).
    apply (in_firstn _ _ _ Hx).
Qed.

Lemma shop_fetch_deals_ok p env i city country :
  shop_cache_ok p ->
  (forall sh, fst (ShopOffersProvider.fetch_data p env i city country) = Ok sh ->
              exists d, payload sh = PDict d /\ deals_ok d) /\
  shop_cache_ok (snd (ShopOffersProvider.fetch_data p env i city country)).
Proof.
  intros Hp. unfold ShopOffersProvider.fetch_data.
  destruct (BaseProvider.cache_hit p (now env)) as [cached|] eqn:Hit.
  - split; [|exact Hp]. cbn [fst]. intros sh [= <-].
    exists cached. split; [reflexivity|].
    apply Hp, (cache_hit_cached _ _ _ Hit).
  - destruct (ShopOffersProvider._get_mock_shop_offers env i city country)
      as [d|e] eqn:G.
    + pose proof (mock_shop_offers_deals_ok _ _ _ _ _ G) as D. split.
      * cbn [fst]. intros sh [= <-]. exists d. split; [reflexivity|exact D].
      * intros d'. cbn [snd BaseProvider.store BaseProvider.cached_data].
        intros [= <-]. exact D.
    + split; [cbn [fst]; discriminate | exact Hp].
Qed.

(* ================================================================== *)
(** * What every reachable server satisfies *)
(* ================================================================== *)

Lemma cache_wf_init getenv : cache_wf (init getenv).
Proof.
  split; [reflexivity|]. split; [left; split; reflexivity|].
  split; intros d H; discriminate H.
Qed.

Lemma cache_wf_fetch_all_data s env city country :
  cache_wf s -> cache_wf (final (fetch_all_data s env city country)).
Proof.
  intros (Hd & Hc & Hw & Hs).
  destruct (fetch_all_data_frame s env city country)
    as (_ & _ & _ & Ed & Ew & Es).
  set (c := str_or city (current_city s)) in *.
  set (k := str_or country (current_country s)) in *.
  pose proof (weather_fetch_named (weather_provider s) (now env)
                (http_weather env) c k Hw) as [Hn Hw'].
  pose proof (shop_fetch_deals_ok (shop_offers_provider s) env
                (snd (TrafficProvider.fetch_data (traffic_provider s) env 0
                        c k)) c k Hs) as [Hsh Hs'].
  split; [congruence|].
  split; [|split; [rewrite Ew; exact Hw' | rewrite Es; exact Hs']].
  destruct (source_answers_cases s env c k) as [(w & tr & te & sh & E)|E].
  - destruct (fetch_all_data_success s env city country w tr te sh E)
      as (_ & Ec & Et).
    unfold source_answers in E. injection E as E1 E2 E3 E4.
    right. do 8 eexists. split; [exact Ec|]. split; [exact Et|].
    split; [apply Hn, E1|].
    split; [exact (traffic_payload_dict _ _ _ _ _ _ E2)|].
    split; [exact (temperature_payload_dict _ _ _ _ _ _ E3)|].
    apply Hsh, E4.
  - destruct (fetch_all_data_failure s env city country E) as (_ & Ec & Et).
    rewrite Ec, Et. exact Hc.
Qed.

Lemma get_city_data_final s env city country force_refresh :
  final (get_city_data s env city country force_refresh) = s \/
  final (get_city_data s env city country force_refresh) =
    final (fetch_all_data s env
             (Some (str_or city (current_city s)))
             (Some (str_or country (current_country s)))).
Proof.
  unfold get_city_data.
  destruct (must_fetch _ _ _ _) as [[|]|]; [|left; reflexivity..].
  right. destruct (result _); reflexivity.
Qed.

Lemma answer_query_final s env query city country :
  final (answer_query s env query city country) =
  final (get_city_data s env city country false).
Proof.
  unfold answer_query. destruct (result _); reflexivity.
Qed.

Lemma cache_wf_get_city_data s env city country force_refresh :
  cache_wf s ->
  cache_wf (final (get_city_data s env city country force_refresh)).
Proof.
  intros H.
  destruct (get_city_data_final s env city country force_refresh) as [-> | ->];
    [exact H | apply cache_wf_fetch_all_data, H].
Qed.

Lemma reachable_cache_wf s : reachable s -> cache_wf s.
Proof.
  induction 1.
  - apply cache_wf_init.
  - apply cache_wf_fetch_all_data; assumption.
  - apply cache_wf_get_city_data; assumption.
  - rewrite answer_query_final. apply cache_wf_get_city_data; assumption.
Qed.

(** In a reachable server a snapshot is cached exactly when a fetch time is
    recorded. *)
Lemma cached_iff_stamped s :
  cache_wf s -> (data_cache s <> [] <-> cache_timestamp s <> None).
Proof.
  intros (_ & [[-> ->] | (w & tr & te & sh & c & k & f & stamp & -> & -> & _)] & _);
    split; intro H; try (exfalso; apply H; reflexivity); discriminate.
Qed.

Lemma is_cache_valid_fresh s now :
  cache_wf s -> (is_cache_valid s now = true <-> fresh s now).
Proof.
  intros W. pose proof (cached_iff_stamped s W) as Hcs.
  destruct W as (Hd & _ & _).
  unfold is_cache_valid, fresh, elapsed_lt, age_us, ttl_us. rewrite Hd.
  destruct (cache_timestamp s) as [stamp|] eqn:Es.
  - assert (data_cache s <> []) as Hne by (apply Hcs; discriminate).
    destruct (data_cache s) as [|kv d]; [contradiction|]. simpl.
    rewrite andb_true_r, Z.ltb_lt. split.
    + intros H. exists stamp. split; [reflexivity|lia].
    + intros (stamp' & [= <-] & H). lia.
  - split; [discriminate|]. intros (stamp & E & _). discriminate E.
Qed.

(** In a reachable server the cached city can always be read. *)
Lemma must_fetch_reachable s now city force_refresh :
  cache_wf s ->
  must_fetch s now city force_refresh =
  Ok (force_refresh
      || negb (is_cache_valid s now)
      || match cached_meta (data_cache s) "city" with
         | Some v => py_ne_str v city
         | None => true
         end)%bool.
Proof.
  intros (_ & Hc & _). unfold must_fetch.
  destruct force_refresh; [reflexivity|].
  destruct (is_cache_valid s now) eqn:V; [|reflexivity]. simpl.
  destruct Hc as [[E _] | (w & tr & te & sh & c & k & f & stamp & -> & _ & _)].
  - unfold is_cache_valid in V. rewrite E in V.
    destruct (cache_timestamp s); [|discriminate V].
    rewrite andb_false_r in V. discriminate V.
  - reflexivity.
Qed.

(** The provider calls of [get_city_data] are those of one refresh for the
    resolved city and country, or none. *)
Lemma get_city_data_calls s env city country force_refresh :
  let c := str_or city (current_city s) in
  let k := str_or country (current_country s) in
  calls (get_city_data s env city country force_refresh) =
  match must_fetch s (now env) c force_refresh with
  | Ok true => refresh_calls c k
  | _ => []
  end.
Proof.
  intros c k. subst c k. unfold get_city_data.
  destruct (must_fetch s (now env) _ force_refresh) as [[|]|]; try reflexivity.
  destruct (fetch_all_data_frame s env
              (Some (str_or city (current_city s)))
              (Some (str_or country (current_country s))))
    as (_ & _ & E & _).
  rewrite !str_or_idem in E.
  destruct (result (fetch_all_data s env _ _)); exact E.
Qed.

(* ================================================================== *)
(** * Refresh atomicity and its frame (C4, C10) *)
(* ================================================================== *)

(** The refresh at the end of January fails: the shop-offers task raises. *)
Lemma month_end_sources_raise :
  existsb raised (source_answers (init None) env_month_end "Paris" "FR") = true.
Proof. vm_compute. reflexivity. Qed.

Lemma noon_sources_answer :
  exists w tr te sh,
    source_answers (init None) env_noon "London" "GB"
    = [Ok w; Ok tr; Ok te; Ok sh].
Proof. vm_compute. do 4 eexists. reflexivity. Qed.

(** C4 (all-or-nothing refresh).  A refresh has exactly two outcomes,
    decided by the four provider tasks.  If any of them raises,
    [fetch_all_data] raises and the cached snapshot and its fetch time are
    exactly what they were before the call.  If all four answer,
    [fetch_all_data] returns the snapshot built from the four payloads of
    that refresh, and the cache is replaced wholesale by that snapshot and
    stamped with the time of the refresh.  One of the two cases always
    holds, so the call raises exactly when some task raises, and whenever
    it returns the value is that snapshot and is the new cache. *)
Theorem fetch_all_data_all_or_nothing s env city country :
  let c := str_or city (current_city s) in
  let k := str_or country (current_country s) in
  let o := fetch_all_data s env city country in
  (existsb raised (source_answers s env c k) = true ->
   raised (result o) = true /\
   data_cache (final o) = data_cache s /\
   cache_timestamp (final o) = cache_timestamp s)
  /\
  (forall w tr te sh,
     source_answers s env c k = [Ok w; Ok tr; Ok te; Ok sh] ->
     result o = Ok (snapshot (payload w) (payload tr) (payload te) (payload sh)
                      c k (isoformat (now env))) /\
     data_cache (final o)
     = snapshot (payload w) (payload tr) (payload te) (payload sh)
         c k (isoformat (now env)) /\
     cache_timestamp (final o) = Some (now env))
  /\
  ((exists w tr te sh, source_answers s env c k = [Ok w; Ok tr; Ok te; Ok sh])
   \/ existsb raised (source_answers s env c k) = true)
  /\
  raised (result o) = existsb raised (source_answers s env c k)
  /\
  (forall snap, result o = Ok snap ->
   exists w tr te sh,
     source_answers s env c k = [Ok w; Ok tr; Ok te; Ok sh] /\
     snap = snapshot (payload w) (payload tr) (payload te) (payload sh)
              c k (isoformat (now env)) /\
     data_cache (final o) = snap /\
     cache_timestamp (final o) = Some (now env)).
Proof.
  intros c k o.
  split; [apply fetch_all_data_failure|].
  split; [intros w tr te sh E;
          exact (fetch_all_data_success s env city country w tr te sh E)|].
  split; [apply source_answers_cases|].
  split.
  - destruct (source_answers_cases s env c k) as [(w & tr & te & sh & E)|E].
    + destruct (fetch_all_data_success s env city country w tr te sh E)
        as (R & _).
      fold o in R. rewrite R, E. reflexivity.
    + destruct (fetch_all_data_failure s env city country E) as (R & _).
      fold o in R. rewrite R, E. reflexivity.
  - intros snap R.
    destruct (source_answers_cases s env c k) as [(w & tr & te & sh & E)|E].
    + destruct (fetch_all_data_success s env city country w tr te sh E)
        as (R' & Ec & Et).
      exists w, tr, te, sh. fold o in R', Ec, Et.
      rewrite R in R'. injection R' as ->. auto.
    + destruct (fetch_all_data_failure s env city country E) as (R' & _).
      fold o in R'. rewrite R in R'. discriminate R'.
Qed.

(** A refresh for London at noon succeeds and becomes the cache; a refresh
    for Paris at the end of January fails and leaves that cache as it is. *)
Lemma fetch_all_data_all_or_nothing_witness :
  (result (fetch_all_data (init None) env_noon (Some "London") (Some "GB"))
   = Ok (data_cache server_london) /\
   data_cache server_london <> [] /\
   cache_timestamp server_london = Some noon)
  /\
  (existsb raised (source_answers server_london env_month_end "Paris" "FR") = true
   /\ raised (result (fetch_all_data server_london env_month_end
                        (Some "Paris") (Some "FR"))) = true
   /\ data_cache (final (fetch_all_data server_london env_month_end
                           (Some "Paris") (Some "FR")))
      = data_cache server_london
   /\ cache_timestamp (final (fetch_all_data server_london env_month_end
                                (Some "Paris") (Some "FR")))
      = Some noon).
Proof.
  split.
  - assert (exists w tr te sh,
               source_answers (init None) env_noon "London" "GB"
               = [Ok w; Ok tr; Ok te; Ok sh]) as (w & tr & te & sh & E)
      by (vm_compute; do 4 eexists; reflexivity).
    destruct (proj1 (proj2 (fetch_all_data_all_or_nothing (init None) env_noon
                              (Some "London") (Some "GB"))) w tr te sh E)
      as (R & D & T).
    split; [rewrite R, <- D; reflexivity|].
    split; [|exact T].
    change (data_cache server_london)
      with (data_cache (final (fetch_all_data (init None) env_noon
                                 (Some "London") (Some "GB")))).
    rewrite D. discriminate.
  - assert (existsb raised
              (source_answers server_london env_month_end "Paris" "FR") = true)
      as E by (vm_compute; reflexivity).
    split; [exact E|].
    destruct (proj1 (fetch_all_data_all_or_nothing server_london env_month_end
                       (Some "Paris") (Some "FR")) E) as (R & D & T).
    split; [exact R|]. split; [exact D|].
    rewrite T. vm_compute. reflexivity.
Defined.

(** C10 (frame of a failed refresh).  [fetch_all_data] records the requested
    city and country as the current context before the provider tasks run.
    When the refresh fails the cache and its fetch time are untouched, but
    the current context stays changed: a later call that omits the city and
    the country is resolved to the city and country of the failed request. *)
Theorem failed_refresh_keeps_new_context s env city country :
  let c := str_or city (current_city s) in
  let k := str_or country (current_country s) in
  let o := fetch_all_data s env city country in
  raised (result o) = true ->
  current_city (final o) = c /\
  current_country (final o) = k /\
  data_cache (final o) = data_cache s /\
  cache_timestamp (final o) = cache_timestamp s /\
  (forall env', calls (fetch_all_data (final o) env' None None)
                = refresh_calls c k) /\
  (forall env', calls (get_city_data (final o) env' None None true)
                = refresh_calls c k).
Proof.
  intros c k o R.
  destruct (fetch_all_data_frame s env city country) as (Ec & Ek & _).
  fold o c in Ec. fold o k in Ek.
  destruct (source_answers_cases s env c k) as [(w & tr & te & sh & E)|E].
  { destruct (fetch_all_data_success s env city country w tr te sh E) as (R' & _).
    fold o in R'. rewrite R' in R. discriminate R. }
  destruct (fetch_all_data_failure s env city country E) as (_ & Ed & Et).
  fold o in Ed, Et.
  assert (forall env', calls (fetch_all_data (final o) env' None None)
                       = refresh_calls c k) as Hnext.
  { intros env'.
    destruct (fetch_all_data_frame (final o) env' None None) as (_ & _ & E' & _).
    rewrite E'. simpl. rewrite Ec, Ek. reflexivity. }
  repeat split; try assumption.
  intros env'. rewrite get_city_data_calls. cbn [must_fetch str_or].
  rewrite Ec, Ek. reflexivity.
Qed.

Lemma failed_refresh_keeps_new_context_witness :
  raised (result (fetch_all_data server_london env_month_end
                    (Some "Paris") (Some "FR"))) = true /\
  current_city (final (fetch_all_data server_london env_month_end
                         (Some "Paris") (Some "FR"))) = "Paris" /\
  data_cache (final (fetch_all_data server_london env_month_end
                       (Some "Paris") (Some "FR")))
  = data_cache server_london.
Proof.
  assert (raised (result (fetch_all_data server_london env_month_end
                            (Some "Paris") (Some "FR"))) = true) as H
    by (vm_compute; reflexivity).
  split; [exact H|].
  destruct (failed_refresh_keeps_new_context server_london env_month_end
              (Some "Paris") (Some "FR") H) as (A & _ & C & _).
  split; [exact A | exact C].
Defined.

(* ================================================================== *)
(** * Cache validity and the refresh decision (C5, C6, C1) *)
(* ================================================================== *)

Lemma reachable_server_london : reachable server_london.
Proof. apply reach_fetch_all_data, reach_init. Qed.

(** C5 (TTL boundary).  In every reachable server the TTL is 300 seconds,
    and [is_cache_valid] answers true exactly when a snapshot has been
    cached and its age is strictly below 300 seconds: at an age of 300
    seconds or more the cache is stale, at any age below it is valid. *)
Theorem cache_valid_iff_younger_than_ttl s now :
  reachable s ->
  cache_duration s = 300 /\
  (data_cache s <> [] <-> cache_timestamp s <> None) /\
  (is_cache_valid s now = true <->
   exists stamp, cache_timestamp s = Some stamp /\
                 micros now - micros stamp < 300 * 1000000) /\
  (forall stamp, cache_timestamp s = Some stamp ->
                 300 * 1000000 <= micros now - micros stamp ->
                 is_cache_valid s now = false) /\
  (forall stamp, cache_timestamp s = Some stamp ->
                 micros now - micros stamp < 300 * 1000000 ->
                 is_cache_valid s now = true).
Proof.
  intros R. pose proof (reachable_cache_wf s R) as W.
  pose proof (is_cache_valid_fresh s now W) as V.
  unfold fresh, age_us, ttl_us in V.
  split; [apply W|]. split; [apply cached_iff_stamped, W|].
  split; [exact V|]. split.
  - intros stamp E A. destruct (is_cache_valid s now); [|reflexivity].
    destruct (proj1 V eq_refl) as (stamp' & E' & A').
    rewrite E in E'. injection E' as <-. lia.
  - intros stamp E A. apply V. eauto.
Qed.

Lemma cache_valid_iff_younger_than_ttl_witness :
  reachable server_london /\
  is_cache_valid server_london noon_10s = true /\
  is_cache_valid server_london noon_300s = false.
Proof.
  assert (reachable server_london) as R
    by (apply reach_fetch_all_data, reach_init).
  split; [exact R|].
  assert (cache_timestamp server_london = Some noon) as E
    by (vm_compute; reflexivity).
  split.
  - destruct (cache_valid_iff_younger_than_ttl server_london noon_10s R)
      as (_ & _ & _ & _ & Young).
    apply (Young noon E). vm_compute. reflexivity.
  - destruct (cache_valid_iff_younger_than_ttl server_london noon_300s R)
      as (_ & _ & _ & Old & _).
    apply (Old noon E). vm_compute. discriminate.
Defined.

Lemma cached_meta_get d k v :
  cached_meta d k = Some v ->
  py_get (dict_get d "metadata" (PDict [])) k PNone = Ok v.
Proof.
  unfold cached_meta, dict_get.
  destruct (lookup "metadata" d) as [[]|]; try discriminate.
  simpl. unfold dict_get. intros ->. reflexivity.
Qed.

Lemma py_ne_str_true v c : v <> PStr c -> py_ne_str v c = true.
Proof.
  destruct v; try reflexivity. simpl. intros H.
  destruct (String.eqb s c) eqn:E; [|reflexivity].
  apply String.eqb_eq in E. subst. contradiction.
Qed.

Lemma py_ne_str_false v c : py_ne_str v c = false <-> v = PStr c.
Proof.
  split.
  - destruct v; try discriminate. simpl. intros H.
    apply negb_false_iff, String.eqb_eq in H. congruence.
  - intros ->. simpl. rewrite String.eqb_refl. reflexivity.
Qed.

(** C6 (city-switch invalidation).  Whatever the server state and the
    request, if the city of the cached snapshot is not the requested city,
    [get_city_data] runs a full refresh for the requested city and country,
    however young the snapshot is; what it then returns is the snapshot of
    that refresh. *)
Theorem city_switch_forces_refresh s env city country force_refresh v :
  let c := str_or city (current_city s) in
  let k := str_or country (current_country s) in
  let o := get_city_data s env city country force_refresh in
  cached_meta (data_cache s) "city" = Some v ->
  v <> PStr c ->
  calls o = refresh_calls c k /\
  final o = final (fetch_all_data s env (Some c) (Some k)) /\
  (forall d, result o = Ok d ->
             d = data_cache (final o) /\
             cached_meta d "city" = Some (PStr c) /\
             cache_timestamp (final o) = Some (now env)).
Proof.
  intros c k o Hv Hne.
  assert (must_fetch s (now env) c force_refresh = Ok true) as M.
  { unfold must_fetch. destruct force_refresh; [reflexivity|].
    destruct (negb (is_cache_valid s (now env))); [reflexivity|].
    rewrite (cached_meta_get _ _ _ Hv). simpl.
    rewrite (py_ne_str_true _ _ Hne). reflexivity. }
  split.
  - unfold o. rewrite get_city_data_calls. fold c. rewrite M. reflexivity.
  - unfold o, get_city_data. fold c k. rewrite M.
    pose proof (fetch_all_data_success s env (Some c) (Some k)) as S.
    pose proof (fetch_all_data_failure s env (Some c) (Some k)) as F.
    cbv zeta in S, F. subst c k. rewrite !str_or_idem in S, F.
    destruct (source_answers_cases s env (str_or city (current_city s))
                (str_or country (current_country s)))
      as [(w & tr & te & sh & E)|E].
    + destruct (S w tr te sh E) as (R & Ec & Et). rewrite R.
      cbn [final result].
      split; [reflexivity|]. intros d [= <-].
      split; [reflexivity|]. rewrite Ec. split; [reflexivity|exact Et].
    + destruct (F E) as (R & _).
      destruct (result (fetch_all_data s env _ _)); [discriminate R|].
      cbn [final result]. split; [reflexivity|]. intros d [=].
Qed.

Lemma city_switch_forces_refresh_witness :
  cached_meta (data_cache server_london) "city" = Some (PStr "London") /\
  PStr "London" <> PStr "Paris" /\
  calls (get_city_data server_london env_noon_10s (Some "Paris") (Some "FR")
           false)
  = refresh_calls "Paris" "FR".
Proof.
  assert (cached_meta (data_cache server_london) "city" = Some (PStr "London"))
    as H by (vm_compute; reflexivity).
  assert (PStr "London" <> PStr "Paris") as N by discriminate.
  split; [exact H|]. split; [exact N|].
  apply (proj1 (city_switch_forces_refresh server_london env_noon_10s
                  (Some "Paris") (Some "FR") false (PStr "London") H N)).
Defined.

(** The test of [get_city_data] is negative exactly when no refresh is
    forced and the snapshot is valid for the requested city. *)
Lemma must_fetch_false_iff s now city force_refresh :
  cache_wf s ->
  (must_fetch s now city force_refresh = Ok false <->
   force_refresh = false /\ city_valid s now city).
Proof.
  intros W. rewrite (must_fetch_reachable s now city force_refresh W).
  pose proof (is_cache_valid_fresh s now W) as V.
  pose proof (cached_iff_stamped s W) as Hcs.
  unfold city_valid. split.
  - intros [= H]. apply orb_false_iff in H as [H Hc].
    apply orb_false_iff in H as [-> Hv]. apply negb_false_iff in Hv.
    apply V in Hv. split; [reflexivity|].
    split; [apply Hcs; destruct Hv as (st & -> & _); discriminate|].
    split; [exact Hv|].
    destruct (cached_meta (data_cache s) "city") as [v|]; [|discriminate Hc].
    apply py_ne_str_false in Hc. congruence.
  - intros (-> & _ & Hf & Hc). apply V in Hf. rewrite Hf, Hc. simpl.
    rewrite String.eqb_refl. reflexivity.
Qed.

(** C1, as the code has it.  In every reachable server,
    [get_city_data(city, country, force_refresh)] runs a full refresh if and
    only if [force_refresh] is set or the cache is not valid for the request,
    where valid means: a snapshot exists, its age is below the TTL, and the
    cached city is the requested city.  The cached country is not compared.
    When no refresh runs, the server is unchanged and the cached snapshot is
    returned. *)
Theorem get_city_data_refreshes_iff s env city country force_refresh :
  reachable s ->
  let c := str_or city (current_city s) in
  let k := str_or country (current_country s) in
  let o := get_city_data s env city country force_refresh in
  (calls o = refresh_calls c k <->
   force_refresh = true \/ ~ city_valid s (now env) c) /\
  (calls o = [] <->
   force_refresh = false /\ city_valid s (now env) c) /\
  (calls o = [] -> final o = s /\ result o = Ok (data_cache s)).
Proof.
  intros R c k o. pose proof (reachable_cache_wf s R) as W.
  pose proof (must_fetch_false_iff s (now env) c force_refresh W) as F.
  pose proof (must_fetch_reachable s (now env) c force_refresh W) as M.
  assert (calls o = match must_fetch s (now env) c force_refresh with
                    | Ok true => refresh_calls c k
                    | _ => []
                    end) as C by apply get_city_data_calls.
  destruct (must_fetch s (now env) c force_refresh) as [[|]|e] eqn:E;
    [| |discriminate M].
  - (* a refresh runs *)
    rewrite C. split; [|split].
    + split; [|reflexivity]. intros _.
      destruct force_refresh; [left; reflexivity|right].
      intros V. assert (Ok true = Ok false) as X by (apply F; auto).
      discriminate X.
    + split; [discriminate|]. intros V.
      assert (Ok true = Ok false) as X by (apply F; exact V). discriminate X.
    + discriminate.
  - (* the cache is served *)
    rewrite C. destruct (proj1 F eq_refl) as [Hf Hv].
    split; [|split].
    + split; [discriminate|]. intros [Ht | Hn]; [congruence|contradiction].
    + split; auto.
    + intros _. unfold o, get_city_data. fold c. rewrite E. split; reflexivity.
Qed.

Lemma get_city_data_refreshes_iff_witness :
  reachable server_london /\
  calls (get_city_data server_london env_noon_10s (Some "London") (Some "GB")
           false) = [] /\
  calls (get_city_data server_london env_noon_300s (Some "London") (Some "GB")
           false) = refresh_calls "London" "GB".
Proof.
  assert (reachable server_london) as R
    by (apply reach_fetch_all_data, reach_init).
  split; [exact R|]. split.
  - apply (proj1 (proj2 (get_city_data_refreshes_iff server_london env_noon_10s
                            (Some "London") (Some "GB") false R))).
    split; [reflexivity|].
    split; [vm_compute; discriminate|].
    split; [|vm_compute; reflexivity].
    exists noon. split; vm_compute; reflexivity.
  - apply (proj1 (get_city_data_refreshes_iff server_london env_noon_300s
                    (Some "London") (Some "GB") false R)).
    right. intros (_ & (stamp & E & A) & _).
    vm_compute in E. injection E as <-. vm_compute in A. discriminate A.
Defined.

(** C1 as stated fails: one refresh for (London, GB) at noon; ten seconds
    later (London, CA) is requested.  The specification's predicate is not
    satisfied (the cached country is GB), yet no refresh runs and the GB
    snapshot is returned. *)
Lemma country_switch_does_not_refresh :
  ~ spec_valid server_london noon_10s "London" "CA" /\
  cached_meta (data_cache server_london) "city" = Some (PStr "London") /\
  cached_meta (data_cache server_london) "country" = Some (PStr "GB") /\
  fresh server_london noon_10s /\
  calls (get_city_data server_london env_noon_10s (Some "London") (Some "CA")
           false) = [] /\
  result (get_city_data server_london env_noon_10s (Some "London") (Some "CA")
            false) = Ok (data_cache server_london) /\
  ~ (calls (get_city_data server_london env_noon_10s (Some "London")
              (Some "CA") false) <> [] <->
     false = true \/ ~ spec_valid server_london noon_10s "London" "CA").
Proof.
  assert (~ spec_valid server_london noon_10s "London" "CA") as NV.
  { intros (_ & _ & _ & K). vm_compute in K. discriminate K. }
  assert (calls (get_city_data server_london env_noon_10s (Some "London")
                   (Some "CA") false) = []) as C by (vm_compute; reflexivity).
  split; [exact NV|].
  split; [vm_compute; reflexivity|].
  split; [vm_compute; reflexivity|].
  split; [exists noon; split; vm_compute; reflexivity|].
  split; [exact C|].
  split; [vm_compute; reflexivity|].
  intros [_ H]. apply H; [right; exact NV | exact C].
Qed.

(* ================================================================== *)
(** * The providers' no-raise contract (C2) *)
(* ================================================================== *)

Lemma traffic_fetch_ok p env i city country :
  exists tr, fst (fst (TrafficProvider.fetch_data p env i city country)) = Ok tr.
Proof.
  unfold TrafficProvider.fetch_data.
  destruct (BaseProvider.cache_hit p (now env)); simpl; eauto.
Qed.

(** Three days after the current day must still be in the current month,
    or the featured offers cannot be dated. *)
Lemma featured_offers_raise env city :
  days_in_month (year (now env)) (month (now env)) < day (now env) + 3 ->
  ShopOffersProvider.featured_offers env city = Raise ValueError.
Proof.
  intros H. unfold ShopOffersProvider.featured_offers,
    ShopOffersProvider.valid_until, replace_day.
  replace (day (now env) + 3 <=? days_in_month (year (now env)) (month (now env)))
    with false by (symmetry; apply Z.leb_gt; exact H).
  rewrite andb_false_r. reflexivity.
Qed.

Lemma category_offers_raise_or_not env i city cats :
  (exists l, ShopOffersProvider.category_offers env i city cats = Ok l) \/
  ShopOffersProvider.category_offers env i city cats = Raise ValueError.
Proof.
  revert i. induction cats as [|cat rest IH]; intros i; simpl.
  - left. eauto.
  - unfold ShopOffersProvider.valid_until, replace_day.
    destruct (_ && _)%bool; simpl; [|right; reflexivity].
    destruct (IH (i + 4)%nat) as [[l ->] | ->]; simpl; eauto.
Qed.

(** From the third-last day of a month on, a shop-offers provider without a
    valid cache raises, whatever the draws. *)
Lemma shop_offers_raise_late_in_month p env i city country :
  BaseProvider.cache_hit p (now env) = None ->
  days_in_month (year (now env)) (month (now env)) < day (now env) + 3 ->
  fst (ShopOffersProvider.fetch_data p env i city country) = Raise ValueError.
Proof.
  intros Hit H. unfold ShopOffersProvider.fetch_data. rewrite Hit.
  unfold ShopOffersProvider._get_mock_shop_offers.
  destruct (category_offers_raise_or_not env i city
              ShopOffersProvider.categories) as [[l ->] | ->];
    [|reflexivity].
  simpl. rewrite (featured_offers_raise env city H). reflexivity.
Qed.

(** C2 fails on the code.  On 30 January the shop-offers provider raises
    [ValueError] instead of answering, and the refresh and the query built
    on it fail with it; a weather answer without a temperature makes the
    temperature provider raise [TypeError].  The weather provider and the
    traffic provider do keep the contract. *)
Theorem shop_offers_provider_raises_at_month_end :
  fst (ShopOffersProvider.fetch_data (ShopOffersProvider.init None)
         env_month_end 0 "London" "GB") = Raise ValueError /\
  result (fetch_all_data (init None) env_month_end (Some "London") (Some "GB"))
  = Raise ValueError /\
  result (answer_query (init None) env_month_end "What's the weather like?"
            (Some "London") (Some "GB")) = Raise ValueError /\
  fst (TemperatureProvider.fetch_data
         (TemperatureProvider.init (Some "key") None) noon
         (Ok answer_without_temp) "London" "GB") = Raise TypeError /\
  (forall p now http city country,
      exists w, fst (WeatherProvider.fetch_data p now http city country) = Ok w) /\
  (forall p env i city country,
      exists tr,
        fst (fst (TrafficProvider.fetch_data p env i city country)) = Ok tr).
Proof.
  split; [vm_compute; reflexivity|].
  split; [vm_compute; reflexivity|].
  split; [vm_compute; reflexivity|].
  split; [vm_compute; reflexivity|].
  split; [apply weather_fetch_ok | apply traffic_fetch_ok].
Qed.

(* ================================================================== *)
(** * Provider-local caches and the freshness of fragments (C3) *)
(* ================================================================== *)

Lemma cache_hit_unused p now : BaseProvider.cache_hit (unused p) now = None.
Proof. reflexivity. Qed.

(** Without a cache hit a weather provider answers as one that has never
    fetched. *)
Lemma weather_fetch_stale p now http city country :
  BaseProvider.cache_hit p now = None ->
  fst (WeatherProvider.fetch_data p now http city country) =
  fst (WeatherProvider.fetch_data (unused p) now http city country).
Proof.
  intros H. unfold WeatherProvider.fetch_data.
  rewrite H, cache_hit_unused. cbn [unused BaseProvider.init BaseProvider.api_key].
  destruct (opt_truthy (BaseProvider.api_key p)); cbn [negb]; [|reflexivity].
  destruct (@bind OWResponse dict http _); reflexivity.
Qed.

Lemma temperature_fetch_stale p now http city country :
  BaseProvider.cache_hit (TemperatureProvider.base p) now = None ->
  BaseProvider.cache_hit (TemperatureProvider.weather_provider p) now = None ->
  fst (TemperatureProvider.fetch_data p now http city country) =
  fst (TemperatureProvider.fetch_data
         (TemperatureProvider.mk (unused (TemperatureProvider.base p))
            (unused (TemperatureProvider.weather_provider p)))
         now http city country).
Proof.
  intros H1 H2. unfold TemperatureProvider.fetch_data.
  cbn [TemperatureProvider.base TemperatureProvider.weather_provider].
  rewrite H1, cache_hit_unused.
  pose proof (weather_fetch_stale (TemperatureProvider.weather_provider p)
                now http city country H2) as E.
  destruct (WeatherProvider.fetch_data (TemperatureProvider.weather_provider p)
              now http city country) as [a1 i1].
  destruct (WeatherProvider.fetch_data
              (unused (TemperatureProvider.weather_provider p))
              now http city country) as [a2 i2].
  simpl in E. subst a2.
  destruct (bind a1 _); reflexivity.
Qed.

Lemma fetch_all_data_returns s env city country snap :
  let c := str_or city (current_city s) in
  let k := str_or country (current_country s) in
  result (fetch_all_data s env city country) = Ok snap ->
  exists w tr te sh,
    source_answers s env c k = [Ok w; Ok tr; Ok te; Ok sh] /\
    snap = snapshot (payload w) (payload tr) (payload te) (payload sh)
             c k (isoformat (now env)).
Proof.
  intros c k R.
  destruct (source_answers_cases s env c k) as [(w & tr & te & sh & E)|E].
  - destruct (fetch_all_data_success s env city country w tr te sh E)
      as (R' & _).
    rewrite R in R'. injection R' as ->. eauto 6.
  - destruct (fetch_all_data_failure s env city country E) as (R' & _).
    rewrite R in R'. discriminate R'.
Qed.

(** X20 (refresh without provider caches).  A successful
    [fetch_all_data(city, country)] returns a snapshot stamped with the
    requested city and country.  When no provider holds a local cache
    younger than its 300 seconds (as on the first refresh), each of the four
    fragments is generated in that refresh for the requested city and
    country: it is the payload that a provider which has never fetched
    would answer, and the traffic and shop-offers fragments name the
    requested city. *)
Theorem stale_providers_fetch_fresh s env city country snap :
  let c := str_or city (current_city s) in
  let k := str_or country (current_country s) in
  providers_stale s (now env) ->
  result (fetch_all_data s env city country) = Ok snap ->
  cached_meta snap "city" = Some (PStr c) /\
  cached_meta snap "country" = Some (PStr k) /\
  (exists w,
      fst (WeatherProvider.fetch_data (unused (weather_provider s)) (now env)
             (http_weather env) c k) = Ok w /\
      lookup "weather" snap = Some (payload w)) /\
  lookup "traffic" snap
  = Some (PDict (TrafficProvider._get_mock_traffic_data env 0 c k)) /\
  (exists te,
      fst (TemperatureProvider.fetch_data
             (TemperatureProvider.mk
                (unused (TemperatureProvider.base (temperature_provider s)))
                (unused (TemperatureProvider.weather_provider
                           (temperature_provider s))))
             (now env) (http_temperature env) c k) = Ok te /\
      lookup "temperature" snap = Some (payload te)) /\
  (exists d,
      ShopOffersProvider._get_mock_shop_offers env TrafficProvider.draws c k
      = Ok d /\
      lookup "shop_offers" snap = Some (PDict d)) /\
  fragment_field snap "traffic" "city" = Some (PStr c) /\
  fragment_field snap "shop_offers" "city" = Some (PStr c).
Proof.
  intros c k (Hw & Ht & Hm & Hi & Hs) R.
  destruct (fetch_all_data_returns s env city country snap R)
    as (w & tr & te & sh & E & ->).
  fold c k in E.
  unfold source_answers, weather_answer, traffic_answer, temperature_answer,
    shop_offers_answer in E.
  injection E as Ew Etr Ete Esh.
  rewrite (weather_fetch_stale _ _ _ _ _ Hw) in Ew.
  rewrite (temperature_fetch_stale _ _ _ _ _ Hm Hi) in Ete.
  unfold TrafficProvider.fetch_data in Etr, Esh. rewrite Ht in Etr, Esh.
  cbn [fst snd] in Etr, Esh. injection Etr as <-.
  unfold ShopOffersProvider.fetch_data in Esh. rewrite Hs in Esh.
  change (0 + TrafficProvider.draws)%nat with TrafficProvider.draws in Esh.
  destruct (ShopOffersProvider._get_mock_shop_offers env TrafficProvider.draws
              c k) as [d|e] eqn:G; [|discriminate Esh].
  cbn [fst] in Esh. injection Esh as <-.
  split; [reflexivity|]. split; [reflexivity|].
  split; [exists w; split; [exact Ew|reflexivity]|].
  split; [reflexivity|].
  split; [exists te; split; [exact Ete|reflexivity]|].
  split; [exists d; split; [reflexivity|reflexivity]|].
  split; [reflexivity|].
  unfold ShopOffersProvider._get_mock_shop_offers in G.
  destruct (ShopOffersProvider.category_offers _ _ _ _); [|discriminate G].
  destruct (ShopOffersProvider.featured_offers _ _); [|discriminate G].
  cbn [bind] in G.
  destruct (sorted_reverse _ _); [|discriminate G].
  cbn [bind] in G. injection G as <-. reflexivity.
Qed.

Lemma stale_providers_fetch_fresh_witness :
  providers_stale (init None) (now env_noon) /\
  result (fetch_all_data (init None) env_noon (Some "London") (Some "GB"))
  = Ok (data_cache server_london) /\
  fragment_field (data_cache server_london) "traffic" "city"
  = Some (PStr "London").
Proof.
  assert (providers_stale (init None) (now env_noon)) as P
    by (repeat split; reflexivity).
  assert (result (fetch_all_data (init None) env_noon (Some "London")
                    (Some "GB")) = Ok (data_cache server_london)) as R
    by (vm_compute; reflexivity).
  split; [exact P|]. split; [exact R|].
  apply (stale_providers_fetch_fresh (init None) env_noon (Some "London")
           (Some "GB") (data_cache server_london) P R).
Defined.

(** C3 (fragments of a refresh are fresh for the requested city): the code
    departs from it.  Every provider answers from its own cache while that
    cache is younger than 300 seconds, and this cache is not keyed by city.
    After a refresh for London at noon, a refresh for Paris ten seconds
    later calls the four providers for Paris, succeeds and is stamped Paris,
    but its traffic, temperature and shop-offers fragments are the ones
    generated for London at noon, served again from the providers' own
    caches; the traffic fragment is not the one a provider without a cache
    generates for Paris.  The server's own cache test, in contrast, does
    compare the city: for Paris it asks for a refresh. *)
Theorem paris_refresh_serves_london_fragments :
  exists snap,
    result (fetch_all_data server_london env_noon_10s (Some "Paris") (Some "FR"))
    = Ok snap /\
    cached_meta snap "city" = Some (PStr "Paris") /\
    fragment_field snap "traffic" "city" = Some (PStr "London") /\
    fragment_field snap "temperature" "city" = Some (PStr "London") /\
    fragment_field snap "shop_offers" "city" = Some (PStr "London") /\
    lookup "traffic" snap = lookup "traffic" (data_cache server_london) /\
    lookup "shop_offers" snap = lookup "shop_offers" (data_cache server_london) /\
    lookup "traffic" snap
    <> Some (PDict (TrafficProvider._get_mock_traffic_data env_noon_10s 0
                      "Paris" "FR")) /\
    calls (fetch_all_data server_london env_noon_10s (Some "Paris") (Some "FR"))
    = refresh_calls "Paris" "FR" /\
    must_fetch server_london (now env_noon_10s) "Paris" false = Ok true.
Proof.
  eexists. split; [vm_compute; reflexivity|].
  do 6 (split; [vm_compute; reflexivity|]).
  split; [vm_compute; discriminate|].
  split; vm_compute; reflexivity.
Qed.

(* ================================================================== *)
(** * Keyword matching *)
(* ================================================================== *)

Lemma prefix_app k s : String.prefix k s = true <-> exists post, s = k ++ post.
Proof.
  revert s. induction k as [|a k IH]; intros s.
  - simpl. split; [intros _; exists s; reflexivity|].
    destruct s; reflexivity.
  - destruct s as [|b s]; simpl.
    + split; [discriminate|]. intros [post H]. discriminate H.
    + destruct (ascii_dec a b) as [->|N].
      * rewrite IH. split; intros [post H]; exists post.
        -- rewrite H. reflexivity.
        -- injection H as H. exact H.
      * split; [discriminate|]. intros [post H]. injection H as H _.
        congruence.
Qed.

(** [str_in] is substring membership. *)
Lemma str_in_substring k s :
  str_in k s = true <-> exists pre post, s = pre ++ k ++ post.
Proof.
  induction s as [|b s IH].
  - destruct k as [|a k]; simpl.
    + split; [intros _|reflexivity]. exists "", "". reflexivity.
    + split; [discriminate|]. intros (pre & post & H).
      destruct pre; discriminate H.
  - cbn [str_in]. destruct (String.prefix k (String b s)) eqn:P.
    + split; [intros _|reflexivity].
      apply prefix_app in P as [post H]. exists "", post. exact H.
    + rewrite IH. split.
      * intros (pre & post & H). exists (String b pre), post.
        rewrite H. reflexivity.
      * intros (pre & post & H). destruct pre as [|a pre].
        -- simpl in H.
           assert (String.prefix k (String b s) = true) as X
             by (apply prefix_app; eauto).
           congruence.
        -- injection H as _ H. eauto.
Qed.

Lemma lower_ascii_idem c : lower_ascii (lower_ascii c) = lower_ascii c.
Proof.
  destruct c as [[] [] [] [] [] [] [] []]; reflexivity.
Qed.

Lemma lower_idem s : lower (lower s) = lower s.
Proof.
  induction s as [|c s IH]; simpl; [reflexivity|].
  rewrite lower_ascii_idem, IH. reflexivity.
Qed.

Lemma spec_matches_substring query c :
  spec_matches query c = true <->
  exists kw pre post, In kw (spec_keywords c) /\ lower query = pre ++ kw ++ post.
Proof.
  unfold spec_matches. rewrite existsb_exists. split.
  - intros (kw & I & H). apply str_in_substring in H as (pre & post & H). eauto.
  - intros (kw & pre & post & I & H). exists kw. split; [exact I|].
    apply str_in_substring. eauto.
Qed.

(** The four keyword tests of [answer_query] are the matches of the
    specification's four categories. *)
Lemma code_tests_are_spec_matches query :
  any_keyword_in weather_keywords (lower query) = spec_matches query CWeather /\
  any_keyword_in temp_keywords (lower query) = spec_matches query CTemperature /\
  any_keyword_in traffic_keywords (lower query) = spec_matches query CTraffic /\
  any_keyword_in shop_keywords (lower query) = spec_matches query CShopping.
Proof. repeat split; reflexivity. Qed.

(* ================================================================== *)
(** * The four blocks of [answer_query] *)
(* ================================================================== *)

Ltac part_ok H :=
  repeat match type of H with
         | bind ?m _ = Ok _ => destruct m; cbn [bind] in H; [|discriminate H]
         end.

Lemma weather_part_ok cd city acc acc' :
  weather_part cd city acc = Ok acc' ->
  relevant_data acc' =
    dict_set (relevant_data acc) "weather" (dict_get cd "weather" (PDict [])) /\
  exists sentence : string, answer_parts acc' = (answer_parts acc ++ [sentence])%list.
Proof.
  unfold weather_part. intros H. part_ok H. injection H as <-.
  split; [reflexivity|]. eexists. reflexivity.
Qed.

Lemma temperature_part_ok cd acc acc' :
  temperature_part cd acc = Ok acc' ->
  relevant_data acc' =
    dict_set (relevant_data acc) "temperature"
      (dict_get cd "temperature" (PDict [])) /\
  exists sentence : string, answer_parts acc' = (answer_parts acc ++ [sentence])%list.
Proof.
  unfold temperature_part. intros H. part_ok H. injection H as <-.
  split; [reflexivity|]. eexists. reflexivity.
Qed.

Lemma traffic_part_ok cd acc acc' :
  traffic_part cd acc = Ok acc' ->
  relevant_data acc' =
    dict_set (relevant_data acc) "traffic" (dict_get cd "traffic" (PDict [])) /\
  exists sentence : string, answer_parts acc' = (answer_parts acc ++ [sentence])%list.
Proof.
  unfold traffic_part. intros H. part_ok H. injection H as <-.
  split; [reflexivity|]. eexists. reflexivity.
Qed.

Lemma shop_part_ok cd acc acc' :
  shop_part cd acc = Ok acc' ->
  relevant_data acc' =
    dict_set (relevant_data acc) "shop_offers"
      (dict_get cd "shop_offers" (PDict [])) /\
  exists sentence : string, answer_parts acc' = (answer_parts acc ++ [sentence])%list.
Proof.
  unfold shop_part. intros H. part_ok H.
  destruct (truthy _); part_ok H; injection H as <-;
    (split; [reflexivity|]; eexists; reflexivity).
Qed.

Lemma general_part_ok cd city acc' :
  general_part cd city = Ok acc' ->
  relevant_data acc' = cd /\ exists sentence : string, answer_parts acc' = [sentence].
Proof.
  unfold general_part. intros H. part_ok H. injection H as <-.
  split; [reflexivity|]. eexists. reflexivity.
Qed.

(* ================================================================== *)
(** * Lower-casing and matching up to case *)
(* ================================================================== *)

Lemma in_all_ascii a : In a all_ascii.
Proof.
  unfold all_ascii. apply in_map_iff. exists (nat_of_ascii a).
  split; [apply ascii_nat_embedding|].
  apply in_seq. pose proof (nat_ascii_bounded a). lia.
Qed.

Lemma all_ascii_checked (P : ascii -> bool) :
  forallb P all_ascii = true -> forall a, P a = true.
Proof.
  intros H a. rewrite forallb_forall in H. apply H, in_all_ascii.
Qed.

Lemma all_ascii_checked2 (P : ascii -> ascii -> bool) :
  forallb (fun a => forallb (P a) all_ascii) all_ascii = true ->
  forall a b, P a b = true.
Proof.
  intros H a b.
  apply (all_ascii_checked (P a)), (all_ascii_checked _ H).
Qed.

(** [lower] turns each capital into its small letter and leaves every other
    character as it is. *)
Lemma lower_ascii_small_letter a : lower_ascii a = small_letter a.
Proof.
  apply Ascii.eqb_eq.
  apply (all_ascii_checked
           (fun a => Ascii.eqb (lower_ascii a) (small_letter a))).
  vm_compute. reflexivity.
Qed.

Lemma lower_ascii_not_capital a : is_capital (lower_ascii a) = false.
Proof.
  apply negb_true_iff.
  apply (all_ascii_checked (fun a => negb (is_capital (lower_ascii a)))).
  vm_compute. reflexivity.
Qed.

Lemma same_letter_lower_ascii a : same_letter a (lower_ascii a) = true.
Proof.
  apply (all_ascii_checked (fun a => same_letter a (lower_ascii a))).
  vm_compute. reflexivity.
Qed.

Lemma same_letter_lowers_alike a b :
  same_letter a b = true -> lower_ascii a = lower_ascii b.
Proof.
  intros H. apply Ascii.eqb_eq.
  pose proof (all_ascii_checked2
                (fun a b => implb (same_letter a b)
                              (Ascii.eqb (lower_ascii a) (lower_ascii b)))) as C.
  cbv beta in C. specialize (C ltac:(vm_compute; reflexivity) a b).
  rewrite H in C. exact C.
Qed.

(** A character that is no capital is the lower-cased [b] exactly when it
    is [b] up to case. *)
Lemma same_letter_small a b :
  is_capital a = false -> same_letter a b = Ascii.eqb a (lower_ascii b).
Proof.
  intros H.
  pose proof (all_ascii_checked2
                (fun a b => (is_capital a
                             || Bool.eqb (same_letter a b)
                                  (Ascii.eqb a (lower_ascii b)))%bool)) as C.
  cbv beta in C. specialize (C ltac:(vm_compute; reflexivity) a b).
  rewrite H in C. apply Bool.eqb_prop in C. exact C.
Qed.

Lemma same_text_lower s : same_text s (lower s) = true.
Proof.
  induction s as [|a s IH]; simpl; [reflexivity|].
  rewrite same_letter_lower_ascii, IH. reflexivity.
Qed.

Lemma lower_has_no_capital s : has_capital (lower s) = false.
Proof.
  unfold has_capital.
  induction s as [|a s IH]; simpl; [reflexivity|].
  rewrite lower_ascii_not_capital, IH. reflexivity.
Qed.

Lemma same_text_lowers_alike s t : same_text s t = true -> lower s = lower t.
Proof.
  revert t. induction s as [|a s IH]; intros [|b t] H; simpl in H;
    try discriminate H; [reflexivity|].
  apply andb_true_iff in H as [Hl Ht]. simpl.
  rewrite (same_letter_lowers_alike a b Hl), (IH t Ht). reflexivity.
Qed.

Lemma prefix_lower_ignoring_case k s :
  has_capital k = false ->
  String.prefix k (lower s) = prefix_ignoring_case k s.
Proof.
  unfold has_capital. revert s.
  induction k as [|a k IH]; intros s H; [destruct s; reflexivity|].
  simpl in H. apply orb_false_iff in H as [Ha Hk].
  destruct s as [|b s]; [reflexivity|]. simpl.
  rewrite (same_letter_small a b Ha).
  destruct (ascii_dec a (lower_ascii b)) as [E|N].
  - rewrite (proj2 (Ascii.eqb_eq _ _) E). apply IH, Hk.
  - rewrite (proj2 (Ascii.eqb_neq _ _) N). reflexivity.
Qed.

(** On a keyword without capitals, the substring test on the lower-cased
    query is the substring test up to case on the query itself. *)
Lemma str_in_lower_ignoring_case k s :
  has_capital k = false ->
  str_in k (lower s) = occurs_ignoring_case k s.
Proof.
  intros H. induction s as [|b s IH].
  - cbn [lower str_in occurs_ignoring_case].
    rewrite <- (prefix_lower_ignoring_case k "" H). reflexivity.
  - cbn [occurs_ignoring_case].
    rewrite <- (prefix_lower_ignoring_case k (String b s) H).
    cbn [lower str_in]. destruct (String.prefix k _); [reflexivity|exact IH].
Qed.

Lemma spec_keywords_small c :
  forallb (fun k => negb (has_capital k)) (spec_keywords c) = true.
Proof. destruct c; vm_compute; reflexivity. Qed.

Lemma spec_matches_ignores_case query c :
  spec_matches query c = spec_matches_ignoring_case query c.
Proof.
  unfold spec_matches, spec_matches_ignoring_case.
  pose proof (spec_keywords_small c) as S. rewrite forallb_forall in S.
  induction (spec_keywords c) as [|k l IH]; [reflexivity|]. simpl.
  rewrite str_in_lower_ignoring_case
    by (apply negb_true_iff, S; left; reflexivity).
  f_equal. apply IH. intros x Hx. apply S. right. exact Hx.
Qed.

Lemma prefix_ignoring_case_app k s :
  prefix_ignoring_case k s = true <->
  exists mid post, s = mid ++ post /\ same_text k mid = true.
Proof.
  revert s. induction k as [|a k IH]; intros s.
  - simpl. split; [intros _; exists "", s; split; reflexivity|].
    destruct s; reflexivity.
  - destruct s as [|b s]; simpl.
    + split; [discriminate|]. intros (mid & post & H & T).
      destruct mid; [discriminate T | discriminate H].
    + rewrite andb_true_iff, IH. split.
      * intros (L & mid & post & -> & T). exists (String b mid), post.
        split; [reflexivity|]. simpl. rewrite L, T. reflexivity.
      * intros (mid & post & H & T). destruct mid as [|b' mid];
          [discriminate T|]. simpl in T. apply andb_true_iff in T as [L T].
        injection H as -> ->. split; [exact L|]. eauto.
Qed.

(** [occurs_ignoring_case] is substring membership up to case. *)
Lemma occurs_ignoring_case_substring k s :
  occurs_ignoring_case k s = true <->
  exists pre mid post, s = pre ++ mid ++ post /\ same_text k mid = true.
Proof.
  induction s as [|b s IH].
  - cbn [occurs_ignoring_case]. destruct (prefix_ignoring_case k "") eqn:P.
    + split; [intros _|reflexivity].
      apply prefix_ignoring_case_app in P as (mid & post & H & T).
      exists "", mid, post. split; assumption.
    + split; [discriminate|]. intros (pre & mid & post & H & T).
      destruct pre; [|discriminate H]. simpl in H.
      assert (prefix_ignoring_case k "" = true) as X
        by (apply prefix_ignoring_case_app; eauto).
      congruence.
  - cbn [occurs_ignoring_case].
    destruct (prefix_ignoring_case k (String b s)) eqn:P.
    + split; [intros _|reflexivity].
      apply prefix_ignoring_case_app in P as (mid & post & H & T).
      exists "", mid, post. split; assumption.
    + rewrite IH. split.
      * intros (pre & mid & post & H & T). exists (String b pre), mid, post.
        rewrite H. split; [reflexivity|exact T].
      * intros (pre & mid & post & H & T). destruct pre as [|a pre].
        -- simpl in H.
           assert (prefix_ignoring_case k (String b s) = true) as X
             by (apply prefix_ignoring_case_app; eauto).
           congruence.
        -- injection H as _ H. eauto.
Qed.

(** Texts that differ in case only are classified and routed alike. *)
Lemma classification_ignores_case cd query query' city :
  same_text query query' = true ->
  spec_classify query' = spec_classify query /\
  collect_parts cd query' city = collect_parts cd query city.
Proof.
  intros H. apply same_text_lowers_alike in H.
  unfold spec_classify, spec_matches, collect_parts. rewrite H.
  split; reflexivity.
Qed.

(* ================================================================== *)
(** * Classification and routing (C7) *)
(* ================================================================== *)

Ltac spec_tests query :=
  change (any_keyword_in weather_keywords (lower query))
    with (spec_matches query CWeather) in *;
  change (any_keyword_in temp_keywords (lower query))
    with (spec_matches query CTemperature) in *;
  change (any_keyword_in traffic_keywords (lower query))
    with (spec_matches query CTraffic) in *;
  change (any_keyword_in shop_keywords (lower query))
    with (spec_matches query CShopping) in *.

Ltac step_part :=
  match goal with
  | |- context [weather_part ?cd ?c ?a] =>
      let H := fresh "H" in
      destruct (weather_part cd c a) eqn:H; cbn [bind];
      [apply weather_part_ok in H as [? [? ?]] | exact I]
  | |- context [temperature_part ?cd ?a] =>
      let H := fresh "H" in
      destruct (temperature_part cd a) eqn:H; cbn [bind];
      [apply temperature_part_ok in H as [? [? ?]] | exact I]
  | |- context [traffic_part ?cd ?a] =>
      let H := fresh "H" in
      destruct (traffic_part cd a) eqn:H; cbn [bind];
      [apply traffic_part_ok in H as [? [? ?]] | exact I]
  | |- context [shop_part ?cd ?a] =>
      let H := fresh "H" in
      destruct (shop_part cd a) eqn:H; cbn [bind];
      [apply shop_part_ok in H as [? [? ?]] | exact I]
  | |- context [general_part ?cd ?c] =>
      let H := fresh "H" in
      destruct (general_part cd c) eqn:H; cbn [bind];
      [apply general_part_ok in H as [? [? ?]] | exact I]
  end.

(** What [collect_parts] builds, in terms of the specification's
    classifier. *)
Lemma collect_parts_routes cd query city :
  match collect_parts cd query city with
  | Ok acc =>
      List.length (answer_parts acc) = List.length (spec_classify query) /\
      relevant_data acc =
        match spec_classify query with
        | [CGeneral] => cd
        | cats => routed cd cats
        end
  | Raise _ => True
  end.
Proof.
  unfold collect_parts, when_matched, spec_classify. spec_tests query.
  cbn [filter].
  destruct (spec_matches query CWeather), (spec_matches query CTemperature),
    (spec_matches query CTraffic), (spec_matches query CShopping);
    cbn [bind answer_parts relevant_data];
    repeat step_part;
    repeat match goal with
           | H : answer_parts _ = _ |- _ => rewrite H
           end;
    cbn [app answer_parts];
    try step_part;
    repeat match goal with
           | H : answer_parts _ = _ |- _ => rewrite H
           | H : relevant_data _ = _ |- _ => rewrite H
           end;
    split; reflexivity.
Qed.

Lemma spec_classify_general query :
  spec_classify query = [CGeneral] <->
  forall c, In c four_categories -> spec_matches query c = false.
Proof.
  unfold spec_classify, four_categories. cbn [filter]. split.
  - intros H c I.
    destruct (spec_matches query CWeather) eqn:E1,
      (spec_matches query CTemperature) eqn:E2,
      (spec_matches query CTraffic) eqn:E3,
      (spec_matches query CShopping) eqn:E4; try discriminate H.
    simpl in I. intuition (subst; assumption).
  - intros H.
    rewrite (H CWeather), (H CTemperature), (H CTraffic), (H CShopping);
      simpl; auto 6.
Qed.

(** Every matching category is kept, in the fixed order. *)
Lemma spec_classify_matching query :
  spec_classify query <> [CGeneral] ->
  spec_classify query = filter (spec_matches query) four_categories.
Proof.
  unfold spec_classify.
  destruct (filter (spec_matches query) _) eqn:E; [contradiction|reflexivity].
Qed.

(* ------------------------------------------------------------------ *)
(** ** Composition from a reachable cache never raises *)
(* ------------------------------------------------------------------ *)

Lemma weather_part_total cd city acc :
  is_dict (dict_get cd "weather" (PDict [])) ->
  exists acc', weather_part cd city acc = Ok acc'.
Proof.
  intros [d E]. unfold weather_part. rewrite E. cbn [py_get bind]. eauto.
Qed.

Lemma temperature_part_total cd acc :
  is_dict (dict_get cd "temperature" (PDict [])) ->
  exists acc', temperature_part cd acc = Ok acc'.
Proof.
  intros [d E]. unfold temperature_part. rewrite E. cbn [py_get bind]. eauto.
Qed.

Lemma traffic_part_total cd acc :
  is_dict (dict_get cd "traffic" (PDict [])) ->
  exists acc', traffic_part cd acc = Ok acc'.
Proof.
  intros [d E]. unfold traffic_part. rewrite E. cbn [py_get bind]. eauto.
Qed.

Lemma generated_deal_strings l :
  Forall generated_offer l ->
  exists sentences,
    mapM deal_string l = Ok sentences /\ Forall2 store_dash_offer l sentences.
Proof.
  induction 1 as [|x l Hx _ (ss & E & F)]; simpl.
  - exists []. split; [reflexivity|constructor].
  - destruct (generated_offer_deal_string x Hx) as (s & -> & Hs).
    cbn [bind]. rewrite E. cbn [bind]. exists (s :: ss).
    split; [reflexivity|]. constructor; assumption.
Qed.

Lemma shop_part_total cd acc d :
  dict_get cd "shop_offers" (PDict []) = PDict d ->
  deals_ok d ->
  exists acc', shop_part cd acc = Ok acc'.
Proof.
  intros E (deals & Hd & F). unfold shop_part. rewrite E. cbn [py_get bind].
  rewrite Hd. destruct deals as [|x deals]; cbn [truthy first_three bind];
    [eauto|].
  assert (Forall generated_offer (firstn 3 (x :: deals))) as F3.
  { rewrite Forall_forall in *. intros y Hy. apply F, (in_firstn _ _ _ Hy). }
  destruct (generated_deal_strings _ F3) as (ss & -> & _). cbn [bind]. eauto.
Qed.

Lemma general_part_total w tr te sh c k f city :
  is_dict w -> is_dict tr -> is_dict te -> is_dict sh ->
  exists acc', general_part (snapshot w tr te sh c k f) city = Ok acc'.
Proof.
  intros [dw ->] [dtr ->] [dte ->] [dsh ->]. eexists. reflexivity.
Qed.

Lemma collect_parts_total w tr te sh c k f d query city :
  named w -> is_dict tr -> is_dict te -> sh = PDict d -> deals_ok d ->
  exists acc, collect_parts (snapshot w tr te sh c k f) query city = Ok acc.
Proof.
  intros (dw & Ew & _) Htr Hte Esh D.
  set (cd := snapshot w tr te sh c k f).
  assert (is_dict w) as Hw by (exists dw; exact Ew).
  assert (is_dict sh) as Hsh by (exists d; exact Esh).
  unfold collect_parts, when_matched.
  destruct (any_keyword_in weather_keywords (lower query)).
  1: destruct (weather_part_total cd city (mkParts [] []) Hw) as [a1 ->].
  2: set (a1 := mkParts [] []).
  all: cbn [bind];
    destruct (any_keyword_in temp_keywords (lower query));
    [destruct (temperature_part_total cd a1 Hte) as [a2 ->]
    |set (a2 := a1)];
    cbn [bind];
    (destruct (any_keyword_in traffic_keywords (lower query));
     [destruct (traffic_part_total cd a2 Htr) as [a3 ->]
     |set (a3 := a2)]);
    cbn [bind];
    (destruct (any_keyword_in shop_keywords (lower query));
     [destruct (shop_part_total cd a3 d Esh D) as [a4 ->]
     |set (a4 := a3)]);
    cbn [bind];
    (destruct (answer_parts a4);
     [apply general_part_total; assumption | eauto]).
Qed.

Lemma answer_from_total s now query city country :
  reachable s -> data_cache s <> [] ->
  exists answer, answer_from (data_cache s) now query city country = Ok answer.
Proof.
  intros R Hne.
  destruct (reachable_cache_wf s R) as (_ & Hc & _).
  destruct Hc as [[E _] | (w & tr & te & sh & c & k & f & stamp & E & _ & N
                           & Htr & Hte & d & Esh & D)]; [contradiction|].
  rewrite E. unfold answer_from.
  destruct (collect_parts_total w tr te sh c k f d query
              (py_of_opt_str city) N Htr Hte Esh D) as [acc ->].
  cbn [bind]. eexists. reflexivity.
Qed.

(** C7 (classification).  The query is lower-cased: [lower] changes
    nothing but the case of letters and leaves no capital.  Each category's
    fixed keyword list is then tested for substring membership, so that the
    four tests of [answer_query] are membership tests that ignore the case
    of the query: a keyword matches exactly when the query has a contiguous
    part equal to it up to case, and queries that differ in case only are
    classified and routed alike.  All matching categories are kept in the
    order weather, temperature, traffic, shopping, and the general category
    stands alone exactly when no keyword matches: from the snapshot cached
    by a reachable server, [answer_query] builds one answer part per
    category, and relevant data that hold the fragment of each matched
    category in that order, or the whole snapshot in the general case.  The
    three example queries, also when written in capitals, route to traffic,
    to temperature then shopping, and to general. *)
Theorem classification_routes_query s query city :
  reachable s ->
  data_cache s <> [] ->
  (any_keyword_in weather_keywords (lower query) = spec_matches query CWeather /\
   any_keyword_in temp_keywords (lower query) = spec_matches query CTemperature /\
   any_keyword_in traffic_keywords (lower query) = spec_matches query CTraffic /\
   any_keyword_in shop_keywords (lower query) = spec_matches query CShopping) /\
  (same_text query (lower query) = true /\
   has_capital (lower query) = false /\
   forall a, lower (String a "") = String (small_letter a) "") /\
  (any_keyword_in weather_keywords (lower query)
   = spec_matches_ignoring_case query CWeather /\
   any_keyword_in temp_keywords (lower query)
   = spec_matches_ignoring_case query CTemperature /\
   any_keyword_in traffic_keywords (lower query)
   = spec_matches_ignoring_case query CTraffic /\
   any_keyword_in shop_keywords (lower query)
   = spec_matches_ignoring_case query CShopping) /\
  (forall c, spec_matches query c = true <->
             exists kw pre mid post,
               In kw (spec_keywords c) /\
               query = pre ++ mid ++ post /\ same_text kw mid = true) /\
  (forall query',
      same_text query query' = true ->
      spec_classify query' = spec_classify query /\
      collect_parts (data_cache s) query' city
      = collect_parts (data_cache s) query city) /\
  (forall c, spec_matches query c = true <->
             exists kw pre post,
               In kw (spec_keywords c) /\ lower query = pre ++ kw ++ post) /\
  (spec_classify query = [CGeneral] <->
   forall c, In c four_categories -> spec_matches query c = false) /\
  (spec_classify query <> [CGeneral] ->
   spec_classify query = filter (spec_matches query) four_categories) /\
  (exists acc,
      collect_parts (data_cache s) query city = Ok acc /\
      List.length (answer_parts acc) = List.length (spec_classify query) /\
      relevant_data acc =
        match spec_classify query with
        | [CGeneral] => data_cache s
        | cats => routed (data_cache s) cats
        end) /\
  spec_classify "How's the traffic today?" = [CTraffic] /\
  spec_classify "Is it hot and are there deals?" = [CTemperature; CShopping] /\
  spec_classify "Tell me about the city" = [CGeneral] /\
  relevant_keys (result (answer_query server_london env_noon_10s
                           "How's the traffic today?" None None))
  = Some ["traffic"] /\
  relevant_keys (result (answer_query server_london env_noon_10s
                           "Is it hot and are there deals?" None None))
  = Some ["temperature"; "shop_offers"] /\
  relevant_keys (result (answer_query server_london env_noon_10s
                           "Tell me about the city" None None))
  = Some (map fst (data_cache server_london)) /\
  spec_classify "HOW'S THE TRAFFIC TODAY?" = [CTraffic] /\
  spec_classify "Is It HOT And Are There DEALS?" = [CTemperature; CShopping] /\
  spec_classify "TELL ME ABOUT THE CITY" = [CGeneral] /\
  relevant_keys (result (answer_query server_london env_noon_10s
                           "HOW'S THE TRAFFIC TODAY?" None None))
  = Some ["traffic"] /\
  relevant_keys (result (answer_query server_london env_noon_10s
                           "Is It HOT And Are There DEALS?" None None))
  = Some ["temperature"; "shop_offers"] /\
  relevant_keys (result (answer_query server_london env_noon_10s
                           "TELL ME ABOUT THE CITY" None None))
  = Some (map fst (data_cache server_london)).
Proof.
  intros R Hne.
  split; [apply code_tests_are_spec_matches|].
  split.
  { split; [apply same_text_lower|]. split; [apply lower_has_no_capital|].
    intros a. simpl. rewrite lower_ascii_small_letter. reflexivity. }
  split.
  { destruct (code_tests_are_spec_matches query) as (-> & -> & -> & ->).
    repeat split; apply spec_matches_ignores_case. }
  split.
  { intros c. rewrite spec_matches_ignores_case.
    unfold spec_matches_ignoring_case. rewrite existsb_exists. split.
    - intros (kw & I & H).
      apply occurs_ignoring_case_substring in H as (pre & mid & post & H & T).
      exists kw, pre, mid, post. auto.
    - intros (kw & pre & mid & post & I & H & T). exists kw.
      split; [exact I|]. apply occurs_ignoring_case_substring. eauto. }
  split; [intros query'; apply classification_ignores_case|].
  split; [intros c; apply spec_matches_substring|].
  split; [apply spec_classify_general|].
  split; [apply spec_classify_matching|].
  split.
  { destruct (reachable_cache_wf s R) as (_ & Hc & _).
    destruct Hc as [[E _] | (w & tr & te & sh & c & k & f & stamp & E & _ & N
                             & Htr & Hte & d & Esh & D)]; [contradiction|].
    destruct (collect_parts_total w tr te sh c k f d query city
                N Htr Hte Esh D) as [acc Hacc].
    rewrite <- E in Hacc. exists acc. split; [exact Hacc|].
    pose proof (collect_parts_routes (data_cache s) query city) as Rt.
    rewrite Hacc in Rt. exact Rt. }
  repeat split; vm_compute; reflexivity.
Qed.

Lemma classification_routes_query_witness :
  reachable server_london /\
  data_cache server_london <> [] /\
  (exists acc,
    collect_parts (data_cache server_london) "Any DEALS near me?" PNone
    = Ok acc /\
    List.length (answer_parts acc) = 1%nat /\
    relevant_data acc = routed (data_cache server_london) [CShopping]) /\
  collect_parts (data_cache server_london) "any deals NEAR ME?" PNone
  = collect_parts (data_cache server_london) "Any DEALS near me?" PNone.
Proof.
  assert (reachable server_london) as R
    by (apply reach_fetch_all_data, reach_init).
  assert (data_cache server_london <> []) as N by (vm_compute; discriminate).
  split; [exact R|]. split; [exact N|].
  destruct (classification_routes_query server_london "Any DEALS near me?"
              PNone R N)
    as (_ & _ & _ & _ & Hcase & _ & _ & _ & (acc & Hacc & L & D) & _).
  split.
  - exists acc. split; [exact Hacc|]. split; [exact L | exact D].
  - apply (Hcase "any deals NEAR ME?"). vm_compute. reflexivity.
Defined.

(* ================================================================== *)
(** * Composition depends on the snapshot and the intents only (C8) *)
(* ================================================================== *)

Lemma same_intents_same_tests q1 q2 :
  spec_classify q1 = spec_classify q2 ->
  spec_matches q1 CWeather = spec_matches q2 CWeather /\
  spec_matches q1 CTemperature = spec_matches q2 CTemperature /\
  spec_matches q1 CTraffic = spec_matches q2 CTraffic /\
  spec_matches q1 CShopping = spec_matches q2 CShopping.
Proof.
  unfold spec_classify. cbn [filter].
  destruct (spec_matches q1 CWeather), (spec_matches q1 CTemperature),
    (spec_matches q1 CTraffic), (spec_matches q1 CShopping),
    (spec_matches q2 CWeather), (spec_matches q2 CTemperature),
    (spec_matches q2 CTraffic), (spec_matches q2 CShopping);
    intros H; try discriminate H; repeat split; reflexivity.
Qed.

Lemma dict_get_has_key d k x y :
  has_key k d = true -> dict_get d k x = dict_get d k y.
Proof.
  unfold has_key, dict_get. destruct (lookup k d); [reflexivity|discriminate].
Qed.

(** The weather sentence of a named fragment does not read the [city]
    argument. *)
Lemma weather_part_named cd city1 city2 acc :
  named (dict_get cd "weather" (PDict [])) ->
  weather_part cd city1 acc = weather_part cd city2 acc.
Proof.
  intros (d & E & K). unfold weather_part. rewrite E. cbn [py_get bind].
  rewrite (dict_get_has_key d "city" city1 city2 K). reflexivity.
Qed.

Lemma collect_parts_snapshot w tr te sh c k f q1 q2 city1 city2 :
  named w ->
  spec_classify q1 = spec_classify q2 ->
  collect_parts (snapshot w tr te sh c k f) q1 city1 =
  collect_parts (snapshot w tr te sh c k f) q2 city2.
Proof.
  intros N S. apply same_intents_same_tests in S as (E1 & E2 & E3 & E4).
  unfold collect_parts, when_matched. spec_tests q1. spec_tests q2.
  rewrite E1, E2, E3, E4.
  rewrite (weather_part_named (snapshot w tr te sh c k f) city1 city2
             (mkParts [] []) N).
  assert (general_part (snapshot w tr te sh c k f) city1
          = general_part (snapshot w tr te sh c k f) city2) as G
    by reflexivity.
  rewrite G. reflexivity.
Qed.

Lemma answer_from_snapshot w tr te sh c k f now query city country :
  answer_and_data
    (answer_from (snapshot w tr te sh c k f) now query city country) =
  acc <- collect_parts (snapshot w tr te sh c k f) query (py_of_opt_str city) ;;
  Ok (PStr match answer_parts acc with
           | [] => "I couldn't find specific information for your query."
           | parts => join " " parts
           end,
      PDict (relevant_data acc)).
Proof.
  unfold answer_from.
  destruct (collect_parts _ _ _); reflexivity.
Qed.

(** C8 (composition determinism).  For a snapshot cached by a reachable
    server and a fixed intent set, the answer string and the relevant data
    composed by [answer_query] are the same on every call: they do not
    depend on the time of the call, on the wording of the query beyond its
    intents, or on the city and country arguments. *)
Theorem composition_is_deterministic s q1 q2 city1 city2 country1 country2
    now1 now2 :
  reachable s ->
  data_cache s <> [] ->
  spec_classify q1 = spec_classify q2 ->
  answer_and_data (answer_from (data_cache s) now1 q1 city1 country1) =
  answer_and_data (answer_from (data_cache s) now2 q2 city2 country2).
Proof.
  intros R Hne S.
  destruct (reachable_cache_wf s R) as (_ & Hc & _).
  destruct Hc as [[E _] | (w & tr & te & sh & c & k & f & stamp & E & _ & N & _)];
    [contradiction|].
  rewrite E, !answer_from_snapshot.
  rewrite (collect_parts_snapshot w tr te sh c k f q1 q2
             (py_of_opt_str city1) (py_of_opt_str city2) N S).
  reflexivity.
Qed.

Lemma composition_is_deterministic_witness :
  reachable server_london /\
  data_cache server_london <> [] /\
  spec_classify "How's the traffic today?"
  = spec_classify "Any congestion on my commute" /\
  answer_and_data (answer_from (data_cache server_london) noon
                     "How's the traffic today?" (Some "London") (Some "GB")) =
  answer_and_data (answer_from (data_cache server_london) noon_10s
                     "Any congestion on my commute" None None).
Proof.
  assert (reachable server_london) as R
    by (apply reach_fetch_all_data, reach_init).
  assert (data_cache server_london <> []) as N by (vm_compute; discriminate).
  assert (spec_classify "How's the traffic today?"
          = spec_classify "Any congestion on my commute") as S
    by (vm_compute; reflexivity).
  split; [exact R|]. split; [exact N|]. split; [exact S|].
  apply (composition_is_deterministic server_london _ _ (Some "London") None
           (Some "GB") None noon noon_10s R N S).
Defined.

(** What [answer_query] composes from is the cache of a reachable server,
    and it holds a snapshot. *)
Lemma answer_query_composes_from_cache s env query city country :
  reachable s ->
  let o := get_city_data s env city country false in
  forall cd, result o = Ok cd ->
    cd = data_cache (final o) /\ reachable (final o) /\ cd <> [] /\
    result (answer_query s env query city country)
    = answer_from cd (now env) query city country.
Proof.
  intros R o cd H.
  assert (result (answer_query s env query city country)
          = answer_from cd (now env) query city country) as A.
  { unfold answer_query. fold o. rewrite H. reflexivity. }
  assert (reachable (final o)) as R' by (apply reach_get_city_data, R).
  pose proof (reachable_cache_wf s R) as W.
  unfold o, get_city_data in *.
  rewrite (must_fetch_reachable _ _ _ _ W) in *.
  cbn [orb] in *.
  destruct (negb (is_cache_valid s (now env))
            || match cached_meta (data_cache s) "city" with
               | Some v => py_ne_str v (str_or city (current_city s))
               | None => true
               end)%bool eqn:B.
  - destruct (result (fetch_all_data s env _ _)) eqn:F;
      cbn [result final] in *; [|discriminate H].
    injection H as <-. repeat split; try assumption.
    destruct (fetch_all_data_returns _ _ _ _ _ F) as (w & tr & te & sh & E & S).
    destruct (source_answers_cases s env
                (str_or (Some (str_or city (current_city s))) (current_city s))
                (str_or (Some (str_or country (current_country s)))
                   (current_country s))) as [(w' & tr' & te' & sh' & E')|E'].
    + destruct (fetch_all_data_success _ _ _ _ _ _ _ _ E') as (_ & -> & _).
      discriminate.
    + rewrite E in E'. discriminate E'.
  - cbn [result final] in *. injection H as <-. repeat split; try assumption.
    apply orb_false_iff in B as [B _]. apply negb_false_iff in B.
    unfold is_cache_valid in B. destruct (cache_timestamp s); [|discriminate B].
    destruct (data_cache s); [|discriminate].
    rewrite andb_false_r in B. discriminate B.
Qed.

(** On a reachable server a query fails only when its refresh fails. *)
Lemma answer_query_raises_only_with_refresh s env query city country :
  reachable s ->
  raised (result (answer_query s env query city country)) =
  raised (result (get_city_data s env city country false)).
Proof.
  intros R.
  destruct (result (get_city_data s env city country false)) as [cd|e] eqn:G.
  - destruct (answer_query_composes_from_cache s env query city country R
                cd G) as (E & R' & Hne & ->).
    rewrite E in Hne |- *.
    destruct (answer_from_total _ (now env) query city country R' Hne)
      as [a ->]. reflexivity.
  - unfold answer_query. rewrite G. reflexivity.
Qed.

(* ================================================================== *)
(** * Best deals and the shopping sentence (C9) *)
(* ================================================================== *)

Lemma mapM_deal_string_length l strs :
  mapM deal_string l = Ok strs -> List.length strs = List.length l.
Proof.
  revert strs. induction l as [|x l IH]; simpl; intros strs H.
  - injection H as <-. reflexivity.
  - destruct (deal_string x); [|discriminate H]. cbn [bind] in H.
    destruct (mapM deal_string l); [|discriminate H]. cbn [bind] in H.
    injection H as <-. simpl. f_equal. apply IH. reflexivity.
Qed.

(** The shopping block on a fragment with deals: the first three at most. *)
Lemma shop_part_with_deals cd acc offers deals acc' :
  dict_get cd "shop_offers" (PDict []) = PDict offers ->
  dict_get offers "best_deals" (PList []) = PList deals ->
  deals <> [] ->
  shop_part cd acc = Ok acc' ->
  exists strs,
    mapM deal_string (firstn 3 deals) = Ok strs /\
    (List.length strs <= 3)%nat /\
    answer_parts acc' =
      (answer_parts acc
       ++ [("Best deals available: " ++ join ", " strs)%string])%list.
Proof.
  intros Ho Hd Hne. unfold shop_part. rewrite Ho. cbn [py_get bind].
  rewrite Hd. destruct deals as [|x deals]; [contradiction|].
  cbn [truthy first_three bind].
  destruct (mapM deal_string (firstn 3 (x :: deals))) as [strs|] eqn:E;
    [|discriminate]. cbn [bind]. intros [= <-].
  exists strs. split; [reflexivity|]. split; [|reflexivity].
  rewrite (mapM_deal_string_length _ _ E). apply firstn_le_length.
Qed.

(** The shopping block on a fragment without deals: the count of offers. *)
Lemma shop_part_without_deals cd acc offers :
  dict_get cd "shop_offers" (PDict []) = PDict offers ->
  dict_get offers "best_deals" (PList []) = PList [] ->
  shop_part cd acc =
  Ok (mkParts (dict_set (relevant_data acc) "shop_offers" (PDict offers))
        (answer_parts acc ++
         ["Found " ++ py_str (dict_get offers "total_offers" (PInt 0))
          ++ " offers available in the city."])).
Proof.
  intros Ho Hd. unfold shop_part. rewrite Ho. cbn [py_get bind].
  rewrite Hd. reflexivity.
Qed.

(** C9 (best deals).  In a fragment built by the shop-offers provider,
    [best_deals] holds three of the seven offers of [all_offers], ranked by
    discount magnitude.  The sort key of every offer is its discount: [n]
    for "n% OFF", and 50 for the two-for-one offer.  The discounts of the
    three best deals are in descending order and no other offer has a larger
    one; for London at noon the seven discounts 50, 20, 42, 29, 16, 44, 31
    give the best deals 50, 44, 42.  The shopping sentence composed from
    such a fragment lists these three deals as "store - offer" pairs; from
    any fragment it lists at most the first three best deals, and when there
    is no best deal it reports the count [total_offers]. *)
Theorem best_deals_are_top_three env i city country d cd acc :
  ShopOffersProvider._get_mock_shop_offers env i city country = Ok d ->
  dict_get cd "shop_offers" (PDict []) = PDict d ->
  exists all best rest keys discounts sentences,
    lookup "all_offers" d = Some (PList all) /\
    lookup "best_deals" d = Some (PList best) /\
    List.length all = 7%nat /\
    List.length best = 3%nat /\
    Permutation all (best ++ rest) /\
    mapM ShopOffersProvider.offer_key best = Ok keys /\
    descending keys /\
    (forall b r, In b best -> In r rest ->
       exists kb kr,
         ShopOffersProvider.offer_key b = Ok kb /\
         ShopOffersProvider.offer_key r = Ok kr /\
         dec_leb kr kb = true) /\
    (forall x, py_getitem x "offer" = Ok (PStr "Buy 1 Get 1 Free") ->
               ShopOffersProvider.offer_key x = Ok (mkDec 50 0)) /\
    (forall x, py_getitem x "offer" = Ok (PStr "Buy 1 Get 1 Free") ->
               discount_of x = Some 50) /\
    (forall x n, 10 <= n <= 50 ->
                 py_getitem x "offer" = Ok (PStr (str_of_Z n ++ "% OFF")) ->
                 ShopOffersProvider.offer_key x = Ok (mkDec n 0) /\
                 discount_of x = Some n) /\
    (forall a b, dec_leb (mkDec a 0) (mkDec b 0) = (a <=? b)) /\
    Forall (fun x => exists n,
                10 <= n <= 50 /\ discount_of x = Some n /\
                ShopOffersProvider.offer_key x = Ok (mkDec n 0)) all /\
    Forall2 (fun b n => discount_of b = Some n) best discounts /\
    keys = map (fun n => mkDec n 0) discounts /\
    descending_discounts discounts /\
    (forall b r nb nr, In b best -> In r rest ->
       discount_of b = Some nb -> discount_of r = Some nr -> nr <= nb) /\
    listed_discounts london_offers "all_offers"
    = [Some 50; Some 20; Some 42; Some 29; Some 16; Some 44; Some 31] /\
    listed_discounts london_offers "best_deals"
    = [Some 50; Some 44; Some 42] /\
    mapM deal_string best = Ok sentences /\
    Forall2 store_dash_offer best sentences /\
    shop_part cd acc =
      Ok (mkParts (dict_set (relevant_data acc) "shop_offers" (PDict d))
            (answer_parts acc ++
             ["Best deals available: " ++ join ", " sentences])) /\
    (forall cd' acc' offers deals acc'',
        dict_get cd' "shop_offers" (PDict []) = PDict offers ->
        dict_get offers "best_deals" (PList []) = PList deals ->
        deals <> [] ->
        shop_part cd' acc' = Ok acc'' ->
        exists strs,
          mapM deal_string (firstn 3 deals) = Ok strs /\
          (List.length strs <= 3)%nat /\
          answer_parts acc'' =
            (answer_parts acc'
             ++ [("Best deals available: " ++ join ", " strs)%string])%list) /\
    (forall cd' acc' offers,
        dict_get cd' "shop_offers" (PDict []) = PDict offers ->
        dict_get offers "best_deals" (PList []) = PList [] ->
        shop_part cd' acc' =
        Ok (mkParts (dict_set (relevant_data acc') "shop_offers" (PDict offers))
              (answer_parts acc' ++
               ["Found " ++ py_str (dict_get offers "total_offers" (PInt 0))
                ++ " offers available in the city."]))).
Proof.
  intros G Hcd.
  destruct (mock_shop_offers_shape env i city country d G)
    as (all & sorted & Fall & Lall & Es & Hall & Hbest & _).
  destruct (sorted_reverse_spec _ all sorted 3 Es)
    as (ps & Eps & P & S & Keyed & Kbest & Desc).
  assert (List.length sorted = 7%nat) as Ls
    by (rewrite <- (Permutation_length P); exact Lall).
  assert (List.length (firstn 3 sorted) = 3%nat) as Lb
    by (rewrite length_firstn, Ls; reflexivity).
  assert (forall x, In x sorted -> generated_offer x) as Fs.
  { rewrite Forall_forall in Fall. intros x Hx. apply Fall.
    apply (Permutation_in _ (Permutation_sym P) Hx). }
  assert (Forall generated_offer (firstn 3 sorted)) as Fb.
  { rewrite Forall_forall. intros x Hx. apply Fs, (in_firstn _ _ _ Hx). }
  destruct (generated_deal_strings _ Fb) as (sentences & Ed & F2).
  destruct (generated_keys_are_discounts _ _ Fb Kbest)
    as (discounts & Fd & Ek & Hd).
  assert (forall b r, In b (firstn 3 sorted) -> In r (skipn 3 sorted) ->
            exists kb kr,
              ShopOffersProvider.offer_key b = Ok kb /\
              ShopOffersProvider.offer_key r = Ok kr /\
              dec_leb kr kb = true) as Top.
  { intros b r Hb Hr. rewrite Eps in Hb, Hr.
    rewrite firstn_map in Hb. rewrite skipn_map in Hr.
    apply in_map_iff in Hb as (pb & <- & Hb).
    apply in_map_iff in Hr as (pr & <- & Hr).
    exists (fst pb), (fst pr).
    split; [apply Keyed, (in_firstn _ _ _ Hb)|].
    split; [apply Keyed, (in_skipn _ _ _ Hr)|].
    exact (sorted_firstn_skipn 3 ps S pb pr Hb Hr). }
  exists all, (firstn 3 sorted), (skipn 3 sorted),
    (map fst (firstn 3 ps)), discounts, sentences.
  split; [exact Hall|]. split; [exact Hbest|]. split; [exact Lall|].
  split; [exact Lb|].
  split; [rewrite firstn_skipn; exact P|].
  split; [exact Kbest|]. split; [exact Desc|].
  split; [exact Top|].
  split; [exact offer_key_two_for_one|].
  split; [intros x Hx; unfold discount_of; rewrite Hx; reflexivity|].
  split; [exact offer_key_is_percent|].
  split; [exact dec_leb_whole|].
  split.
  { rewrite Forall_forall in *. intros x Hx.
    apply generated_offer_discount, Fall, Hx. }
  split; [exact Fd|]. split; [exact Ek|]. split; [exact (Hd Desc)|].
  split.
  { intros b r nb nr Hb Hr Db Dr.
    destruct (Top b r Hb Hr) as (kb & kr & Kb & Kr & Le).
    destruct (generated_offer_discount b (Fs b (in_firstn _ _ _ Hb)))
      as (nb' & _ & Db' & Kb').
    destruct (generated_offer_discount r (Fs r (in_skipn _ _ _ Hr)))
      as (nr' & _ & Dr' & Kr').
    rewrite Db in Db'. injection Db' as <-.
    rewrite Dr in Dr'. injection Dr' as <-.
    rewrite Kb in Kb'. injection Kb' as ->.
    rewrite Kr in Kr'. injection Kr' as ->.
    rewrite dec_leb_whole in Le. apply Z.leb_le, Le. }
  split; [vm_compute; reflexivity|].
  split; [vm_compute; reflexivity|].
  split; [exact Ed|]. split; [exact F2|].
  split.
  { assert (truthy (PList (firstn 3 sorted)) = true) as Ht
      by (destruct (firstn 3 sorted); [discriminate Lb | reflexivity]).
    assert (firstn 3 (firstn 3 sorted) = firstn 3 sorted) as Hf
      by (apply firstn_all2; rewrite Lb; apply Nat.le_refl).
    unfold shop_part. rewrite Hcd. cbn [py_get bind].
    unfold dict_get. rewrite Hbest, Ht. cbn [first_three bind].
    rewrite Hf, Ed. reflexivity. }
  split; [exact shop_part_with_deals | exact shop_part_without_deals].
Qed.

Lemma best_deals_are_top_three_witness :
  ShopOffersProvider._get_mock_shop_offers env_noon TrafficProvider.draws
    "London" "GB" = Ok london_offers /\
  dict_get (data_cache server_london) "shop_offers" (PDict [])
  = PDict london_offers /\
  exists best discounts sentences,
    lookup "best_deals" london_offers = Some (PList best) /\
    List.length best = 3%nat /\
    Forall2 (fun b n => discount_of b = Some n) best discounts /\
    descending_discounts discounts /\
    listed_discounts london_offers "best_deals"
    = [Some 50; Some 44; Some 42] /\
    shop_part (data_cache server_london) (mkParts [] []) =
      Ok (mkParts [("shop_offers", PDict london_offers)]
            ["Best deals available: " ++ join ", " sentences]).
Proof.
  assert (ShopOffersProvider._get_mock_shop_offers env_noon
            TrafficProvider.draws "London" "GB" = Ok london_offers) as G
    by (vm_compute; reflexivity).
  assert (dict_get (data_cache server_london) "shop_offers" (PDict [])
          = PDict london_offers) as H by (vm_compute; reflexivity).
  split; [exact G|]. split; [exact H|].
  destruct (best_deals_are_top_three env_noon TrafficProvider.draws "London"
              "GB" london_offers (data_cache server_london) (mkParts [] [])
              G H)
    as (all & best & rest & keys & discounts & sentences & _ & Hb & _ & Lb & _
        & _ & _ & _ & _ & _ & _ & _ & _ & Fd & _ & Dd & _ & _ & Ex & _ & _
        & Sp & _).
  exists best, discounts, sentences.
  split; [exact Hb|]. split; [exact Lb|]. split; [exact Fd|].
  split; [exact Dd|]. split; [exact Ex | exact Sp].
Defined.

(* ================================================================== *)
(** * The context summary *)
(* ================================================================== *)

Lemma snapshot_summary w tr te sh c k f s now :
  data_cache s = snapshot w tr te sh c k f ->
  get_context_summary s now = Ok (summary_of c k f (is_cache_valid s now)).
Proof.
  intros E. unfold get_context_summary. rewrite E. reflexivity.
Qed.

(** X1 (context summary).  On every reachable server [get_context_summary]
    returns: before any successful refresh it reports [no_data]; once a
    snapshot is cached it reports [data_available] with the city, country
    and fetch time of the cached snapshot's metadata, the current verdict of
    [is_cache_valid], and all four fragments as available. *)
Theorem context_summary_reports_cache s now :
  reachable s ->
  (data_cache s = [] ->
   get_context_summary s now =
   Ok [ ("status", PStr "no_data");
        ("message", PStr "No city data has been fetched yet.") ]) /\
  (data_cache s <> [] ->
   exists c k f,
     cached_meta (data_cache s) "city" = Some (PStr c) /\
     cached_meta (data_cache s) "country" = Some (PStr k) /\
     cached_meta (data_cache s) "fetched_at" = Some (PStr f) /\
     get_context_summary s now = Ok (summary_of c k f (is_cache_valid s now))).
Proof.
  intros R. split.
  - intros E. unfold get_context_summary. rewrite E. reflexivity.
  - intros Hne. destruct (reachable_cache_wf s R) as (_ & Hc & _).
    destruct Hc as [[E _] | (w & tr & te & sh & c & k & f & stamp & E & _)];
      [contradiction|].
    exists c, k, f. rewrite (snapshot_summary _ _ _ _ _ _ _ _ now E), E.
    repeat split; reflexivity.
Qed.

Lemma context_summary_reports_cache_witness :
  reachable server_london /\
  get_context_summary server_london noon_10s =
  Ok (summary_of "London" "GB" "2026-01-10T12:00:00" true).
Proof.
  assert (reachable server_london) as R
    by (apply reach_fetch_all_data, reach_init).
  split; [exact R|].
  destruct (context_summary_reports_cache server_london noon_10s R)
    as [_ H].
  destruct H as (c & k & f & Hc & Hk & Hf & ->);
    [vm_compute; discriminate|].
  vm_compute in Hc, Hk, Hf. injection Hc as <-. injection Hk as <-.
  injection Hf as <-. vm_compute. reflexivity.
Defined.

(** X2 (summary after a refresh).  From any server state, when
    [fetch_all_data(city, country)] returns, the summary read at the same
    instant names the requested city and country, carries the time of the
    refresh and reports the cache as valid if the TTL is positive; when the
    refresh raises, the summary at any later time is what it would have
    been without the call. *)
Theorem summary_follows_refresh s env city country :
  let c := str_or city (current_city s) in
  let k := str_or country (current_country s) in
  let o := fetch_all_data s env city country in
  (forall snap, result o = Ok snap ->
     0 < cache_duration s ->
     get_context_summary (final o) (now env)
     = Ok (summary_of c k (isoformat (now env)) true)) /\
  (raised (result o) = true ->
     forall later,
       get_context_summary (final o) later = get_context_summary s later).
Proof.
  intros c k o. split.
  - intros snap R Hpos.
    destruct (fetch_all_data_returns s env city country snap R)
      as (w & tr & te & sh & E & ->).
    destruct (fetch_all_data_success s env city country w tr te sh E)
      as (_ & Ec & Et).
    destruct (fetch_all_data_frame s env city country)
      as (_ & _ & _ & Ed & _).
    fold o c k in Ec, Et, Ed.
    rewrite (snapshot_summary _ _ _ _ _ _ _ _ (now env) Ec).
    unfold is_cache_valid, elapsed_lt. rewrite Et, Ec, Ed. simpl.
    replace (micros (now env) - micros (now env) <? cache_duration s * 1000000)
      with true by (symmetry; apply Z.ltb_lt; lia).
    reflexivity.
  - intros R later.
    destruct (source_answers_cases s env c k) as [(w & tr & te & sh & E)|E].
    + destruct (fetch_all_data_success s env city country w tr te sh E)
        as (R' & _). fold o in R'. rewrite R' in R. discriminate R.
    + destruct (fetch_all_data_failure s env city country E) as (_ & Ec & Et).
      destruct (fetch_all_data_frame s env city country)
        as (_ & _ & _ & Ed & _).
      fold o in Ec, Et, Ed.
      unfold get_context_summary, is_cache_valid. rewrite Ec, Et, Ed.
      reflexivity.
Qed.

Lemma summary_follows_refresh_witness :
  get_context_summary
    (final (fetch_all_data (init None) env_noon (Some "Paris") (Some "FR")))
    noon
  = Ok (summary_of "Paris" "FR" "2026-01-10T12:00:00" true) /\
  get_context_summary
    (final (fetch_all_data server_london env_month_end (Some "Paris")
              (Some "FR")))
    month_end
  = get_context_summary server_london month_end.
Proof.
  split.
  - destruct (summary_follows_refresh (init None) env_noon (Some "Paris")
                (Some "FR")) as [H _].
    destruct (result (fetch_all_data (init None) env_noon (Some "Paris")
                        (Some "FR"))) as [snap|] eqn:E;
      [|vm_compute in E; discriminate E].
    apply (H snap eq_refl). reflexivity.
  - destruct (summary_follows_refresh server_london env_month_end
                (Some "Paris") (Some "FR")) as [_ H].
    apply H. vm_compute. reflexivity.
Defined.

(* ================================================================== *)
(** * How the engine's operations compose *)
(* ================================================================== *)

(** What [get_city_data] returns is cached for the requested city. *)
Lemma get_city_data_returns_requested_city s env city country force_refresh cd :
  reachable s ->
  result (get_city_data s env city country force_refresh) = Ok cd ->
  cached_meta cd "city" = Some (PStr (str_or city (current_city s))).
Proof.
  intros R H. pose proof (reachable_cache_wf s R) as W.
  pose proof (must_fetch_false_iff s (now env)
                (str_or city (current_city s)) force_refresh W) as F.
  unfold get_city_data in H.
  rewrite (must_fetch_reachable _ _ _ _ W) in H, F.
  destruct (force_refresh || _ || _)%bool.
  - destruct (result (fetch_all_data s env _ _)) as [snap|] eqn:E;
      cbn [result final] in H; [|discriminate H].
    injection H as <-.
    destruct (fetch_all_data_returns _ _ _ _ _ E) as (w & tr & te & sh & A & S).
    destruct (fetch_all_data_success _ _ _ _ _ _ _ _ A) as (_ & -> & _).
    rewrite str_or_idem. reflexivity.
  - cbn [result] in H. injection H as <-.
    destruct (proj1 F eq_refl) as (_ & _ & _ & Hc). exact Hc.
Qed.

(** X3 (a refresh warms the cache).  After a successful
    [fetch_all_data(city, country)] on a reachable server, a
    [get_city_data] for the same city (or with the city omitted) less than
    300 seconds later calls no provider, leaves the server as it is and
    returns the snapshot of that refresh, whatever country it asks for. *)
Theorem refresh_then_get_serves_cache s env city country snap env' city'
    country' :
  reachable s ->
  result (fetch_all_data s env city country) = Ok snap ->
  str_or city' (str_or city (current_city s)) = str_or city (current_city s) ->
  micros (now env') - micros (now env) < 300 * 1000000 ->
  get_city_data (final (fetch_all_data s env city country)) env' city' country'
    false
  = mkOutcome (Ok snap) (final (fetch_all_data s env city country)) [].
Proof.
  intros R H Hc Hage.
  set (s1 := final (fetch_all_data s env city country)).
  set (c := str_or city (current_city s)) in *.
  assert (reachable s1) as R1 by (apply reach_fetch_all_data, R).
  pose proof (reachable_cache_wf s1 R1) as W1.
  destruct (fetch_all_data_returns s env city country snap H)
    as (w & tr & te & sh & A & S).
  destruct (fetch_all_data_success s env city country w tr te sh A)
    as (_ & Ec & Et).
  destruct (fetch_all_data_frame s env city country) as (Ecur & _).
  fold s1 c in Ec, Et, Ecur. fold c in S. rewrite <- S in Ec.
  assert (must_fetch s1 (now env') c false = Ok false) as M.
  { apply (must_fetch_false_iff s1 (now env') c false W1).
    split; [reflexivity|]. split; [rewrite Ec, S; discriminate|].
    split; [exists (now env); split; [exact Et | exact Hage]|].
    rewrite Ec, S. reflexivity. }
  unfold get_city_data. rewrite Ecur, Hc, M, Ec. reflexivity.
Qed.

Lemma refresh_then_get_serves_cache_witness :
  get_city_data server_london env_noon_10s None (Some "CA") false
  = mkOutcome (Ok (data_cache server_london)) server_london [].
Proof.
  apply (refresh_then_get_serves_cache (init None) env_noon (Some "London")
           (Some "GB") (data_cache server_london) env_noon_10s None
           (Some "CA")).
  - apply reach_init.
  - vm_compute. reflexivity.
  - reflexivity.
  - vm_compute. reflexivity.
Defined.

Lemma str_or_nonempty a b : b <> "" -> str_or a b <> "".
Proof.
  intros Hb. destruct a as [x|]; simpl; [|exact Hb].
  destruct (String.eqb x "") eqn:E; [exact Hb|].
  intros ->. discriminate E.
Qed.

(** The current context and the cached city are never empty names. *)
Lemma context_named_reachable s :
  reachable s ->
  current_city s <> "" /\ current_country s <> "" /\
  (forall c, cached_meta (data_cache s) "city" = Some (PStr c) -> c <> "").
Proof.
  assert (forall s env city country,
             (current_city s <> "" /\ current_country s <> "" /\
              (forall c, cached_meta (data_cache s) "city" = Some (PStr c) ->
                         c <> "")) ->
             let s' := final (fetch_all_data s env city country) in
             current_city s' <> "" /\ current_country s' <> "" /\
             (forall c, cached_meta (data_cache s') "city" = Some (PStr c) ->
                        c <> "")) as Step.
  { intros s0 env city country (Hc & Hk & Hm) s'.
    destruct (fetch_all_data_frame s0 env city country) as (Ec & Ek & _).
    fold s' in Ec, Ek. rewrite Ec, Ek.
    split; [apply str_or_nonempty, Hc|].
    split; [apply str_or_nonempty, Hk|].
    destruct (source_answers_cases s0 env (str_or city (current_city s0))
                (str_or country (current_country s0)))
      as [(w & tr & te & sh & E)|E].
    - destruct (fetch_all_data_success s0 env city country w tr te sh E)
        as (_ & Ed & _). fold s' in Ed. rewrite Ed.
      intros c [= <-]. apply str_or_nonempty, Hc.
    - destruct (fetch_all_data_failure s0 env city country E) as (_ & Ed & _).
      fold s' in Ed. rewrite Ed. exact Hm. }
  induction 1 as [getenv | s env city country R IH
                 | s env city country f R IH | s env q city country R IH].
  - repeat split; try discriminate.
  - apply Step, IH.
  - destruct (get_city_data_final s env city country f) as [-> | ->];
      [exact IH | apply Step, IH].
  - rewrite answer_query_final.
    destruct (get_city_data_final s env city country false) as [-> | ->];
      [exact IH | apply Step, IH].
Qed.

(** X4 (no provider is asked about a nameless city).  On every reachable
    server the current city and country are non-empty, so are the city of
    the cached snapshot and the city and country of every provider call
    that [fetch_all_data], [get_city_data] or [answer_query] makes, even
    when the caller passes empty strings or nothing. *)
Theorem provider_calls_are_named s env query city country force_refresh :
  reachable s ->
  current_city s <> "" /\ current_country s <> "" /\
  (forall c, cached_meta (data_cache s) "city" = Some (PStr c) -> c <> "") /\
  Forall call_named (calls (fetch_all_data s env city country)) /\
  Forall call_named (calls (get_city_data s env city country force_refresh)) /\
  Forall call_named (calls (answer_query s env query city country)).
Proof.
  intros R. destruct (context_named_reachable s R) as (Hc & Hk & Hm).
  assert (Forall call_named
            (refresh_calls (str_or city (current_city s))
               (str_or country (current_country s)))) as N.
  { repeat constructor; cbn [call_city call_country];
      apply str_or_nonempty; assumption. }
  assert (forall f, Forall call_named
                      (calls (get_city_data s env city country f))) as G.
  { intros f. rewrite get_city_data_calls.
    destruct (must_fetch s (now env) (str_or city (current_city s)) f)
      as [[|]|]; [exact N | constructor | constructor]. }
  repeat split; try assumption; try apply G.
  - destruct (fetch_all_data_frame s env city country) as (_ & _ & -> & _).
    exact N.
  - unfold answer_query.
    destruct (result (get_city_data s env city country false));
      exact (G false).
Qed.

Lemma provider_calls_are_named_witness :
  reachable server_london /\
  Forall call_named
    (calls (get_city_data server_london env_noon_300s (Some "") (Some "")
              false)).
Proof.
  assert (reachable server_london) as R
    by (apply reach_fetch_all_data, reach_init).
  split; [exact R|].
  apply (provider_calls_are_named server_london env_noon_300s "" (Some "")
           (Some "") false R).
Defined.

(** X5 (what an answer says it is about).  When [answer_query] returns on a
    reachable server, the [city] of the answer is the requested city (the
    current city when none is given), the [country] is the country of the
    snapshot it was composed from, and the query and the time of the call
    are echoed. *)
Theorem answer_names_requested_city s env query city country a :
  reachable s ->
  result (answer_query s env query city country) = Ok a ->
  lookup "city" a = Some (PStr (str_or city (current_city s))) /\
  lookup "country" a
  = cached_meta (data_cache (final (answer_query s env query city country)))
      "country" /\
  lookup "query" a = Some (PStr query) /\
  lookup "timestamp" a = Some (PStr (isoformat (now env))).
Proof.
  intros R H.
  destruct (result (get_city_data s env city country false)) as [cd|e] eqn:G.
  2:{ unfold answer_query in H. rewrite G in H. discriminate H. }
  destruct (answer_query_composes_from_cache s env query city country R cd G)
    as (Ecd & R' & Hne & A).
  pose proof (get_city_data_returns_requested_city s env city country false
                cd R G) as Hcity.
  rewrite answer_query_final, <- Ecd.
  rewrite A in H.
  destruct (reachable_cache_wf _ R') as (_ & Hc & _).
  rewrite <- Ecd in Hc.
  destruct Hc as [[E _] | (w & tr & te & sh & c & k & f & stamp & E & _)];
    [contradiction|].
  rewrite E in H, Hcity |- *. injection Hcity as <-.
  unfold answer_from in H.
  destruct (collect_parts _ _ _); cbn [bind] in H; [|discriminate H].
  cbn in H. injection H as <-. repeat split; reflexivity.
Qed.

Lemma answer_names_requested_city_witness :
  exists a,
    result (answer_query server_london env_noon_10s "deals near me"
              (Some "London") (Some "CA")) = Ok a /\
    lookup "city" a = Some (PStr "London") /\
    lookup "country" a = Some (PStr "GB").
Proof.
  assert (reachable server_london) as R
    by (apply reach_fetch_all_data, reach_init).
  destruct (result (answer_query server_london env_noon_10s "deals near me"
                      (Some "London") (Some "CA"))) as [a|] eqn:E;
    [|vm_compute in E; discriminate E].
  exists a. split; [reflexivity|].
  destruct (answer_names_requested_city server_london env_noon_10s
              "deals near me" (Some "London") (Some "CA") a R E)
    as (Hc & Hk & _).
  split; [exact Hc|]. rewrite Hk. vm_compute. reflexivity.
Defined.

(* ================================================================== *)
(** * The traffic provider *)
(* ================================================================== *)

Lemma choice_in env i (seq : list string) :
  seq <> [] -> In (choice env i seq) seq.
Proof.
  intros H. unfold choice. apply nth_In.
  apply Nat.mod_upper_bound. destruct seq; [contradiction|discriminate].
Qed.

Lemma traffic_recommendation_known level :
  In level TrafficProvider.conditions ->
  TrafficProvider._get_traffic_recommendation level
  <> "Traffic conditions unknown.".
Proof.
  intros [<- | [<- | [<- | [<- | []]]]]; discriminate.
Qed.

(** X6 (mock traffic data are coherent).  Whatever the random draws, the
    payload of [_get_mock_traffic_data] names the requested city and
    country; its overall level is one of low, moderate, heavy, severe and is
    the status of the first (airport) route; the recommendation is the
    sentence keyed by that level, never the "unknown" fallback; there are
    five routes, each with a valid status and a delay between 0 and 30
    minutes; and the average delay is between 1 and 22 minutes. *)
Theorem traffic_mock_data_is_coherent env i city country :
  exists level avg r1 r2 r3 r4 r5,
    let d := TrafficProvider._get_mock_traffic_data env i city country in
    lookup "city" d = Some (PStr city) /\
    lookup "country" d = Some (PStr country) /\
    lookup "overall_traffic_level" d = Some (PStr level) /\
    In level TrafficProvider.conditions /\
    lookup "recommendation" d
    = Some (PStr (TrafficProvider._get_traffic_recommendation level)) /\
    TrafficProvider._get_traffic_recommendation level
    <> "Traffic conditions unknown." /\
    lookup "average_delay_minutes" d = Some (PInt avg) /\
    1 <= avg <= 22 /\
    lookup "routes" d = Some (PList [r1; r2; r3; r4; r5]) /\
    py_getitem r1 "status" = Ok (PStr level) /\
    Forall (fun r => exists status delay,
                py_getitem r "status" = Ok (PStr status) /\
                In status TrafficProvider.conditions /\
                py_getitem r "delay_minutes" = Ok (PInt delay) /\
                0 <= delay <= 30)
           [r1; r2; r3; r4; r5].
Proof.
  assert (TrafficProvider.conditions <> []) as NE by discriminate.
  pose proof (choice_in env i _ NE) as L1.
  pose proof (choice_in env (i + 2) _ NE) as L2.
  pose proof (choice_in env (i + 4) _ NE) as L3.
  pose proof (choice_in env (i + 6) _ NE) as L4.
  pose proof (choice_in env (i + 8) _ NE) as L5.
  pose proof (randint_range env (i + 1) 5 30 ltac:(lia)) as D1.
  pose proof (randint_range env (i + 3) 0 20 ltac:(lia)) as D2.
  pose proof (randint_range env (i + 5) 0 25 ltac:(lia)) as D3.
  pose proof (randint_range env (i + 7) 0 15 ltac:(lia)) as D4.
  pose proof (randint_range env (i + 9) 0 20 ltac:(lia)) as D5.
  do 7 eexists. cbv zeta. unfold TrafficProvider._get_mock_traffic_data.
  cbn [lookup String.eqb Ascii.eqb Bool.eqb].
  split; [reflexivity|]. split; [reflexivity|]. split; [reflexivity|].
  split; [exact L1|]. split; [reflexivity|].
  split; [apply traffic_recommendation_known, L1|].
  split; [reflexivity|].
  split.
  { cbn [List.length Z.of_nat Pos.of_succ_nat Pos.succ].
    split.
    - apply Z.div_le_lower_bound; lia.
    - apply Z.div_le_upper_bound; lia. }
  split; [reflexivity|]. split; [reflexivity|].
  repeat constructor; do 2 eexists;
    (split; [reflexivity|]); (split; [eassumption|]);
    (split; [reflexivity|lia]).
Qed.

(* ================================================================== *)
(** * Provider-local caches *)
(* ================================================================== *)

(** What a provider's cache answers after it has stored a payload. *)
Lemma cache_hit_after_store p stored now kv d :
  BaseProvider.cache_hit (BaseProvider.store p stored (kv :: d)) now =
  if micros now - micros stored <? BaseProvider.cache_duration p * 1000000
  then Some (kv :: d) else None.
Proof.
  unfold BaseProvider.cache_hit, BaseProvider.is_cache_valid, elapsed_lt.
  cbn [BaseProvider.store BaseProvider.last_fetch_time
       BaseProvider.cache_duration BaseProvider.cached_data].
  destruct (_ <? _); reflexivity.
Qed.

(** X7 (the traffic provider's own cache).  Once a traffic provider with
    the standard 300-second duration has generated a payload, every
    [fetch_data] less than 300 seconds later answers that same payload,
    whatever city and country it is asked about, draws nothing from the
    random generator and leaves the provider as it is; from 300 seconds on
    it generates a new payload for the city asked and stores it. *)
Theorem traffic_cache_serves_within_ttl p env0 i0 city0 country0 env i city
    country :
  BaseProvider.cache_hit p (now env0) = None ->
  BaseProvider.cache_duration p = 300 ->
  let generated := TrafficProvider._get_mock_traffic_data env0 i0 city0 country0 in
  let p1 := snd (fst (TrafficProvider.fetch_data p env0 i0 city0 country0)) in
  (micros (now env) - micros (now env0) < 300 * 1000000 ->
   TrafficProvider.fetch_data p1 env i city country
   = (Ok (BaseProvider.format_response "TrafficProvider" (now env) generated),
      p1, i)) /\
  (300 * 1000000 <= micros (now env) - micros (now env0) ->
   TrafficProvider.fetch_data p1 env i city country
   = (Ok (BaseProvider.format_response "TrafficProvider" (now env)
            (TrafficProvider._get_mock_traffic_data env i city country)),
      BaseProvider.store p1 (now env)
        (TrafficProvider._get_mock_traffic_data env i city country),
      (i + TrafficProvider.draws)%nat)).
Proof.
  intros Hit Hd generated p1.
  assert (p1 = BaseProvider.store p (now env0) generated) as E1.
  { unfold p1, TrafficProvider.fetch_data. rewrite Hit. reflexivity. }
  assert (forall t, BaseProvider.cache_hit p1 t =
                    if micros t - micros (now env0) <? 300 * 1000000
                    then Some generated else None) as H.
  { intros t. rewrite E1. unfold generated,
      TrafficProvider._get_mock_traffic_data.
    rewrite cache_hit_after_store, Hd. reflexivity. }
  split; intros A; unfold TrafficProvider.fetch_data at 1; rewrite H.
  - replace (_ <? _) with true by (symmetry; apply Z.ltb_lt; exact A).
    reflexivity.
  - replace (_ <? _) with false by (symmetry; apply Z.ltb_ge; exact A).
    reflexivity.
Qed.

Lemma traffic_cache_serves_within_ttl_witness :
  fst (fst (TrafficProvider.fetch_data (traffic_provider server_london)
              env_noon_10s 0 "Paris" "FR"))
  = Ok (BaseProvider.format_response "TrafficProvider" noon_10s
          (TrafficProvider._get_mock_traffic_data env_noon 0 "London" "GB")) /\
  fst (fst (TrafficProvider.fetch_data (traffic_provider server_london)
              env_noon_300s 0 "Paris" "FR"))
  = Ok (BaseProvider.format_response "TrafficProvider" noon_300s
          (TrafficProvider._get_mock_traffic_data env_noon_300s 0 "Paris" "FR")).
Proof.
  assert (BaseProvider.cache_hit (TrafficProvider.init None) (now env_noon)
          = None) as Hit by reflexivity.
  assert (BaseProvider.cache_duration (TrafficProvider.init None) = 300)
    as Hd by reflexivity.
  assert (traffic_provider server_london
          = snd (fst (TrafficProvider.fetch_data (TrafficProvider.init None)
                        env_noon 0 "London" "GB"))) as E
    by (vm_compute; reflexivity).
  rewrite E. split.
  - destruct (traffic_cache_serves_within_ttl (TrafficProvider.init None)
                env_noon 0 "London" "GB" env_noon_10s 0 "Paris" "FR" Hit Hd)
      as [Young _].
    rewrite Young; [reflexivity | vm_compute; reflexivity].
  - destruct (traffic_cache_serves_within_ttl (TrafficProvider.init None)
                env_noon 0 "London" "GB" env_noon_300s 0 "Paris" "FR" Hit Hd)
      as [_ Old].
    rewrite Old; [reflexivity | vm_compute; discriminate].
Defined.

(* ================================================================== *)
(** * The shop-offers provider *)
(* ================================================================== *)

Lemma mock_shop_offers_nonempty env i city country d :
  ShopOffersProvider._get_mock_shop_offers env i city country = Ok d ->
  exists kv d', d = kv :: d'.
Proof.
  unfold ShopOffersProvider._get_mock_shop_offers. intros H.
  destruct (ShopOffersProvider.category_offers _ _ _ _); [|discriminate H].
  destruct (ShopOffersProvider.featured_offers _ _); [|discriminate H].
  cbn [bind] in H. destruct (sorted_reverse _ _); [|discriminate H].
  cbn [bind] in H. injection H as <-. eauto.
Qed.

(** X8 (a cached shop-offers payload outlives the date arithmetic).  Once
    a shop-offers provider with the standard 300-second duration has
    generated a payload, every [fetch_data] less than 300 seconds later
    answers that payload and cannot raise, whatever the date, the city and
    the draws, and leaves the provider as it is. *)
Theorem shop_cache_serves_within_ttl p env0 i0 city0 country0 generated env i
    city country :
  BaseProvider.cache_hit p (now env0) = None ->
  BaseProvider.cache_duration p = 300 ->
  ShopOffersProvider._get_mock_shop_offers env0 i0 city0 country0
  = Ok generated ->
  micros (now env) - micros (now env0) < 300 * 1000000 ->
  let p1 := snd (ShopOffersProvider.fetch_data p env0 i0 city0 country0) in
  ShopOffersProvider.fetch_data p1 env i city country
  = (Ok (BaseProvider.format_response "ShopOffersProvider" (now env) generated),
     p1).
Proof.
  intros Hit Hd G A p1.
  destruct (mock_shop_offers_nonempty _ _ _ _ _ G) as (kv & d' & E).
  assert (p1 = BaseProvider.store p (now env0) generated) as E1.
  { unfold p1, ShopOffersProvider.fetch_data. rewrite Hit, G. reflexivity. }
  unfold ShopOffersProvider.fetch_data at 1.
  rewrite E1, E, cache_hit_after_store, Hd.
  replace (_ <? _) with true by (symmetry; apply Z.ltb_lt; exact A).
  reflexivity.
Qed.

Lemma shop_cache_serves_within_ttl_witness :
  fst (ShopOffersProvider.fetch_data (ShopOffersProvider.init None)
         env_early_29 0 "London" "GB") = Raise ValueError /\
  exists generated,
    ShopOffersProvider._get_mock_shop_offers env_late_28 0 "London" "GB"
    = Ok generated /\
    fst (ShopOffersProvider.fetch_data
           (snd (ShopOffersProvider.fetch_data (ShopOffersProvider.init None)
                   env_late_28 0 "London" "GB"))
           env_early_29 0 "London" "GB")
    = Ok (BaseProvider.format_response "ShopOffersProvider" early_29
            generated).
Proof.
  split; [vm_compute; reflexivity|].
  destruct (ShopOffersProvider._get_mock_shop_offers env_late_28 0 "London"
              "GB") as [generated|] eqn:G; [|vm_compute in G; discriminate G].
  exists generated. split; [reflexivity|].
  rewrite (shop_cache_serves_within_ttl (ShopOffersProvider.init None)
             env_late_28 0 "London" "GB" generated env_early_29 0 "London"
             "GB" eq_refl eq_refl G).
  - reflexivity.
  - vm_compute. reflexivity.
Defined.

Lemma valid_until_ok now k :
  1 <= day now -> 1 <= k ->
  (raised (ShopOffersProvider.valid_until now k) = true <->
   days_in_month (year now) (month now) < day now + k).
Proof.
  intros Hd Hk. unfold ShopOffersProvider.valid_until, replace_day.
  replace (1 <=? day now + k) with true by (symmetry; apply Z.leb_le; lia).
  cbn [andb].
  destruct (day now + k <=? days_in_month (year now) (month now)) eqn:E;
    cbn [bind raised].
  - apply Z.leb_le in E. split; [discriminate|lia].
  - apply Z.leb_gt in E. split; [intros _; exact E|reflexivity].
Qed.

Lemma category_offers_raise_iff env i city cats :
  1 <= day (now env) ->
  (raised (ShopOffersProvider.category_offers env i city cats) = true <->
   exists j, (j < List.length cats)%nat /\
             days_in_month (year (now env)) (month (now env))
             < day (now env) + randint env (i + 4 * j + 2) 1 7).
Proof.
  intros Hd. revert i. induction cats as [|cat rest IH]; intros i.
  - simpl. split; [discriminate|]. intros (j & Hj & _). lia.
  - cbn [ShopOffersProvider.category_offers List.length].
    pose proof (randint_range env (i + 2) 1 7 ltac:(lia)) as Rg.
    pose proof (valid_until_ok (now env) (randint env (i + 2) 1 7) Hd
                  ltac:(lia)) as V.
    destruct (ShopOffersProvider.valid_until (now env)
                (randint env (i + 2) 1 7)) as [valid|e]; cbn [bind].
    + specialize (IH (i + 4)%nat).
      destruct (ShopOffersProvider.category_offers env (i + 4) city rest)
        as [offers|e]; cbn [bind raised] in *.
      * split; [discriminate|]. intros (j & Hj & Hlt).
        destruct j as [|j].
        -- replace (i + 4 * 0 + 2)%nat with (i + 2)%nat in Hlt by lia.
           apply V in Hlt. discriminate Hlt.
        -- apply IH. exists j. split; [lia|].
           replace (i + 4 + 4 * j + 2)%nat with (i + 4 * S j + 2)%nat by lia.
           exact Hlt.
      * split; [|reflexivity]. intros _.
        destruct (proj1 IH eq_refl) as (j & Hj & Hlt).
        exists (S j). split; [lia|].
        replace (i + 4 * S j + 2)%nat with (i + 4 + 4 * j + 2)%nat by lia.
        exact Hlt.
    + cbn [raised] in *. split; [|reflexivity]. intros _.
      exists O. split; [lia|].
      replace (i + 4 * 0 + 2)%nat with (i + 2)%nat by lia.
      apply V. reflexivity.
Qed.

Lemma featured_offers_raise_iff env city :
  1 <= day (now env) ->
  (raised (ShopOffersProvider.featured_offers env city) = true <->
   days_in_month (year (now env)) (month (now env)) < day (now env) + 3).
Proof.
  intros Hd. unfold ShopOffersProvider.featured_offers.
  pose proof (valid_until_ok (now env) 3 Hd ltac:(lia)) as V3.
  pose proof (valid_until_ok (now env) 2 Hd ltac:(lia)) as V2.
  destruct (ShopOffersProvider.valid_until (now env) 3); cbn [bind raised] in *.
  - destruct (ShopOffersProvider.valid_until (now env) 2);
      cbn [bind raised] in *.
    + split; [discriminate|]. intros H. apply V3. exact H.
    + split; [|reflexivity]. intros _.
      pose proof (proj1 V2 eq_refl). lia.
  - split; [|reflexivity]. intros _. apply V3. reflexivity.
Qed.

Lemma sorted_reverse_generated l :
  Forall generated_offer l ->
  exists sorted, sorted_reverse ShopOffersProvider.offer_key l = Ok sorted.
Proof.
  intros F. unfold sorted_reverse.
  destruct (mapM_total ShopOffersProvider.offer_key l) as [keys ->].
  - rewrite Forall_forall in F. intros x Hx.
    apply generated_offer_key, F, Hx.
  - cbn [bind]. eauto.
Qed.

Lemma raised_is_value_error {A : Type} (m : Res A) :
  (forall e, m = Raise e -> e = ValueError) ->
  raised m = true -> m = Raise ValueError.
Proof.
  destruct m as [a|e]; [discriminate|]. intros H _.
  rewrite (H e eq_refl). reflexivity.
Qed.

Lemma valid_until_raise_or_not now k :
  (exists v, ShopOffersProvider.valid_until now k = Ok v) \/
  ShopOffersProvider.valid_until now k = Raise ValueError.
Proof.
  unfold ShopOffersProvider.valid_until, replace_day.
  destruct (_ && _)%bool; cbn [bind]; eauto.
Qed.

Lemma featured_offers_raise_or_not env city :
  (exists l, ShopOffersProvider.featured_offers env city = Ok l) \/
  ShopOffersProvider.featured_offers env city = Raise ValueError.
Proof.
  unfold ShopOffersProvider.featured_offers.
  destruct (valid_until_raise_or_not (now env) 3) as [[v ->] | ->];
    cbn [bind]; [|right; reflexivity].
  destruct (valid_until_raise_or_not (now env) 2) as [[v' ->] | ->];
    cbn [bind]; eauto.
Qed.

(** Generating the shop offers returns or raises [ValueError]. *)
Lemma mock_shop_offers_raise_or_not env i city country :
  (exists d, ShopOffersProvider._get_mock_shop_offers env i city country
             = Ok d) \/
  ShopOffersProvider._get_mock_shop_offers env i city country
  = Raise ValueError.
Proof.
  unfold ShopOffersProvider._get_mock_shop_offers.
  destruct (category_offers_raise_or_not env i city
              ShopOffersProvider.categories) as [[offers Eo] | ->];
    [rewrite Eo|right; reflexivity]. cbn [bind].
  destruct (featured_offers_raise_or_not env city) as [[featured Ef] | ->];
    [rewrite Ef|right; reflexivity]. cbn [bind].
  destruct (category_offers_generated _ _ _ _ _ Eo) as [Fo _].
  destruct (featured_offers_generated _ _ _ Ef) as [Ff _].
  destruct (sorted_reverse_generated (featured ++ offers)%list) as [b ->];
    [apply Forall_app; split; assumption|].
  cbn [bind]. left. eauto.
Qed.

(** Generating the shop offers raises exactly when a validity day falls
    outside the month. *)
Lemma mock_shop_offers_raised_iff env i city country :
  1 <= day (now env) ->
  (raised (ShopOffersProvider._get_mock_shop_offers env i city country) = true
   <->
   days_in_month (year (now env)) (month (now env)) < day (now env) + 3 \/
   exists j, (j < 5)%nat /\
             days_in_month (year (now env)) (month (now env))
             < day (now env) + randint env (i + 4 * j + 2) 1 7).
Proof.
  intros Hd.
  pose proof (category_offers_raise_iff env i city
                ShopOffersProvider.categories Hd) as C.
  pose proof (featured_offers_raise_iff env city Hd) as F.
  change (List.length ShopOffersProvider.categories) with 5%nat in C.
  unfold ShopOffersProvider._get_mock_shop_offers.
  destruct (ShopOffersProvider.category_offers env i city
              ShopOffersProvider.categories) as [offers|e] eqn:Eo;
    cbn [bind raised] in *.
  2:{ split; [|reflexivity]. intros _. right. apply C. reflexivity. }
  destruct (ShopOffersProvider.featured_offers env city)
    as [featured|e] eqn:Ef; cbn [bind raised] in *.
  2:{ split; [|reflexivity]. intros _. left. apply F. reflexivity. }
  destruct (category_offers_generated _ _ _ _ _ Eo) as [Fo _].
  destruct (featured_offers_generated _ _ _ Ef) as [Ff _].
  destruct (sorted_reverse_generated (featured ++ offers)%list) as [b ->];
    [apply Forall_app; split; assumption|].
  cbn [bind raised]. split; [discriminate|].
  intros [H | H]; [apply F in H | apply C in H]; discriminate H.
Qed.

(** It returns on every day at least seven days before the month's end. *)
Lemma mock_shop_offers_return_early env i city country :
  1 <= day (now env) ->
  day (now env) + 7 <= days_in_month (year (now env)) (month (now env)) ->
  exists d, ShopOffersProvider._get_mock_shop_offers env i city country = Ok d.
Proof.
  intros Hd H7.
  pose proof (mock_shop_offers_raised_iff env i city country Hd) as Iff.
  destruct (ShopOffersProvider._get_mock_shop_offers env i city country)
    as [d|e]; [eauto|].
  exfalso. destruct (proj1 Iff eq_refl) as [H | (j & _ & H)]; [lia|].
  pose proof (randint_range env (i + 4 * j + 2) 1 7 ltac:(lia)). lia.
Qed.

(** X9 (when the shop offers cannot be generated).  On a well-formed date,
    [_get_mock_shop_offers] raises exactly when the third day after today,
    or one of the five drawn validity days, falls outside the current
    month, and what it raises is [ValueError].  In particular it returns on
    every day at least seven days before the end of the month, and raises
    on each of the last three days of a month, whatever the draws. *)
Theorem shop_offers_raise_iff env i city country :
  1 <= day (now env) ->
  let last := days_in_month (year (now env)) (month (now env)) in
  let generated :=
    ShopOffersProvider._get_mock_shop_offers env i city country in
  (raised generated = true <->
   last < day (now env) + 3 \/
   exists j, (j < 5)%nat /\
             last < day (now env) + randint env (i + 4 * j + 2) 1 7) /\
  (raised generated = true -> generated = Raise ValueError) /\
  (day (now env) + 7 <= last -> exists d, generated = Ok d) /\
  (last < day (now env) + 3 -> generated = Raise ValueError).
Proof.
  intros Hd last generated.
  pose proof (mock_shop_offers_raised_iff env i city country Hd) as Iff.
  fold last generated in Iff.
  assert (forall e, generated = Raise e -> e = ValueError) as VE.
  { intros e G.
    destruct (mock_shop_offers_raise_or_not env i city country)
      as [[d E] | E]; fold generated in E; rewrite E in G;
      [discriminate G | injection G as <-; reflexivity]. }
  split; [exact Iff|].
  split; [apply raised_is_value_error, VE|].
  split.
  - intros H7. apply mock_shop_offers_return_early; assumption.
  - intros H3. apply raised_is_value_error; [exact VE|].
    apply Iff. left. exact H3.
Qed.

Lemma shop_offers_raise_iff_witness :
  ShopOffersProvider._get_mock_shop_offers env_month_end 0 "London" "GB"
  = Raise ValueError /\
  exists d,
    ShopOffersProvider._get_mock_shop_offers env_noon 0 "London" "GB" = Ok d.
Proof.
  split.
  - apply (shop_offers_raise_iff env_month_end 0 "London" "GB");
      vm_compute; [discriminate | reflexivity].
  - apply (shop_offers_raise_iff env_noon 0 "London" "GB");
      vm_compute; discriminate.
Defined.

(* ------------------------------------------------------------------ *)
(** ** The first of the best deals *)
(* ------------------------------------------------------------------ *)

(** An element whose key is at least every other key stays in front. *)
Lemma sort_desc_head {A : Type} (x : Dec * A) (l : list (Dec * A)) :
  (forall y, In y l -> dec_leb (fst y) (fst x) = true) ->
  sort_desc (x :: l) = x :: sort_desc l.
Proof.
  intros H. cbn [sort_desc].
  destruct (sort_desc l) as [|y l'] eqn:E; [reflexivity|].
  cbn [insert_desc]. rewrite H; [reflexivity|].
  apply (Permutation_in _ (Permutation_sym (sort_desc_perm l))).
  rewrite E. left. reflexivity.
Qed.

Lemma generated_offer_key_bound x :
  generated_offer x ->
  exists n, ShopOffersProvider.offer_key x = Ok (mkDec n 0) /\ 10 <= n <= 50.
Proof.
  intros (c & s & o & de & v & l & di & -> & [-> | (n & Hn & ->)]).
  - exists 50. split; [reflexivity|lia].
  - exists n. split; [|exact Hn]. rewrite offer_key_offer_dict.
    apply offer_key_percent, Hn.
Qed.

(** X10 (the best deal).  In every payload built by the shop-offers
    provider the first of the best deals is the City Bistro two-for-one
    offer: it counts as 50, no drawn discount exceeds 50, and the sort keeps
    the earlier of equal offers first.  The shopping sentence therefore
    always starts with that deal. *)
Theorem best_deal_is_city_bistro env i city country d :
  ShopOffersProvider._get_mock_shop_offers env i city country = Ok d ->
  exists valid second third sentence2 sentence3,
    lookup "best_deals" d
    = Some (PList
              [ ShopOffersProvider.offer_dict "Restaurants" "City Bistro"
                  "Buy 1 Get 1 Free"
                  "Lunch special - Buy one main course, get one free"
                  valid (city ++ " Downtown") (mkDec 12 1);
                second; third ]) /\
    ShopOffersProvider.valid_until (now env) 3 = Ok valid /\
    forall cd acc,
      dict_get cd "shop_offers" (PDict []) = PDict d ->
      exists acc',
        shop_part cd acc = Ok acc' /\
        answer_parts acc' =
          (answer_parts acc
           ++ [("Best deals available: City Bistro - Buy 1 Get 1 Free, "
                ++ sentence2 ++ ", " ++ sentence3)%string])%list.
Proof.
  intros G. pose proof G as G'.
  unfold ShopOffersProvider._get_mock_shop_offers in G.
  destruct (ShopOffersProvider.category_offers env i city
              ShopOffersProvider.categories) as [offers|] eqn:Eo;
    [|discriminate G]. cbn [bind] in G.
  destruct (ShopOffersProvider.featured_offers env city) as [featured|] eqn:Ef;
    [|discriminate G]. cbn [bind] in G.
  destruct (sorted_reverse _ _) as [sorted|] eqn:Es; [|discriminate G].
  cbn [bind] in G. injection G as <-.
  destruct (category_offers_generated _ _ _ _ _ Eo) as [Fo Lo].
  pose proof (featured_offers_generated _ _ _ Ef) as [Ff _].
  unfold ShopOffersProvider.featured_offers in Ef.
  destruct (ShopOffersProvider.valid_until (now env) 3) as [valid1|] eqn:V1;
    [|discriminate Ef]. cbn [bind] in Ef.
  destruct (ShopOffersProvider.valid_until (now env) 2) as [valid2|] eqn:V2;
    [|discriminate Ef]. cbn [bind] in Ef. injection Ef as <-.
  set (bistro := ShopOffersProvider.offer_dict "Restaurants" "City Bistro"
                   "Buy 1 Get 1 Free"
                   "Lunch special - Buy one main course, get one free"
                   valid1 (city ++ " Downtown") (mkDec 12 1)) in *.
  set (mart := ShopOffersProvider.offer_dict "Groceries" "SuperMart" "20% OFF"
                 "Weekly grocery special - 20% off on all fresh produce"
                 valid2 (city ++ " Shopping District") (mkDec 25 1)) in *.
  (* the keys *)
  unfold sorted_reverse in Es.
  destruct (mapM ShopOffersProvider.offer_key ([bistro; mart] ++ offers))
    as [keys|] eqn:K; [|discriminate Es]. cbn [bind] in Es.
  injection Es as <-.
  pose proof (mapM_combine _ _ _ K) as Keyed.
  pose proof (mapM_length _ _ _ K) as Lk.
  cbn [app mapM] in K.
  change (ShopOffersProvider.offer_key bistro) with (Ok (mkDec 50 0)) in K.
  cbn [bind] in K.
  destruct (ShopOffersProvider.offer_key mart); [|discriminate K].
  cbn [bind] in K.
  destruct (mapM ShopOffersProvider.offer_key offers) as [ks|];
    [|discriminate K]. cbn [bind] in K. injection K as <-.
  cbn [app combine] in *.
  rewrite sort_desc_head.
  2:{ intros y Hy.
      assert (generated_offer (snd y)) as Gy.
      { assert (In (snd y) (mart :: offers)) as I.
        { apply (in_map snd) in Hy.
          change (map snd ((a, mart) :: combine ks offers))
            with (mart :: map snd (combine ks offers)) in Hy.
          rewrite map_snd_combine in Hy; [exact Hy|].
          cbn [List.length] in Lk. lia. }
        rewrite Forall_forall in Ff, Fo.
        destruct I as [<- | I]; [apply Ff; right; left; reflexivity|].
        apply Fo, I. }
      destruct (generated_offer_key_bound _ Gy) as (n & Kn & Hn).
      assert (ShopOffersProvider.offer_key (snd y) = Ok (fst y)) as Ky
        by (apply Keyed; right; exact Hy).
      rewrite Kn in Ky. injection Ky as <-.
      unfold dec_leb, dec_align. cbn. apply Z.leb_le. lia. }
  set (tail := sort_desc ((a, mart) :: combine ks offers)).
  assert (Permutation ((a, mart) :: combine ks offers) tail) as P
    by apply sort_desc_perm.
  assert (List.length tail = 6%nat) as Lt.
  { rewrite <- (Permutation_length P). cbn [List.length].
    rewrite length_combine. cbn [List.length] in Lk.
    change (List.length ShopOffersProvider.categories) with 5%nat in Lo.
    lia. }
  destruct tail as [|[k2 x2] [|[k3 x3] tail']] eqn:Et;
    try discriminate Lt.
  assert (generated_offer x2 /\ generated_offer x3) as [G2 G3].
  { assert (forall p, In p ((k2, x2) :: (k3, x3) :: tail') ->
                      generated_offer (snd p)) as Gen.
    { intros p Hp.
      apply (Permutation_in _ (Permutation_sym P)) in Hp.
      apply (in_map snd) in Hp.
      change (map snd ((a, mart) :: combine ks offers))
        with (mart :: map snd (combine ks offers)) in Hp.
      rewrite map_snd_combine in Hp by (cbn [List.length] in Lk; lia).
      rewrite Forall_forall in Ff, Fo.
      destruct Hp as [<- | Hp]; [apply Ff; right; left; reflexivity|].
      apply Fo, Hp. }
    split; [apply (Gen (k2, x2)) | apply (Gen (k3, x3))]; simpl; auto. }
  destruct (generated_offer_deal_string x2 G2) as (s2 & D2 & _).
  destruct (generated_offer_deal_string x3 G3) as (s3 & D3 & _).
  exists valid1, x2, x3, s2, s3.
  split; [reflexivity|]. split; [reflexivity|].
  intros cd acc Hcd. unfold shop_part. rewrite Hcd. cbn [py_get bind].
  unfold dict_get.
  cbn [lookup String.eqb Ascii.eqb Bool.eqb map snd firstn truthy
       first_three bind mapM].
  change (deal_string bistro)
    with (Ok ("City Bistro - Buy 1 Get 1 Free")%string).
  cbn [bind]. rewrite D2, D3. cbn [bind].
  eexists. split; [reflexivity|]. reflexivity.
Qed.

Lemma best_deal_is_city_bistro_witness :
  exists second third,
    lookup "best_deals" london_offers
    = Some (PList
              [ ShopOffersProvider.offer_dict "Restaurants" "City Bistro"
                  "Buy 1 Get 1 Free"
                  "Lunch special - Buy one main course, get one free"
                  "2026-01-13" "London Downtown" (mkDec 12 1);
                second; third ]).
Proof.
  assert (ShopOffersProvider._get_mock_shop_offers env_noon
            TrafficProvider.draws "London" "GB" = Ok london_offers) as G
    by (vm_compute; reflexivity).
  destruct (best_deal_is_city_bistro env_noon TrafficProvider.draws "London"
              "GB" london_offers G)
    as (valid & second & third & _ & _ & B & V & _).
  vm_compute in V. injection V as <-.
  exists second, third. exact B.
Defined.

(* ================================================================== *)
(** * The weather provider *)
(* ================================================================== *)

(** X11 (the weather provider's fallback).  When a weather provider has no
    valid cache and either no API key is configured, or the request fails,
    or the service answers with an empty [weather] array, [fetch_data]
    answers the mock payload for the requested city and country and leaves
    the provider unchanged: mock data are never cached. *)
Theorem weather_falls_back_to_mock p now http city country :
  BaseProvider.cache_hit p now = None ->
  opt_truthy (BaseProvider.api_key p) = false \/
  (exists e, http = Raise e) \/
  (exists data, http = Ok data /\ ow_weather data = Some []) ->
  WeatherProvider.fetch_data p now http city country
  = (Ok (WeatherProvider._get_mock_data now city country), p) /\
  exists d,
    payload (WeatherProvider._get_mock_data now city country) = PDict d /\
    lookup "city" d = Some (PStr city) /\
    lookup "country" d = Some (PStr country).
Proof.
  intros Hit H. split; [|eexists; repeat split; reflexivity].
  unfold WeatherProvider.fetch_data. rewrite Hit.
  destruct (opt_truthy (BaseProvider.api_key p)); cbn [negb]; [|reflexivity].
  destruct H as [H | [[e ->] | (data & -> & W)]]; [discriminate H| |].
  - reflexivity.
  - cbn [bind]. unfold WeatherProvider.format_data,
      WeatherProvider.first_condition. rewrite W. reflexivity.
Qed.

Lemma weather_falls_back_to_mock_witness :
  WeatherProvider.fetch_data (WeatherProvider.init (Some "key") None) noon
    (Raise HTTPError) "Paris" "FR"
  = (Ok (WeatherProvider._get_mock_data noon "Paris" "FR"),
     WeatherProvider.init (Some "key") None).
Proof.
  apply (proj1 (weather_falls_back_to_mock
                  (WeatherProvider.init (Some "key") None)
                  noon (Raise HTTPError) "Paris" "FR" eq_refl
                  (or_intror (or_introl (ex_intro _ HTTPError eq_refl))))).
Defined.

(** X12 (a service answer is formatted and cached).  When a weather
    provider with an API key and no valid cache receives an answer whose
    [weather] array is not empty, [fetch_data] answers a payload with
    exactly the twelve canonical fields, whose city is the name the service
    reports (the requested city when it reports none) and whose temperature
    is the reported one ([None] when missing), and stores it: during the
    next 300 seconds every fetch answers that payload, whatever is asked
    and whatever the service would say. *)
Theorem weather_service_answer_is_cached p now data city country :
  BaseProvider.cache_hit p now = None ->
  opt_truthy (BaseProvider.api_key p) = true ->
  ow_weather data <> Some [] ->
  BaseProvider.cache_duration p = 300 ->
  exists formatted,
    WeatherProvider.fetch_data p now (Ok data) city country
    = (Ok (BaseProvider.format_response "WeatherProvider" now formatted),
       BaseProvider.store p now formatted) /\
    map fst formatted = weather_fields /\
    lookup "city" formatted
    = Some (PStr match ow_name data with Some n => n | None => city end) /\
    lookup "temperature" formatted = Some (py_of_opt_num (ow_temp data)) /\
    forall later http' city' country',
      micros later - micros now < 300 * 1000000 ->
      WeatherProvider.fetch_data (BaseProvider.store p now formatted) later
        http' city' country'
      = (Ok (BaseProvider.format_response "WeatherProvider" later formatted),
         BaseProvider.store p now formatted).
Proof.
  intros Hit Hk Hw Hd.
  unfold WeatherProvider.fetch_data at 1. rewrite Hit, Hk. cbn [negb bind].
  unfold WeatherProvider.format_data, WeatherProvider.first_condition.
  destruct (ow_weather data) as [[|c cs]|] eqn:W; [contradiction| |];
    cbn [bind]; eexists; (split; [reflexivity|]);
    (split; [reflexivity|]);
    (split; [destruct (ow_name data); reflexivity|]);
    (split; [reflexivity|]);
    intros later http' city' country' A;
    unfold WeatherProvider.fetch_data;
    rewrite cache_hit_after_store, Hd;
    (replace (_ <? _) with true by (symmetry; apply Z.ltb_lt; exact A));
    reflexivity.
Qed.

Lemma weather_service_answer_is_cached_witness :
  exists formatted,
    fst (WeatherProvider.fetch_data (WeatherProvider.init (Some "key") None)
           noon (Ok answer_paris) "Paris" "FR")
    = Ok (BaseProvider.format_response "WeatherProvider" noon formatted) /\
    lookup "city" formatted = Some (PStr "Paris") /\
    lookup "temperature" formatted = Some (PFloat (mkDec 213 1)).
Proof.
  destruct (weather_service_answer_is_cached
              (WeatherProvider.init (Some "key") None) noon answer_paris
              "Paris" "FR")
    as (formatted & F & _ & C & T & _);
    [reflexivity | reflexivity | discriminate | reflexivity |].
  exists formatted. rewrite F. split; [reflexivity|].
  split; [exact C | exact T].
Defined.

(* ================================================================== *)
(** * The temperature provider *)
(* ================================================================== *)





(** With the mock weather payload the temperature payload is always built. *)
Lemma temperature_from_mock_weather now city country :
  exists d,
    TemperatureProvider.format_data
      (payload (WeatherProvider._get_mock_data now city country))
      city country = Ok d.
Proof. eexists. reflexivity. Qed.

Ltac dec_cmp :=
  repeat match goal with
         | H : (_ <? _) = true |- _ => apply Z.ltb_lt in H
         | H : (_ <? _) = false |- _ => apply Z.ltb_ge in H
         | H : (_ <=? _) = true |- _ => apply Z.leb_le in H
         | H : (_ <=? _) = false |- _ => apply Z.leb_gt in H
         end.

(** X14 (flags and recommendation of a temperature).  For a numeric
    temperature the recommendation always exists, and it agrees with the
    range flags of the payload: [too_cold] holds exactly for the two cold
    recommendations, [too_hot] implies the hot one, the pleasant
    recommendation implies [comfortable], and [comfortable] implies the
    pleasant or the warm one (warm at exactly 25 degrees); no two flags hold
    together. *)
Theorem temperature_flags_agree temp t :
  py_num temp = Ok t ->
  exists r cold hot comfy,
    TemperatureProvider._get_temperature_recommendation temp = Ok r /\
    py_lt_int temp 10 = Ok cold /\
    py_gt_int temp 30 = Ok hot /\
    TemperatureProvider.comfortable temp = Ok comfy /\
    (cold = true <-> r = rec_very_cold \/ r = rec_cold) /\
    (hot = true -> r = rec_hot) /\
    (r = rec_pleasant -> comfy = true) /\
    (comfy = true -> r = rec_pleasant \/ r = rec_warm) /\
    (cold && hot = false /\ cold && comfy = false /\ hot && comfy = false)%bool.
Proof.
  intros H.
  unfold TemperatureProvider._get_temperature_recommendation,
    TemperatureProvider.comfortable, py_lt_int, py_gt_int, py_int_le,
    py_le_int.
  rewrite H. cbn [bind].
  unfold dec_ltb, dec_leb, dec_align, dec_of_Z. cbn [mant expo Z.of_nat].
  change (10 ^ 0) with 1.
  pose proof (pow10_pos (expo t)) as Pp.
  set (p := 10 ^ Z.of_nat (expo t)) in *. set (m := mant t).
  destruct (m * 1 <? 0 * p) eqn:C0; cbn [bind];
    [|destruct (m * 1 <? 10 * p) eqn:C10; cbn [bind];
      [|destruct (m * 1 <? 18 * p) eqn:C18; cbn [bind];
        [|destruct (m * 1 <? 25 * p) eqn:C25; cbn [bind];
          [|destruct (m * 1 <? 30 * p) eqn:C30; cbn [bind]]]]];
    destruct (m * 1 <? 10 * p) eqn:D10;
    destruct (30 * p <? m * 1) eqn:D30;
    destruct (18 * p <=? m * 1) eqn:D18; cbn [bind];
    try destruct (m * 1 <=? 25 * p) eqn:D25;
    dec_cmp; try lia;
    do 4 eexists;
    (split; [reflexivity|]); (split; [reflexivity|]);
    (split; [reflexivity|]); (split; [reflexivity|]);
    unfold rec_very_cold, rec_cold, rec_pleasant, rec_warm, rec_hot;
    repeat split; intros; try reflexivity; try discriminate; auto;
    repeat match goal with H : _ \/ _ |- _ => destruct H end;
    try discriminate.
Qed.

Lemma temperature_flags_agree_witness :
  exists r cold hot comfy,
    TemperatureProvider._get_temperature_recommendation (PInt 25) = Ok r /\
    TemperatureProvider.comfortable (PInt 25) = Ok comfy /\
    py_lt_int (PInt 25) 10 = Ok cold /\
    py_gt_int (PInt 25) 30 = Ok hot /\
    (comfy = true -> r = rec_pleasant \/ r = rec_warm).
Proof.
  destruct (temperature_flags_agree (PInt 25) (dec_of_Z 25) eq_refl)
    as (r & cold & hot & comfy & Hr & Hc & Hh & Hy & _ & _ & _ & W & _).
  exists r, cold, hot, comfy. auto.
Defined.

(* ================================================================== *)
(** * A server without an API key *)
(* ================================================================== *)

Lemma keyless_cache_miss p now :
  keyless p -> BaseProvider.cache_hit p now = None.
Proof.
  intros [_ C]. unfold BaseProvider.cache_hit. rewrite C.
  destruct (BaseProvider.is_cache_valid p now); reflexivity.
Qed.

Lemma weather_keyless_fetch p now http city country :
  keyless p ->
  WeatherProvider.fetch_data p now http city country
  = (Ok (WeatherProvider._get_mock_data now city country), p).
Proof.
  intros K. unfold WeatherProvider.fetch_data.
  rewrite (keyless_cache_miss p now K). destruct K as [-> _]. reflexivity.
Qed.

Lemma temperature_keyless_fetch p now http city country :
  keyless (TemperatureProvider.weather_provider p) ->
  (exists te, fst (TemperatureProvider.fetch_data p now http city country)
              = Ok te) /\
  TemperatureProvider.weather_provider
    (snd (TemperatureProvider.fetch_data p now http city country))
  = TemperatureProvider.weather_provider p.
Proof.
  intros K. unfold TemperatureProvider.fetch_data.
  destruct (BaseProvider.cache_hit (TemperatureProvider.base p) now).
  - split; [eexists|]; reflexivity.
  - rewrite (weather_keyless_fetch _ now http city country K).
    cbn [bind]. split; [eexists|]; reflexivity.
Qed.

Lemma fetch_all_data_temperature_frame s env city country :
  temperature_provider (final (fetch_all_data s env city country)) =
  snd (TemperatureProvider.fetch_data (temperature_provider s) (now env)
         (http_temperature env) (str_or city (current_city s))
         (str_or country (current_country s))).
Proof.
  run_tasks.
  destruct rw, rt, rte, rs;
    cbn [final temperature_provider snd]; reflexivity.
Qed.

Lemma mock_mode_fetch_all_data s env city country :
  mock_mode s -> mock_mode (final (fetch_all_data s env city country)).
Proof.
  intros [Kw Kt]. split.
  - destruct (fetch_all_data_frame s env city country)
      as (_ & _ & _ & _ & -> & _).
    rewrite (weather_keyless_fetch _ _ _ _ _ Kw). exact Kw.
  - rewrite fetch_all_data_temperature_frame.
    rewrite (proj2 (temperature_keyless_fetch _ _ _ _ _ Kt)). exact Kt.
Qed.

Lemma mock_mode_get_city_data s env city country force_refresh :
  mock_mode s ->
  mock_mode (final (get_city_data s env city country force_refresh)).
Proof.
  intros M.
  destruct (get_city_data_final s env city country force_refresh) as [-> | ->];
    [exact M | apply mock_mode_fetch_all_data, M].
Qed.

(** X15 (a server without an API key).  A server constructed without a
    usable [OPENWEATHER_API_KEY] stays in mock mode under every operation.
    In mock mode a refresh can fail only through the shop-offers provider:
    the weather answer is the mock payload for the requested city, the
    temperature provider answers, and [fetch_all_data] raises exactly when
    the shop-offers provider does.  It therefore returns whenever the
    shop-offers provider holds a valid cache or the date is at least seven
    days before the end of its month. *)
Theorem keyless_server_fails_only_on_shop_offers s env query city country
    force_refresh :
  mock_mode s ->
  let c := str_or city (current_city s) in
  let k := str_or country (current_country s) in
  let o := fetch_all_data s env city country in
  mock_mode (init None) /\ mock_mode (init (Some "")) /\
  mock_mode (final o) /\
  mock_mode (final (get_city_data s env city country force_refresh)) /\
  mock_mode (final (answer_query s env query city country)) /\
  weather_answer s env c k
  = Ok (WeatherProvider._get_mock_data (now env) c k) /\
  (exists te, temperature_answer s env c k = Ok te) /\
  raised (result o) = raised (shop_offers_answer s env c k) /\
  (BaseProvider.cache_hit (shop_offers_provider s) (now env) <> None \/
   (1 <= day (now env) /\
    day (now env) + 7 <= days_in_month (year (now env)) (month (now env))) ->
   exists snap,
     result o = Ok snap /\
     lookup "weather" snap
     = Some (payload (WeatherProvider._get_mock_data (now env) c k))).
Proof.
  intros M c k o. pose proof M as [Kw Kt].
  assert (weather_answer s env c k
          = Ok (WeatherProvider._get_mock_data (now env) c k)) as Ew.
  { unfold weather_answer. rewrite (weather_keyless_fetch _ _ _ _ _ Kw).
    reflexivity. }
  assert (exists te, temperature_answer s env c k = Ok te) as [te Ete]
    by apply (temperature_keyless_fetch _ _ _ _ _ Kt).
  destruct (traffic_fetch_ok (traffic_provider s) env 0 c k) as [tr Etr].
  fold (traffic_answer s env c k) in Etr.
  assert (raised (result o) = raised (shop_offers_answer s env c k)) as Er.
  { destruct (shop_offers_answer s env c k) as [sh|e] eqn:Esh.
    - destruct (fetch_all_data_success s env city country
                  (WeatherProvider._get_mock_data (now env) c k) tr te sh)
        as (R & _).
      + unfold source_answers. fold c k. rewrite Ew, Etr, Ete, Esh.
        reflexivity.
      + fold o in R. rewrite R. reflexivity.
    - destruct (fetch_all_data_failure s env city country) as (R & _).
      + unfold source_answers. fold c k. rewrite Ew, Etr, Ete, Esh.
        reflexivity.
      + fold o in R. rewrite R. reflexivity. }
  split; [repeat split; reflexivity|].
  split; [repeat split; reflexivity|].
  split; [apply mock_mode_fetch_all_data, M|].
  split; [apply mock_mode_get_city_data, M|].
  split; [rewrite answer_query_final; apply mock_mode_get_city_data, M|].
  split; [exact Ew|]. split; [exists te; exact Ete|]. split; [exact Er|].
  intros H.
  assert (exists sh, shop_offers_answer s env c k = Ok sh) as [sh Esh].
  { unfold shop_offers_answer, ShopOffersProvider.fetch_data.
    destruct (BaseProvider.cache_hit (shop_offers_provider s) (now env))
      as [cached|]; [cbn [fst]; eauto|].
    destruct H as [H | [Hd H7]]; [contradiction|].
    destruct (mock_shop_offers_return_early env
                (snd (TrafficProvider.fetch_data (traffic_provider s) env 0
                        c k)) c k Hd H7) as [d ->].
    cbn [fst]. eauto. }
  destruct (fetch_all_data_success s env city country
              (WeatherProvider._get_mock_data (now env) c k) tr te sh)
    as (R & _).
  - unfold source_answers. fold c k. rewrite Ew, Etr, Ete, Esh. reflexivity.
  - fold o c k in R. eexists. split; [exact R|]. reflexivity.
Qed.

Lemma keyless_server_fails_only_on_shop_offers_witness :
  mock_mode server_london /\
  (exists snap,
      result (fetch_all_data server_london env_noon_10s (Some "Paris")
                (Some "FR")) = Ok snap) /\
  raised (result (fetch_all_data server_london env_month_end (Some "Paris")
                    (Some "FR")))
  = raised (shop_offers_answer server_london env_month_end "Paris" "FR").
Proof.
  assert (mock_mode server_london) as M by (repeat split; reflexivity).
  split; [exact M|]. split.
  - destruct (keyless_server_fails_only_on_shop_offers server_london
                env_noon_10s "" (Some "Paris") (Some "FR") false M)
      as (_ & _ & _ & _ & _ & _ & _ & _ & H).
    destruct H as (snap & R & _).
    + left. vm_compute. discriminate.
    + exists snap. exact R.
  - destruct (keyless_server_fails_only_on_shop_offers server_london
                env_month_end "" (Some "Paris") (Some "FR") false M)
      as (_ & _ & _ & _ & _ & _ & _ & E & _).
    exact E.
Defined.

(* ================================================================== *)
(** * Keywords that another keyword subsumes *)
(* ================================================================== *)

Lemma append_assoc_str (a b c : string) : (a ++ b) ++ c = a ++ (b ++ c).
Proof.
  induction a as [|x a IH]; simpl; [reflexivity|]. rewrite IH. reflexivity.
Qed.

(** A string that contains [a ++ b] contains [a]. *)
Lemma str_in_weaken a b s : str_in (a ++ b) s = true -> str_in a s = true.
Proof.
  rewrite !str_in_substring. intros (pre & post & ->).
  exists pre, (b ++ post). rewrite append_assoc_str. reflexivity.
Qed.

(** X16 (subsumed keywords).  The keyword "temperature" contains the
    keyword "temp" and "shopping" contains "shop", and matching is by
    substring: on every text the temperature test and the shopping test of
    [answer_query] give the same verdict without these two keywords. *)
Theorem longer_keywords_are_subsumed text :
  any_keyword_in temp_keywords text
  = any_keyword_in temp_keywords_short text /\
  any_keyword_in shop_keywords text
  = any_keyword_in shop_keywords_short text.
Proof.
  split.
  - unfold any_keyword_in, temp_keywords, temp_keywords_short.
    cbn [existsb].
    destruct (str_in "temperature" text) eqn:E; [|reflexivity].
    rewrite (str_in_weaken "temp" "erature" text E). reflexivity.
  - unfold any_keyword_in.
    change shop_keywords with (shop_keywords_short ++ ["shopping"])%list.
    rewrite existsb_app. cbn [existsb]. rewrite orb_false_r.
    destruct (str_in "shopping" text) eqn:E;
      [|rewrite orb_false_r; reflexivity].
    unfold shop_keywords_short. cbn [existsb].
    rewrite (str_in_weaken "shop" "ping" text E). reflexivity.
Qed.

(* ================================================================== *)
(** * The fallback answer is never given *)
(* ================================================================== *)

Ltac head_ok :=
  eexists; split; [reflexivity|];
  do 2 eexists; split; [reflexivity|discriminate].

Lemma weather_part_head cd city acc acc' :
  weather_part cd city acc = Ok acc' ->
  exists s, answer_parts acc' = (answer_parts acc ++ [s])%list /\
            not_fallback_start s.
Proof.
  unfold weather_part. intros H. part_ok H. injection H as <-. head_ok.
Qed.

Lemma temperature_part_head cd acc acc' :
  temperature_part cd acc = Ok acc' ->
  exists s, answer_parts acc' = (answer_parts acc ++ [s])%list /\
            not_fallback_start s.
Proof.
  unfold temperature_part. intros H. part_ok H. injection H as <-. head_ok.
Qed.

Lemma traffic_part_head cd acc acc' :
  traffic_part cd acc = Ok acc' ->
  exists s, answer_parts acc' = (answer_parts acc ++ [s])%list /\
            not_fallback_start s.
Proof.
  unfold traffic_part. intros H. part_ok H. injection H as <-. head_ok.
Qed.

Lemma shop_part_head cd acc acc' :
  shop_part cd acc = Ok acc' ->
  exists s, answer_parts acc' = (answer_parts acc ++ [s])%list /\
            not_fallback_start s.
Proof.
  unfold shop_part. intros H. part_ok H.
  destruct (truthy _); part_ok H; injection H as <-; head_ok.
Qed.

Lemma general_part_head cd city acc' :
  general_part cd city = Ok acc' ->
  exists s, answer_parts acc' = [s] /\ not_fallback_start s.
Proof.
  unfold general_part. intros H. part_ok H. injection H as <-. head_ok.
Qed.

Ltac step_head :=
  match goal with
  | H : bind (weather_part ?cd ?c ?a) _ = Ok _ |- _ =>
      let E := fresh "E" in
      destruct (weather_part cd c a) eqn:E; cbn [bind] in H;
      [apply weather_part_head in E as (? & ? & ?) | discriminate H]
  | H : bind (temperature_part ?cd ?a) _ = Ok _ |- _ =>
      let E := fresh "E" in
      destruct (temperature_part cd a) eqn:E; cbn [bind] in H;
      [apply temperature_part_head in E as (? & ? & ?) | discriminate H]
  | H : bind (traffic_part ?cd ?a) _ = Ok _ |- _ =>
      let E := fresh "E" in
      destruct (traffic_part cd a) eqn:E; cbn [bind] in H;
      [apply traffic_part_head in E as (? & ? & ?) | discriminate H]
  | H : bind (shop_part ?cd ?a) _ = Ok _ |- _ =>
      let E := fresh "E" in
      destruct (shop_part cd a) eqn:E; cbn [bind] in H;
      [apply shop_part_head in E as (? & ? & ?) | discriminate H]
  end.

(** The first answer part never begins like the fallback sentence. *)
Lemma collect_parts_first cd query city acc :
  collect_parts cd query city = Ok acc ->
  exists s rest, answer_parts acc = s :: rest /\ not_fallback_start s.
Proof.
  unfold collect_parts, when_matched. intros H.
  destruct (any_keyword_in weather_keywords (lower query));
    destruct (any_keyword_in temp_keywords (lower query));
    destruct (any_keyword_in traffic_keywords (lower query));
    destruct (any_keyword_in shop_keywords (lower query));
    cbn [bind answer_parts] in H;
    repeat step_head;
    repeat match goal with
           | E : answer_parts _ = _ |- _ => rewrite E in H
           end;
    cbn [app answer_parts] in H;
    try (apply general_part_head in H as (s & -> & Hs); eauto);
    injection H as <-;
    repeat match goal with
           | E : answer_parts _ = _ |- _ => rewrite E
           end;
    cbn [app answer_parts]; eauto.
Qed.

(** X17 (the fallback answer is dead).  Whenever the composition of an
    answer returns, the answer is the space-joined list of at least one
    part, each built by a keyword block or by the general block; it is
    never the sentence "I couldn't find specific information for your
    query.". *)
Theorem answer_is_never_the_fallback cd now query city country a :
  answer_from cd now query city country = Ok a ->
  exists first rest,
    lookup "answer" a = Some (PStr (join " " (first :: rest))) /\
    not_fallback_start first /\
    lookup "answer" a <> Some (PStr fallback_answer).
Proof.
  unfold answer_from. intros H.
  destruct (collect_parts cd query (py_of_opt_str city)) as [acc|] eqn:C;
    cbn [bind] in H; [|discriminate H].
  destruct (collect_parts_first _ _ _ _ C) as (s & rest & E & Hs).
  rewrite E in H. part_ok H. injection H as <-.
  exists s, rest. cbn [lookup String.eqb Ascii.eqb Bool.eqb].
  split; [reflexivity|]. split; [exact Hs|].
  destruct Hs as (c & r & -> & Hc).
  unfold fallback_answer. destruct rest; cbn [append];
    intros [= X _]; contradiction.
Qed.

Lemma answer_is_never_the_fallback_witness :
  exists a,
    answer_from (data_cache server_london) noon "zzz" None None = Ok a /\
    lookup "answer" a <> Some (PStr fallback_answer).
Proof.
  destruct (answer_from (data_cache server_london) noon "zzz" None None)
    as [a|] eqn:E; [|vm_compute in E; discriminate E].
  exists a. split; [reflexivity|].
  destruct (answer_is_never_the_fallback _ _ _ _ _ a E)
    as (first & rest & _ & _ & N).
  exact N.
Defined.

(* ================================================================== *)
(** * Queries against a valid cache, and failed queries *)
(* ================================================================== *)

(** X18 (a valid cache always answers).  On a reachable server, a query for
    the city of a snapshot younger than 300 seconds always returns an
    answer: no provider is called, the server is left exactly as it is, and
    the answer names that city, whatever the date and whatever the
    providers would do. *)
Theorem valid_cache_always_answers s env query city country :
  reachable s ->
  city_valid s (now env) (str_or city (current_city s)) ->
  exists a,
    answer_query s env query city country = mkOutcome (Ok a) s [] /\
    lookup "city" a = Some (PStr (str_or city (current_city s))).
Proof.
  intros R V. pose proof (reachable_cache_wf s R) as W.
  assert (must_fetch s (now env) (str_or city (current_city s)) false
          = Ok false) as M
    by (apply (must_fetch_false_iff _ _ _ _ W); split; [reflexivity|exact V]).
  assert (get_city_data s env city country false
          = mkOutcome (Ok (data_cache s)) s []) as G
    by (unfold get_city_data; rewrite M; reflexivity).
  destruct V as (Hne & _ & Hc).
  destruct (answer_from_total s (now env) query city country R Hne) as [a A].
  exists a. split.
  - unfold answer_query. rewrite G. cbn [result final calls]. rewrite A.
    reflexivity.
  - destruct W as (_ & [[E _] | (w & tr & te & sh & c & k & f & stamp & E & _)]
                   & _); [contradiction|].
    rewrite E in A, Hc. injection Hc as <-.
    unfold answer_from in A.
    destruct (collect_parts _ _ _); cbn [bind] in A; [|discriminate A].
    cbn in A. injection A as <-. reflexivity.
Qed.

Lemma valid_cache_always_answers_witness :
  exists a,
    answer_query server_london (mkEnv noon_10s draws_b (Raise HTTPError)
                                  (Raise HTTPError))
      "any deals?" None None
    = mkOutcome (Ok a) server_london [].
Proof.
  destruct (valid_cache_always_answers server_london
              (mkEnv noon_10s draws_b (Raise HTTPError) (Raise HTTPError))
              "any deals?" None None) as (a & A & _).
  - apply reach_fetch_all_data, reach_init.
  - split; [vm_compute; discriminate|].
    split; [exists noon; split; vm_compute; reflexivity|].
    vm_compute. reflexivity.
  - exists a. exact A.
Defined.

(** X19 (a failed query).  On a reachable server [answer_query] raises only
    when it had to refresh and a provider raised: it then has called all
    four providers for the requested city and country, recorded them as the
    current context, and left the cached snapshot and its fetch time as
    they were. *)
Theorem failed_query_keeps_cache s env query city country :
  reachable s ->
  let c := str_or city (current_city s) in
  let k := str_or country (current_country s) in
  let o := answer_query s env query city country in
  raised (result o) = true ->
  existsb raised (source_answers s env c k) = true /\
  ~ city_valid s (now env) c /\
  calls o = refresh_calls c k /\
  data_cache (final o) = data_cache s /\
  cache_timestamp (final o) = cache_timestamp s /\
  current_city (final o) = c /\
  current_country (final o) = k.
Proof.
  intros R c k o H. pose proof (reachable_cache_wf s R) as W.
  unfold o in H. rewrite (answer_query_raises_only_with_refresh _ _ _ _ _ R) in H.
  assert (calls o = calls (get_city_data s env city country false)) as Ecalls
    by (unfold o, answer_query;
        destruct (result (get_city_data s env city country false));
        reflexivity).
  rewrite Ecalls. unfold o. rewrite answer_query_final.
  rewrite get_city_data_calls. fold c k.
  pose proof (must_fetch_false_iff s (now env) c false W) as F.
  unfold get_city_data in *. fold c k in H |- *.
  destruct (must_fetch s (now env) c false) as [[|]|e] eqn:M.
  - pose proof (fetch_all_data_success s env (Some c) (Some k)) as S.
    pose proof (fetch_all_data_failure s env (Some c) (Some k)) as Fl.
    pose proof (fetch_all_data_frame s env (Some c) (Some k)) as Fr.
    cbv zeta in S, Fl, Fr. subst c k. rewrite !str_or_idem in S, Fl, Fr.
    destruct (source_answers_cases s env (str_or city (current_city s))
                (str_or country (current_country s)))
      as [(w & tr & te & sh & E)|E].
    + destruct (S w tr te sh E) as (R' & _). rewrite R' in H.
      cbn [result raised] in H. discriminate H.
    + destruct (Fl E) as (R' & Ec & Et).
      destruct Fr as (Ecur & Ek & _).
      destruct (result (fetch_all_data s env _ _)); [discriminate R'|].
      cbn [final]. split; [exact E|].
      split; [intros V; assert (Ok true = Ok false) as X
                by (apply F; split; [reflexivity|exact V]); discriminate X|].
      repeat split; assumption.
  - cbn [result raised] in H. discriminate H.
  - rewrite (must_fetch_reachable _ _ _ _ W) in M. discriminate M.
Qed.

Lemma failed_query_keeps_cache_witness :
  raised (result (answer_query server_london env_month_end "any deals?"
                    (Some "Paris") None)) = true /\
  data_cache (final (answer_query server_london env_month_end "any deals?"
                       (Some "Paris") None)) = data_cache server_london /\
  current_city (final (answer_query server_london env_month_end "any deals?"
                         (Some "Paris") None)) = "Paris".
Proof.
  assert (raised (result (answer_query server_london env_month_end
                            "any deals?" (Some "Paris") None)) = true) as H
    by (vm_compute; reflexivity).
  split; [exact H|].
  destruct (failed_query_keeps_cache server_london env_month_end "any deals?"
              (Some "Paris") None
              (reach_fetch_all_data _ _ _ _ (reach_init None)) H)
    as (_ & _ & _ & D & _ & C & _).
  split; [exact D | exact C].
Defined.
